(** * CRACEN CTR_DRBG: a shallow embedding of the nrfx CRACEN drivers

    The three C files of the driver are embedded one function at a time:

    - [nrfx_cracen_ctr_drbg.c]    the CTR_DRBG core (update, reseed, init, get_random),
    - [nrfx_cracen_cm_aes_ecb.c]  the single-block AES-ECB job on the CryptoMaster,
    - [nrfx_cracen_trng.c]        the TRNG entropy source.

    Memory is a list of bytes ([Z] in [0, 256)), machine integers are [Z] with
    their wrap-around written out, and the peripheral is an oracle: what a
    register reads at a given time, and which block the AES engine pushes for a
    key and an input block.  Every HAL call is logged in a trace, newest call
    first, and the time of a call is the length of the trace before it. *)

From Stdlib Require Import ZArith List Lia Bool.
From stdpp Require Import base tactics option list numbers.

Open Scope Z_scope.

(** ** Bytes and byte arrays *)

Definition is_byte (b : Z) : Prop := 0 <= b < 256.

Definition bytes (l : list Z) : Prop := Forall is_byte l.

(** The number a byte array stores in big-endian order ([v[0]] is the most
    significant byte). *)
Definition be_value (l : list Z) : Z :=
  fold_left (fun acc b => acc * 256 + b) l 0.

(** [n] bytes storing [v mod 256^n] in big-endian order. *)
Fixpoint be_bytes (n : nat) (v : Z) : list Z :=
  match n with
  | O => []
  | S n' => be_bytes n' (v / 256) ++ [v mod 256]
  end.

(** ** nrfx_cracen_ctr_drbg.c: constants *)

Definition MAX_BYTES_PER_REQUEST : Z := Z.shiftl 1 16.
Definition RESEED_INTERVAL : Z := Z.shiftl 1 48.
Definition KEY_SIZE : Z := 32.
Definition AES_BLK_SZ : Z := 16.
Definition ENTROPY_SIZE : Z := KEY_SIZE + AES_BLK_SZ.

(** ** be_incr

    [do { size--; add += v[size]; v[size] = add & 0xFF; add >>= 8; }
     while ((add != 0) && (size > 0));]

    [add] is an [unsigned int], hence the reduction modulo [2^32].  The loop is
    a do-while: with [size = 0] the C code would index [v[SIZE_MAX]]; the
    driver only calls it with [AES_BLK_SZ] on a 16-byte array, and the
    embedding leaves [v] alone where the C code would read outside of it. *)
Fixpoint be_incr_loop (v : list Z) (size : nat) (add : Z) : list Z :=
  match size with
  | O => v
  | S size' =>
      match v !! size' with
      | None => v
      | Some b =>
          let add := (add + b) mod 2 ^ 32 in
          let v := <[size' := Z.land add 255]> v in
          let add := Z.shiftr add 8 in
          if bool_decide (add <> 0) && bool_decide (0 < size')%nat
          then be_incr_loop v size' add
          else v
      end
  end.

Definition be_incr (v : list Z) (size : nat) : list Z := be_incr_loop v size 1.

(** ** xor_array

    [for (; (uintptr_t)a < end; a++, b++) { *a = *a ^ *b; }] over [uint32_t]
    pointers: each step loads one 32-bit word from each array, stores the XOR
    through [a] and moves both pointers four bytes on.  The core is
    little-endian; a word load followed by a word store is its own inverse in
    either byte order. *)
Definition load_u32 (b0 b1 b2 b3 : Z) : Z :=
  Z.lor (Z.lor b0 (Z.shiftl b1 8)) (Z.lor (Z.shiftl b2 16) (Z.shiftl b3 24)).

Definition store_u32 (w : Z) : list Z :=
  [Z.land w 255; Z.land (Z.shiftr w 8) 255;
   Z.land (Z.shiftr w 16) 255; Z.land (Z.shiftr w 24) 255].

Fixpoint xor_array_words (a b : list Z) (nwords : nat) : list Z :=
  match nwords, a, b with
  | S n, a0 :: a1 :: a2 :: a3 :: a', b0 :: b1 :: b2 :: b3 :: b' =>
      store_u32 (Z.lxor (load_u32 a0 a1 a2 a3) (load_u32 b0 b1 b2 b3))
      ++ xor_array_words a' b' n
  | _, _, _ => a
  end.

(** [size] is in bytes and a multiple of 4. *)
Definition xor_array (a b : list Z) (size : Z) : list Z :=
  xor_array_words a b (Z.to_nat (size / 4)).

(** ** The peripheral

    The registers' bit layout and the HAL accessors live outside these three
    files.  The constants the drivers name are gathered in [cracen_mdk]; what
    the hardware answers is gathered in [cracen_hw], indexed by the time of the
    read. *)

Record cracen_mdk := {
  NRF_CRACEN_CM_INT_FETCH_ERROR_MASK : Z;
  NRF_CRACEN_CM_INT_PUSH_ERROR_MASK : Z;
  NRF_CRACEN_CM_STATUS_BUSY_FETCH_MASK : Z;
  NRF_CRACEN_CM_STATUS_BUSY_PUSH_MASK : Z;
  NRF_CRACEN_CM_STATUS_PUSH_WAITING_MASK : Z;
  CRACENCORE_RNGCONTROL_FIFOTHRESHOLD_ResetValue : Z
}.

(** The bits of CRACEN's ENABLE register the drivers touch. *)
Inductive cracen_module := CRYPTOMASTER | RNG.

(** CRACENCORE_RNGCONTROL_STATUS_STATE_*: the driver names three states and
    treats every other one like STARTUP. *)
Inductive rng_fsm :=
| STATE_RESET
| STATE_STARTUP
| STATE_ERROR
| STATE_other (code : Z).

Record cracen_hw := {
  (** the block the AES engine pushes for a key and a 16-byte input block *)
  cm_block_encrypt : list Z -> list Z -> list Z;
  cm_int_pending : nat -> Z;
  cm_status : nat -> Z -> Z;
  rng_fsm_state : nat -> rng_fsm;
  rng_fifo_level : nat -> Z;
  rng_fifo : nat -> Z
}.

(** nrf_cracen_rng_control_t, the fields the driver sets (the others are
    zero-initialised). *)
Record nrf_cracen_rng_control_t := {
  soft_reset : bool;
  number_128_blocks : Z;
  enable : bool
}.

(** struct nrf_cracen_cm_dma_desc.  [p_next] is the position in the chain;
    every [length] word of the driver carries the REALIGN flag. *)
Inductive dma_tag :=
| TAG_AES_CONFIG_REG_CONFIG
| TAG_AES_CONFIG_REG_KEY
| TAG_LAST_ENGINE_AES_PAYLOAD
| TAG_LAST.

Inductive dma_data :=
| aes_config_value        (* ECB mode, key programmed by software *)
| mem (data : list Z).

Record nrf_cracen_cm_dma_desc := {
  p_addr : dma_data;
  desc_length : Z;
  dmatag : dma_tag
}.

(** One constructor per HAL call; a read carries the value it returned. *)
Inductive hal_event :=
| ev_module_enable (m : cracen_module)
| ev_module_disable (m : cracen_module)
| ev_cm_fetch_addr_set (in_descs : list nrf_cracen_cm_dma_desc)
| ev_cm_push_addr_set (out_desc : nrf_cracen_cm_dma_desc)
| ev_cm_config_indirect_set (fetch push : bool)
| ev_dmb
| ev_cm_start
| ev_cm_int_pending_get (ret : Z)
| ev_cm_status_get (mask ret : Z)
| ev_cm_softreset
| ev_rng_control_set (c : nrf_cracen_rng_control_t)
| ev_rng_off_timer_set (v : Z)
| ev_rng_clk_div_set (v : Z)
| ev_rng_init_wait_val_set (v : Z)
| ev_rng_fsm_state_get (ret : rng_fsm)
| ev_rng_fifo_level_get (ret : Z)
| ev_rng_fifo_get (ret : Z)
| ev_rng_key_set (i : Z) (key : Z).

(** ** The state of the program *)

(** struct cracen_prng_status *)
Record cracen_prng_status := {
  key : list Z;              (* uint8_t key[KEY_SIZE] *)
  V : list Z;                (* uint8_t V[AES_BLK_SZ] *)
  reseed_counter : Z;        (* uint64_t *)
  initialized : bool
}.

Record world := {
  prng : cracen_prng_status;         (* nrfx_cracen_ctr_drbg.c *)
  conditioning_key_set : bool;       (* nrfx_cracen_trng.c *)
  cm_enabled : bool;                 (* ENABLE.CRYPTOMASTER *)
  rng_enabled : bool;                (* ENABLE.RNG *)
  trace : list hal_event             (* HAL calls so far, newest first *)
}.

Definition now (w : world) : nat := length (trace w).

(** A C function is a state transformer that may run out of fuel: [None] is a
    polling loop that was still waiting when its fuel ran out. *)
Definition M (A : Type) : Type := world -> option (A * world).

Definition ret {A} (a : A) : M A := fun w => Some (a, w).

Definition bind {A B} (m : M A) (k : A -> M B) : M B :=
  fun w => match m w with
           | Some (a, w') => k a w'
           | None => None
           end.

Notation "'let*' x ':=' m 'in' k" := (bind m (fun x => k))
  (at level 10, x name, m at level 100, k at level 200).
Notation "'let*' ' p ':=' m 'in' k" := (bind m (fun x => match x with p => k end))
  (at level 10, p pattern, m at level 100, k at level 200).
Notation "m ';;' k" := (bind m (fun _ => k))
  (at level 100, k at level 200, right associativity).

Definition get_prng : M cracen_prng_status := fun w => Some (prng w, w).

Definition put_prng (p : cracen_prng_status) : M unit :=
  fun w => Some (tt, {| prng := p; conditioning_key_set := conditioning_key_set w;
                        cm_enabled := cm_enabled w; rng_enabled := rng_enabled w;
                        trace := trace w |}).

Definition get_conditioning_key_set : M bool :=
  fun w => Some (conditioning_key_set w, w).

Definition put_conditioning_key_set (b : bool) : M unit :=
  fun w => Some (tt, {| prng := prng w; conditioning_key_set := b;
                        cm_enabled := cm_enabled w; rng_enabled := rng_enabled w;
                        trace := trace w |}).

Definition log (e : hal_event) : M unit :=
  fun w => Some (tt, {| prng := prng w; conditioning_key_set := conditioning_key_set w;
                        cm_enabled := cm_enabled w; rng_enabled := rng_enabled w;
                        trace := e :: trace w |}).

Definition set_enable (m : cracen_module) (b : bool) : M unit :=
  fun w => Some (tt, {| prng := prng w; conditioning_key_set := conditioning_key_set w;
                        cm_enabled := match m with CRYPTOMASTER => b | RNG => cm_enabled w end;
                        rng_enabled := match m with RNG => b | CRYPTOMASTER => rng_enabled w end;
                        trace := trace w |}).

(** A 32-bit register read at the current time. *)
Definition read_reg (f : nat -> Z) : M Z := fun w => Some (f (now w) mod 2 ^ 32, w).

Section Driver.

Variable mdk : cracen_mdk.
Variable hw : cracen_hw.

(** ** The HAL, as the drivers use it *)

Definition nrf_cracen_module_enable (m : cracen_module) : M unit :=
  set_enable m true;; log (ev_module_enable m).

Definition nrf_cracen_module_disable (m : cracen_module) : M unit :=
  set_enable m false;; log (ev_module_disable m).

Definition nrf_cracen_cm_fetch_addr_set (d : list nrf_cracen_cm_dma_desc) : M unit :=
  log (ev_cm_fetch_addr_set d).

Definition nrf_cracen_cm_push_addr_set (d : nrf_cracen_cm_dma_desc) : M unit :=
  log (ev_cm_push_addr_set d).

Definition nrf_cracen_cm_config_indirect_set (fetch push : bool) : M unit :=
  log (ev_cm_config_indirect_set fetch push).

Definition DMB : M unit := log ev_dmb.

Definition nrf_cracen_cm_start : M unit := log ev_cm_start.

Definition nrf_cracen_cm_int_pending_get : M Z :=
  let* v := read_reg (cm_int_pending hw) in
  log (ev_cm_int_pending_get v);; ret v.

Definition nrf_cracen_cm_status_get (mask : Z) : M Z :=
  let* v := read_reg (fun t => cm_status hw t mask) in
  log (ev_cm_status_get mask v);; ret v.

Definition nrf_cracen_cm_softreset : M unit := log ev_cm_softreset.

Definition nrf_cracen_rng_control_set (c : nrf_cracen_rng_control_t) : M unit :=
  log (ev_rng_control_set c).

Definition nrf_cracen_rng_off_timer_set (v : Z) : M unit := log (ev_rng_off_timer_set v).

Definition nrf_cracen_rng_clk_div_set (v : Z) : M unit := log (ev_rng_clk_div_set v).

Definition nrf_cracen_rng_init_wait_val_set (v : Z) : M unit :=
  log (ev_rng_init_wait_val_set v).

Definition nrf_cracen_rng_fsm_state_get : M rng_fsm :=
  fun w => let s := rng_fsm_state hw (now w) in (log (ev_rng_fsm_state_get s);; ret s) w.

Definition nrf_cracen_rng_fifo_level_get : M Z :=
  let* v := read_reg (rng_fifo_level hw) in
  log (ev_rng_fifo_level_get v);; ret v.

Definition nrf_cracen_rng_fifo_get : M Z :=
  let* v := read_reg (rng_fifo hw) in
  log (ev_rng_fifo_get v);; ret v.

Definition nrf_cracen_rng_key_set (i : Z) (k : Z) : M unit := log (ev_rng_key_set i k).

(** ** nrfx_cracen_cm_aes_ecb.c *)

(** returns 0 if done, -1 if busy, and -2 on error *)
Definition cracen_cm_check_done : M Z :=
  let* ret_ := nrf_cracen_cm_int_pending_get in
  if bool_decide (Z.land ret_ (Z.lor (NRF_CRACEN_CM_INT_FETCH_ERROR_MASK mdk)
                                     (NRF_CRACEN_CM_INT_PUSH_ERROR_MASK mdk)) <> 0)
  then ret (-2)
  else
    let* busy := nrf_cracen_cm_status_get
                   (Z.lor (Z.lor (NRF_CRACEN_CM_STATUS_BUSY_FETCH_MASK mdk)
                                 (NRF_CRACEN_CM_STATUS_BUSY_PUSH_MASK mdk))
                          (NRF_CRACEN_CM_STATUS_PUSH_WAITING_MASK mdk)) in
    if bool_decide (busy <> 0) then ret (-1) else ret 0.

(** [do { ret = cracen_cm_check_done(); } while (ret == -1);] *)
Fixpoint cm_wait_done (fuel : nat) : M Z :=
  match fuel with
  | O => fun _ => None
  | S fuel' =>
      let* ret_ := cracen_cm_check_done in
      if bool_decide (ret_ = -1) then cm_wait_done fuel' else ret ret_
  end.

Definition ECB_BLK_SZ : Z := 16.

(** The function returns [ret] and the 16 bytes at [output_p].  The engine
    pushes its block there when the job is done; after a fetch or push error
    the C code says nothing about these bytes (the callers drop them), and the
    embedding leaves them as they were. *)
Definition nrfx_cracen_cm_aes_ecb (fuel : nat)
    (key_p : list Z) (key_size : Z) (input_p output_p : list Z) : M (Z * list Z) :=
  let in_descs :=
    [ {| p_addr := aes_config_value; desc_length := 4;
         dmatag := TAG_AES_CONFIG_REG_CONFIG |};
      {| p_addr := mem key_p; desc_length := key_size;
         dmatag := TAG_AES_CONFIG_REG_KEY |};
      {| p_addr := mem input_p; desc_length := ECB_BLK_SZ;
         dmatag := TAG_LAST_ENGINE_AES_PAYLOAD |} ] in
  let out_desc :=
    {| p_addr := mem output_p; desc_length := ECB_BLK_SZ; dmatag := TAG_LAST |} in
  nrf_cracen_module_enable CRYPTOMASTER;;
  nrf_cracen_cm_fetch_addr_set in_descs;;
  nrf_cracen_cm_push_addr_set out_desc;;
  nrf_cracen_cm_config_indirect_set true true;;
  DMB;;
  nrf_cracen_cm_start;;
  let* ret_ := cm_wait_done fuel in
  nrf_cracen_cm_softreset;;
  nrf_cracen_module_disable CRYPTOMASTER;;
  ret (ret_,
       if bool_decide (ret_ = 0)
       then cm_block_encrypt hw (take (Z.to_nat key_size) key_p)
                                (take (Z.to_nat ECB_BLK_SZ) input_p)
       else output_p).

(** ** nrfx_cracen_trng.c *)

Definition TRNG_CLK_DIV : Z := 0.
Definition TRNG_OFF_TIMER_VAL : Z := 0.
Definition TRNG_INIT_WAIT_VAL : Z := 512.
Definition TRNG_NUMBER_128BIT_BLOCKS : Z := 4.
Definition CONDITIONING_KEY_SIZE : Z := 4.

Definition OK : Z := 0.
Definition HW_PROCESSING : Z := -1.
Definition ERR_TOO_BIG : Z := -2.
Definition TRNG_RESET_NEEDED : Z := -5.

Definition cracen_trng_init : M unit :=
  put_conditioning_key_set false;;
  nrf_cracen_rng_control_set
    {| soft_reset := true; number_128_blocks := 0; enable := false |};;
  nrf_cracen_rng_off_timer_set TRNG_OFF_TIMER_VAL;;
  nrf_cracen_rng_clk_div_set TRNG_CLK_DIV;;
  nrf_cracen_rng_init_wait_val_set TRNG_INIT_WAIT_VAL;;
  nrf_cracen_rng_control_set
    {| soft_reset := false; number_128_blocks := TRNG_NUMBER_128BIT_BLOCKS;
       enable := true |}.

(** [for (size_t i = 0; i < CONDITIONING_KEY_SIZE; i++)]: [n] iterations are
    left and the next index is [i]. *)
Fixpoint conditioning_key_loop (n : nat) (i : Z) : M unit :=
  match n with
  | O => ret tt
  | S n' =>
      let* k := nrf_cracen_rng_fifo_get in
      nrf_cracen_rng_key_set i k;;
      conditioning_key_loop n' (i + 1)
  end.

Definition cracen_trng_setup_conditioning_key : M Z :=
  let* level := nrf_cracen_rng_fifo_level_get in
  if bool_decide (level < CONDITIONING_KEY_SIZE) then ret HW_PROCESSING
  else
    conditioning_key_loop (Z.to_nat CONDITIONING_KEY_SIZE) 0;;
    put_conditioning_key_set true;;
    ret OK.

(** [for (int i = 0; i < 4 && size; i++, size--) { *dst = (char)(data & 0xFF);
    dst++; data >>= 8; }]: [n] is [4 - i], [off] is the position of [dst] in
    the caller's buffer.  Returns the buffer, [dst] and [size]. *)
Fixpoint trng_word_loop (n : nat) (data : Z) (dst : list Z) (off : nat) (size : Z)
  : list Z * nat * Z :=
  match n with
  | O => (dst, off, size)
  | S n' =>
      if bool_decide (size <> 0)
      then trng_word_loop n' (Z.shiftr data 8)
                          (<[off := Z.land data 255]> dst) (S off) (size - 1)
      else (dst, off, size)
  end.

(** [while (size) { data = fifo_get(); for ... }]: [n] bounds the number of
    iterations that are left (each one takes at least one byte off [size]). *)
Fixpoint trng_drain_loop (n : nat) (dst : list Z) (off : nat) (size : Z) : M (list Z) :=
  match n with
  | O => ret dst
  | S n' =>
      if bool_decide (size <> 0)
      then
        let* data := nrf_cracen_rng_fifo_get in
        let '(dst, off, size) := trng_word_loop 4 data dst off size in
        trng_drain_loop n' dst off size
      else ret dst
  end.

(** [cracen_trng_get] after its [switch]: program the conditioning key if
    that is still to do, then check the FIFO level and drain. *)
Definition cracen_trng_get_data (dst : list Z) (size : Z) : M (Z * list Z) :=
  let* set := get_conditioning_key_set in
  let* status :=
    (if negb set then cracen_trng_setup_conditioning_key else ret OK) in
  if bool_decide (status <> OK) then ret (status, dst)
  else
    let* level := nrf_cracen_rng_fifo_level_get in
    if bool_decide (size > (level * 4) mod 2 ^ 32) then ret (HW_PROCESSING, dst)
    else
      let* dst := trng_drain_loop (Z.to_nat size) dst 0 size in
      ret (OK, dst).

(** Returns the status and the caller's buffer.  The [switch] returns for
    ERROR and RESET; STARTUP shares the [default] label, which breaks. *)
Definition cracen_trng_get (dst : list Z) (size : Z) : M (Z * list Z) :=
  let* st := nrf_cracen_rng_fsm_state_get in
  match st with
  | STATE_ERROR => ret (TRNG_RESET_NEEDED, dst)
  | STATE_RESET => ret (HW_PROCESSING, dst)
  | STATE_STARTUP | STATE_other _ => cracen_trng_get_data dst size
  end.

(** [while (true) { if (ret == TRNG_RESET_NEEDED) cracen_trng_init();
    ret = cracen_trng_get(p_buf, size); if (ret == OK) break; }] *)
Fixpoint rng_get_entropy_loop (fuel : nat) (ret_ : Z) (p_buf : list Z) (size : Z)
  : M (list Z) :=
  match fuel with
  | O => fun _ => None
  | S fuel' =>
      (if bool_decide (ret_ = TRNG_RESET_NEEDED) then cracen_trng_init else ret tt);;
      let* '(ret_, p_buf) := cracen_trng_get p_buf size in
      if bool_decide (ret_ = OK) then ret p_buf
      else rng_get_entropy_loop fuel' ret_ p_buf size
  end.

(** The bound is computed in [unsigned long]. *)
Definition rng_max_size : Z :=
  ((CRACENCORE_RNGCONTROL_FIFOTHRESHOLD_ResetValue mdk + 1) * 16) mod 2 ^ 32.

Definition nrfx_cracen_rng_get_entropy (fuel : nat) (p_buf : list Z) (size : Z)
  : M (Z * list Z) :=
  if bool_decide (size > rng_max_size) then ret (ERR_TOO_BIG, p_buf)
  else
    nrf_cracen_module_enable RNG;;
    let* p_buf := rng_get_entropy_loop fuel TRNG_RESET_NEEDED p_buf size in
    nrf_cracen_module_disable RNG;;
    ret (OK, p_buf).

(** ** nrfx_cracen_ctr_drbg.c *)

Definition set_V (v : list Z) : M unit :=
  let* p := get_prng in
  put_prng {| key := key p; V := v; reseed_counter := reseed_counter p;
              initialized := initialized p |}.

Definition set_key (k : list Z) : M unit :=
  let* p := get_prng in
  put_prng {| key := k; V := V p; reseed_counter := reseed_counter p;
              initialized := initialized p |}.

Definition set_reseed_counter (c : Z) : M unit :=
  let* p := get_prng in
  put_prng {| key := key p; V := V p; reseed_counter := c;
              initialized := initialized p |}.

Definition set_initialized (b : bool) : M unit :=
  let* p := get_prng in
  put_prng {| key := key p; V := V p; reseed_counter := reseed_counter p;
              initialized := b |}.

(** [be_incr(prng.V, AES_BLK_SZ); r = nrfx_cracen_cm_aes_ecb(prng.key,
    sizeof(prng.key), prng.V, out);], the two statements both loops of the
    driver start with. *)
Definition incr_and_encrypt (fuel : nat) (out : list Z) : M (Z * list Z) :=
  let* p := get_prng in
  set_V (be_incr (V p) (Z.to_nat AES_BLK_SZ));;
  let* p := get_prng in
  nrfx_cracen_cm_aes_ecb fuel (key p) KEY_SIZE (V p) out.

(** [while (temp_length < sizeof(temp))]: [n] bounds the iterations that are
    left.  Returns [r] and [temp]. *)
Fixpoint ctr_drbg_update_loop (n : nat) (fuel : nat) (temp : list Z) (temp_length : Z)
  : M (Z * list Z) :=
  match n with
  | O => ret (0, temp)
  | S n' =>
      if bool_decide (temp_length < ENTROPY_SIZE)
      then
        let off := Z.to_nat temp_length in
        let* '(r, out) :=
          incr_and_encrypt fuel (take (Z.to_nat AES_BLK_SZ) (drop off temp)) in
        if bool_decide (r <> 0) then ret (-1, temp)
        else ctr_drbg_update_loop n' fuel (list_inserts off out temp)
                                  (temp_length + AES_BLK_SZ)
      else ret (0, temp)
  end.

(** [data] is [None] for a NULL pointer.  [temp] is an uninitialised array
    that the loop fills before it is read. *)
Definition ctr_drbg_update (fuel : nat) (data : option (list Z)) : M Z :=
  let* '(r, temp) :=
    ctr_drbg_update_loop (Z.to_nat (ENTROPY_SIZE / AES_BLK_SZ)) fuel
                         (replicate (Z.to_nat ENTROPY_SIZE) 0) 0 in
  if bool_decide (r <> 0) then ret (-1)
  else
    let temp := match data with
                | Some d => xor_array temp d ENTROPY_SIZE
                | None => temp
                end in
    set_key (take (Z.to_nat KEY_SIZE) temp);;
    set_V (take (Z.to_nat AES_BLK_SZ) (drop (Z.to_nat KEY_SIZE) temp));;
    ret 0.

Definition cracen_ctr_drbg_reseed (fuel : nat) : M Z :=
  let* '(r, entropy) :=
    nrfx_cracen_rng_get_entropy fuel (replicate (Z.to_nat ENTROPY_SIZE) 0)
                                ENTROPY_SIZE in
  if bool_decide (r <> 0) then ret (-1)
  else
    let* r := ctr_drbg_update fuel (Some entropy) in
    if bool_decide (r <> 0) then ret (-1)
    else
      set_reseed_counter 1;;
      ret 0.

(** [memset(&prng, 0, sizeof(prng))] *)
Definition prng_zero : cracen_prng_status :=
  {| key := replicate (Z.to_nat KEY_SIZE) 0;
     V := replicate (Z.to_nat AES_BLK_SZ) 0;
     reseed_counter := 0;
     initialized := false |}.

Definition nrfx_cracen_ctr_drbg_init (fuel : nat) : M Z :=
  put_prng prng_zero;;
  let* r := cracen_ctr_drbg_reseed fuel in
  if bool_decide (r <> 0) then ret r
  else
    set_initialized true;;
    ret 0.

(** [while (size > 0)]: [n] bounds the iterations that are left, [off] is how
    far [p_buf] has moved.  Returns [r] and the caller's buffer. *)
Fixpoint get_random_loop (n : nat) (fuel : nat) (p_buf : list Z) (off : nat) (size : Z)
  : M (Z * list Z) :=
  match n with
  | O => ret (0, p_buf)
  | S n' =>
      if bool_decide (size > 0)
      then
        let cur_len := if bool_decide (size < AES_BLK_SZ) then size else AES_BLK_SZ in
        let* '(r, temp) := incr_and_encrypt fuel (replicate (Z.to_nat AES_BLK_SZ) 0) in
        if bool_decide (r <> 0) then ret (-1, p_buf)
        else
          get_random_loop n' fuel
            (list_inserts off (take (Z.to_nat cur_len) temp) p_buf)
            (off + Z.to_nat cur_len)%nat (size - cur_len)
      else ret (0, p_buf)
  end.

(** [nrfx_cracen_ctr_drbg_get_random] from its output loop on: the loop, the
    update without data and the step of the reseed counter.  [p_buf] is [None]
    for a NULL pointer. *)
Definition get_random_generate (fuel : nat) (p_buf : option (list Z)) (size : Z)
  : M (Z * option (list Z)) :=
  let* '(r, buf) :=
    get_random_loop (Z.to_nat size) fuel (default [] p_buf) 0 size in
  let p_buf := match p_buf with Some _ => Some buf | None => None end in
  if bool_decide (r <> 0) then ret (-1, p_buf)
  else
    let* r := ctr_drbg_update fuel None in
    if bool_decide (r <> 0) then ret (-1, p_buf)
    else
      let* p := get_prng in
      set_reseed_counter ((reseed_counter p + 1) mod 2 ^ 64);;
      ret (0, p_buf).

(** [p_buf] is [None] for a NULL pointer, and otherwise the caller's buffer,
    which has room for [size] bytes.  [size] is a [size_t].  Returns the
    status and the caller's buffer. *)
Definition nrfx_cracen_ctr_drbg_get_random (fuel : nat) (p_buf : option (list Z))
    (size : Z) : M (Z * option (list Z)) :=
  if bool_decide (size > 0) && bool_decide (p_buf = None) then ret (-2, p_buf)
  else if bool_decide (size > MAX_BYTES_PER_REQUEST) then ret (-2, p_buf)
  else
    let* p := get_prng in
    let* r := (if negb (initialized p) then nrfx_cracen_ctr_drbg_init fuel else ret 0) in
    if bool_decide (r <> 0) then ret (-1, p_buf)
    else
      let* p := get_prng in
      let* r := (if bool_decide (reseed_counter p >= RESEED_INTERVAL)
                 then cracen_ctr_drbg_reseed fuel else ret 0) in
      if bool_decide (r <> 0) then ret (-1, p_buf)
      else get_random_generate fuel p_buf size.

(** ** What the peripheral does, as seen from the drivers *)

Definition cm_error_mask : Z :=
  Z.lor (NRF_CRACEN_CM_INT_FETCH_ERROR_MASK mdk) (NRF_CRACEN_CM_INT_PUSH_ERROR_MASK mdk).

Definition cm_busy_mask : Z :=
  Z.lor (Z.lor (NRF_CRACEN_CM_STATUS_BUSY_FETCH_MASK mdk)
               (NRF_CRACEN_CM_STATUS_BUSY_PUSH_MASK mdk))
        (NRF_CRACEN_CM_STATUS_PUSH_WAITING_MASK mdk).

(** What [cracen_cm_check_done] answers when it is called at time [t]. *)
Definition cm_poll (t : nat) : Z :=
  if bool_decide (Z.land (cm_int_pending hw t mod 2 ^ 32) cm_error_mask <> 0) then -2
  else if bool_decide (cm_status hw (S t) cm_busy_mask mod 2 ^ 32 <> 0) then -1
  else 0.

(** Polled from time [t] on, the engine is busy [k] times and then answers
    [r]. *)
Definition cm_answers_at (t k : nat) (r : Z) : Prop :=
  (forall j, (j < k)%nat -> cm_poll (t + 2 * j) = -1) /\ cm_poll (t + 2 * k) = r /\ r <> -1.

(** The engine completes every job. *)
Definition cm_completes : Prop := forall t, exists k, cm_answers_at t k 0.

(** The engine answers every job, with done or with an error. *)
Definition cm_answers : Prop := forall t, exists k r, cm_answers_at t k r.

(** What the engine pushes is a block of 16 bytes. *)
Definition cm_pushes_blocks : Prop :=
  forall k x, length (cm_block_encrypt hw k x) = 16%nat /\ bytes (cm_block_encrypt hw k x).

(** From time [T] on the TRNG is past its start-up and its FIFO holds the
    conditioning key's four words and [size] bytes. *)
Definition rng_ready_from (size : Z) (T : nat) : Prop :=
  forall t, (T <= t)%nat ->
    rng_fsm_state hw t <> STATE_ERROR /\ rng_fsm_state hw t <> STATE_RESET
    /\ 4 <= rng_fifo_level hw t < 2 ^ 30 /\ size <= 4 * rng_fifo_level hw t.

(** The events of one poll sequence, newest first, and its answer. *)
Inductive cm_polls : Z -> list hal_event -> Prop :=
| cm_polls_error v :
    Z.land v cm_error_mask <> 0 ->
    cm_polls (-2) [ev_cm_int_pending_get v]
| cm_polls_done v :
    Z.land v cm_error_mask = 0 ->
    cm_polls 0 [ev_cm_status_get cm_busy_mask 0; ev_cm_int_pending_get v]
| cm_polls_busy v b r evs :
    Z.land v cm_error_mask = 0 -> b <> 0 ->
    cm_polls r evs ->
    cm_polls r (evs ++ [ev_cm_status_get cm_busy_mask b; ev_cm_int_pending_get v]).

(** The newest CryptoMaster poll in the trace reported a fetch or push error,
    and the driver has reset the core and disabled the module since. *)
Definition cm_job_failed (w : world) : Prop :=
  exists v rest,
    trace w = ev_module_disable CRYPTOMASTER :: ev_cm_softreset
              :: ev_cm_int_pending_get v :: rest
    /\ Z.land v cm_error_mask <> 0.

End Driver.

(** ** Reading a trace *)

(** The events from [w] to [w']. *)
Definition events_since (w w' : world) (evs : list hal_event) : Prop :=
  trace w' = evs ++ trace w.

Definition is_rng_enable (e : hal_event) : bool :=
  match e with ev_module_enable RNG => true | _ => false end.

Definition is_cm_start (e : hal_event) : bool :=
  match e with ev_cm_start => true | _ => false end.

Definition is_rng_event (e : hal_event) : bool :=
  match e with
  | ev_module_enable RNG | ev_module_disable RNG
  | ev_rng_control_set _ | ev_rng_off_timer_set _ | ev_rng_clk_div_set _
  | ev_rng_init_wait_val_set _ | ev_rng_fsm_state_get _ | ev_rng_fifo_level_get _
  | ev_rng_fifo_get _ | ev_rng_key_set _ _ => true
  | _ => false
  end.

(** Calls of [nrfx_cracen_rng_get_entropy] that engaged the TRNG. *)
Definition entropy_invocations (evs : list hal_event) : nat :=
  length (List.filter is_rng_enable evs).

(** AES jobs started. *)
Definition cm_jobs (evs : list hal_event) : nat :=
  length (List.filter is_cm_start evs).

(** The input blocks of the AES jobs in a trace, newest first. *)
Fixpoint cm_inputs (evs : list hal_event) : list (list Z) :=
  match evs with
  | [] => []
  | ev_cm_fetch_addr_set [_; _; {| p_addr := mem x |}] :: evs' => x :: cm_inputs evs'
  | _ :: evs' => cm_inputs evs'
  end.

(** The FIFO words read in a trace, newest first. *)
Fixpoint fifo_words (evs : list hal_event) : list Z :=
  match evs with
  | [] => []
  | ev_rng_fifo_get v :: evs' => v :: fifo_words evs'
  | _ :: evs' => fifo_words evs'
  end.

(** The conditioning key words written in a trace, newest first. *)
Fixpoint key_words_set (evs : list hal_event) : list (Z * Z) :=
  match evs with
  | [] => []
  | ev_rng_key_set i k :: evs' => (i, k) :: key_words_set evs'
  | _ :: evs' => key_words_set evs'
  end.

(** The four bytes of a FIFO word, least significant first. *)
Definition le_bytes (w : Z) : list Z :=
  [Z.land w 255; Z.land (Z.shiftr w 8) 255;
   Z.land (Z.shiftr w 16) 255; Z.land (Z.shiftr w 24) 255].

(** ** The reference: CTR_DRBG as the specification words it

    AES-256, no derivation function, no personalization string; the counter
    block is a 128-bit integer. *)
Module Reference.

Section Reference.

Variable Block_Encrypt : list Z -> list Z -> list Z.

Record state := {
  Key : list Z;
  Ctr : Z;
  Reseed_counter : Z
}.

(** [n] times: increment the counter (wrapping at [2^128]), encrypt it under
    the key. *)
Fixpoint blocks (n : nat) (K : list Z) (v : Z) : list Z :=
  match n with
  | O => []
  | S n' =>
      let v' := (v + 1) mod 2 ^ 128 in
      Block_Encrypt K (be_bytes 16 v') ++ blocks n' K v'
  end.

(** 48 bytes of cipher output, XORed with the provided data if there is any;
    the first 32 bytes are the new key and the next 16 the new counter
    block. *)
Definition update (provided : option (list Z)) (K : list Z) (v : Z) : list Z * Z :=
  let temp := blocks 3 K v in
  let temp := match provided with
              | Some d => zip_with Z.lxor temp d
              | None => temp
              end in
  (take 32 temp, be_value (take 16 (drop 32 temp))).

(** Zero all state, update with the entropy, set the reseed counter to 1. *)
Definition instantiate (entropy : list Z) : state :=
  let '(K, v) := update (Some entropy) (replicate 32 0) 0 in
  {| Key := K; Ctr := v; Reseed_counter := 1 |}.

Definition reseed (s : state) (entropy : list Z) : state :=
  let '(K, v) := update (Some entropy) (Key s) (Ctr s) in
  {| Key := K; Ctr := v; Reseed_counter := 1 |}.

(** Number of 16-byte chunks for [size] bytes. *)
Definition chunks (size : Z) : nat := Z.to_nat ((size + 15) / 16).

(** Output in 16-byte chunks, cut at [size] bytes; then one update without
    data and one more on the reseed counter. *)
Definition generate (s : state) (size : Z) : list Z * state :=
  let n := chunks size in
  let out := take (Z.to_nat size) (blocks n (Key s) (Ctr s)) in
  let '(K, v) := update None (Key s) ((Ctr s + Z.of_nat n) mod 2 ^ 128) in
  (out, {| Key := K; Ctr := v; Reseed_counter := Reseed_counter s + 1 |}).

End Reference.

End Reference.

(** The driver's state holds this reference state. *)
Definition holds (p : cracen_prng_status) (s : Reference.state) : Prop :=
  key p = Reference.Key s
  /\ V p = be_bytes 16 (Reference.Ctr s)
  /\ reseed_counter p = Reference.Reseed_counter s.

(** ** The cipher of the CryptoMaster's AES engine

    AES-256 as FIPS 197 defines it, on byte lists.  The drivers never compute
    it: it is what a working engine pushes, and the worked examples below run
    the drivers against it. *)

Module AES256.

Definition xtime (b : Z) : Z :=
  Z.land (Z.lxor (Z.shiftl b 1) (if Z.testbit b 7 then 27 else 0)) 255.

(** Multiplication in GF(2^8), [n] bits of [b] at a time. *)
Fixpoint gmul_bits (n : nat) (a b : Z) : Z :=
  match n with
  | O => 0
  | S n' => Z.lxor (if Z.testbit b 0 then a else 0)
                   (gmul_bits n' (xtime a) (Z.shiftr b 1))
  end.

Definition gmul (a b : Z) : Z := gmul_bits 8 a b.

(** [x^254], the inverse of [x] (and 0 for 0). *)
Definition ginv (x : Z) : Z :=
  let x2 := gmul x x in
  let x4 := gmul x2 x2 in
  let x8 := gmul x4 x4 in
  let x16 := gmul x8 x8 in
  let x32 := gmul x16 x16 in
  let x64 := gmul x32 x32 in
  let x128 := gmul x64 x64 in
  gmul x128 (gmul x64 (gmul x32 (gmul x16 (gmul x8 (gmul x4 x2))))).

Definition rotl8 (x : Z) (n : Z) : Z :=
  Z.land (Z.lor (Z.shiftl x n) (Z.shiftr x (8 - n))) 255.

Definition sbox_of (x : Z) : Z :=
  let i := ginv x in
  Z.lxor (Z.lxor (Z.lxor i (rotl8 i 1)) (Z.lxor (rotl8 i 2) (rotl8 i 3)))
         (Z.lxor (rotl8 i 4) 99).

Definition sbox_table : list Z :=
  Eval vm_compute in map (fun i => sbox_of (Z.of_nat i)) (seq 0 256).

Definition sbox (x : Z) : Z := nth (Z.to_nat (Z.land x 255)) sbox_table 0.

Definition xor_bytes (a b : list Z) : list Z := zip_with Z.lxor a b.

(** Round constants [Rcon[1..7]]. *)
Definition rcon (i : nat) : Z := nth i [0; 1; 2; 4; 8; 16; 32; 64] 0.

(** Key expansion for [Nk = 8]: [w] holds the words so far, newest first. *)
Fixpoint expand (n : nat) (i : nat) (w : list (list Z)) : list (list Z) :=
  match n with
  | O => w
  | S n' =>
      let prev := nth 0 w [] in
      let t := if (i mod 8 =? 0)%nat
               then xor_bytes (map sbox (drop 1 prev ++ take 1 prev))
                              [rcon (i / 8); 0; 0; 0]
               else if (i mod 8 =? 4)%nat then map sbox prev
               else prev in
      expand n' (S i) (xor_bytes (nth 7 w []) t :: w)
  end.

Definition key_words (key : list Z) : list (list Z) :=
  map (fun i => map (fun j => Z.land (nth (4 * i + j) key 0) 255) (seq 0 4)) (seq 0 8).

Definition key_schedule (key : list Z) : list Z :=
  concat (rev (expand 52 8 (rev (key_words key)))).

Definition round_key (ks : list Z) (r : nat) : list Z := take 16 (drop (16 * r) ks).

Definition add_round_key (s rk : list Z) : list Z :=
  map (fun i => Z.land (Z.lxor (nth i s 0) (nth i rk 0)) 255) (seq 0 16).

Definition sub_bytes (s : list Z) : list Z := map sbox s.

Definition shift_rows (s : list Z) : list Z :=
  map (fun i => nth (4 * ((i / 4 + i mod 4) mod 4) + i mod 4)%nat s 0) (seq 0 16).

Definition mix_column (c : list Z) : list Z :=
  let a := fun i => nth i c 0 in
  [ Z.lxor (Z.lxor (gmul 2 (a 0%nat)) (gmul 3 (a 1%nat))) (Z.lxor (a 2%nat) (a 3%nat));
    Z.lxor (Z.lxor (a 0%nat) (gmul 2 (a 1%nat))) (Z.lxor (gmul 3 (a 2%nat)) (a 3%nat));
    Z.lxor (Z.lxor (a 0%nat) (a 1%nat)) (Z.lxor (gmul 2 (a 2%nat)) (gmul 3 (a 3%nat)));
    Z.lxor (Z.lxor (gmul 3 (a 0%nat)) (a 1%nat)) (Z.lxor (a 2%nat) (gmul 2 (a 3%nat))) ].

Definition mix_columns (s : list Z) : list Z :=
  concat (map (fun c => mix_column (take 4 (drop (4 * c) s))) (seq 0 4)).

Fixpoint rounds (n : nat) (r : nat) (ks s : list Z) : list Z :=
  match n with
  | O => s
  | S n' =>
      rounds n' (S r) ks
             (add_round_key (mix_columns (shift_rows (sub_bytes s))) (round_key ks r))
  end.

Definition encrypt (key block : list Z) : list Z :=
  let ks := key_schedule key in
  let s := add_round_key block (round_key ks 0) in
  let s := rounds 13 1 ks s in
  add_round_key (shift_rows (sub_bytes s)) (round_key ks 14).

End AES256.

(** ** Worked-example peripherals *)

(** An assignment of the constants the drivers take from the MDK. *)
Definition mdk_example : cracen_mdk :=
  {| NRF_CRACEN_CM_INT_FETCH_ERROR_MASK := 4;
     NRF_CRACEN_CM_INT_PUSH_ERROR_MASK := 32;
     NRF_CRACEN_CM_STATUS_BUSY_FETCH_MASK := 1;
     NRF_CRACEN_CM_STATUS_BUSY_PUSH_MASK := 2;
     NRF_CRACEN_CM_STATUS_PUSH_WAITING_MASK := 32;
     CRACENCORE_RNGCONTROL_FIFOTHRESHOLD_ResetValue := 3 |}.

(** A peripheral that is always ready: the AES engine is done at the first
    poll, the TRNG is past its start-up with a full FIFO, and the word read at
    time [t] is [t] repeated in its four bytes. *)
Definition hw_ready : cracen_hw :=
  {| cm_block_encrypt := AES256.encrypt;
     cm_int_pending := fun _ => 0;
     cm_status := fun _ _ => 0;
     rng_fsm_state := fun _ => STATE_other 2;
     rng_fifo_level := fun _ => 16;
     rng_fifo := fun t => Z.of_nat t * 16843009 |}.

(** The same, with an AES engine that reports a fetch error at every poll. *)
Definition hw_fetch_error : cracen_hw :=
  {| cm_block_encrypt := AES256.encrypt;
     cm_int_pending := fun _ => 4;
     cm_status := fun _ _ => 0;
     rng_fsm_state := fun _ => STATE_other 2;
     rng_fifo_level := fun _ => 16;
     rng_fifo := fun t => Z.of_nat t * 16843009 |}.


(** The program before its first call. *)
Definition world0 : world :=
  {| prng := prng_zero; conditioning_key_set := false;
     cm_enabled := false; rng_enabled := false; trace := [] |}.

(** ** Auxiliary definitions for the proofs *)

(** The world after more HAL calls. *)
Definition emit (evs : list hal_event) (w : world) : world :=
  {| prng := prng w; conditioning_key_set := conditioning_key_set w;
     cm_enabled := cm_enabled w; rng_enabled := rng_enabled w;
     trace := evs ++ trace w |}.

(** The HAL calls of [cracen_cm_check_done] at time [t], newest first. *)
Definition cm_poll_events (mdk : cracen_mdk) (hw : cracen_hw) (t : nat) : list hal_event :=
  let v := cm_int_pending hw t mod 2 ^ 32 in
  if bool_decide (Z.land v (cm_error_mask mdk) <> 0) then [ev_cm_int_pending_get v]
  else [ev_cm_status_get (cm_busy_mask mdk) (cm_status hw (S t) (cm_busy_mask mdk) mod 2 ^ 32);
        ev_cm_int_pending_get v].

(** The HAL calls of [nrfx_cracen_cm_aes_ecb] before it polls, newest first. *)
Definition cm_job_setup (key_p : list Z) (key_size : Z) (input_p output_p : list Z)
  : list hal_event :=
  [ ev_cm_start; ev_dmb; ev_cm_config_indirect_set true true;
    ev_cm_push_addr_set
      {| p_addr := mem output_p; desc_length := ECB_BLK_SZ; dmatag := TAG_LAST |};
    ev_cm_fetch_addr_set
      [ {| p_addr := aes_config_value; desc_length := 4;
           dmatag := TAG_AES_CONFIG_REG_CONFIG |};
        {| p_addr := mem key_p; desc_length := key_size;
           dmatag := TAG_AES_CONFIG_REG_KEY |};
        {| p_addr := mem input_p; desc_length := ECB_BLK_SZ;
           dmatag := TAG_LAST_ENGINE_AES_PAYLOAD |} ];
    ev_module_enable CRYPTOMASTER ].

Definition set_cm_enabled (b : bool) (w : world) : world :=
  {| prng := prng w; conditioning_key_set := conditioning_key_set w;
     cm_enabled := b; rng_enabled := rng_enabled w; trace := trace w |}.

Definition with_prng (p : cracen_prng_status) (w : world) : world :=
  {| prng := p; conditioning_key_set := conditioning_key_set w;
     cm_enabled := cm_enabled w; rng_enabled := rng_enabled w; trace := trace w |}.

Definition with_V (v : list Z) (p : cracen_prng_status) : cracen_prng_status :=
  {| key := key p; V := v; reseed_counter := reseed_counter p;
     initialized := initialized p |}.

(** [be_incr], [k] times. *)
Fixpoint be_incr_n (k : nat) (v : list Z) : list Z :=
  match k with
  | O => v
  | S k' => be_incr_n k' (be_incr v (Z.to_nat AES_BLK_SZ))
  end.

(** The events of one call of [nrfx_cracen_cm_aes_ecb] that answered [r],
    newest first. *)
Definition aes_job (mdk : cracen_mdk) (r : Z) (evs : list hal_event) : Prop :=
  exists polls key_p key_size input_p output_p,
    cm_polls mdk r polls
    /\ evs = ev_module_disable CRYPTOMASTER :: ev_cm_softreset
             :: polls ++ cm_job_setup key_p key_size input_p output_p.

(** The events of [k] calls in a row, the last of which answered [r] and the
    others 0. *)
Inductive aes_jobs (mdk : cracen_mdk) : nat -> Z -> list hal_event -> Prop :=
| aes_jobs_O : aes_jobs mdk 0 0 []
| aes_jobs_S k r evs evs0 :
    aes_jobs mdk k 0 evs0 -> aes_job mdk r evs -> aes_jobs mdk (S k) r (evs ++ evs0).

(** [m] returns [a] in the world [w'] once it has fuel enough. *)
Definition returns {A} (m : nat -> M A) (w : world) (a : A) (w' : world) : Prop :=
  exists f0, forall f, (f0 <= f)%nat -> m f w = Some (a, w').

(** The blocks the driver gets from [n] calls of [incr_and_encrypt]. *)
Fixpoint drbg_blocks (hw : cracen_hw) (n : nat) (K v : list Z) : list Z :=
  match n with
  | O => []
  | S n' =>
      let v' := be_incr v (Z.to_nat AES_BLK_SZ) in
      cm_block_encrypt hw (take (Z.to_nat KEY_SIZE) K) (take (Z.to_nat AES_BLK_SZ) v')
      ++ drbg_blocks hw n' K v'
  end.

(** What one call of the AES driver does to the world. *)
Definition after_aes (key_p : list Z) (key_size : Z) (input_p output_p : list Z)
    (polls : list hal_event) (w : world) : world :=
  set_cm_enabled false
    (emit (ev_module_disable CRYPTOMASTER :: ev_cm_softreset
           :: polls ++ cm_job_setup key_p key_size input_p output_p) w).

(** [temp] at the end of a successful [ctr_drbg_update]. *)
Definition drbg_update_temp (hw : cracen_hw) (data : option (list Z)) (K v : list Z)
  : list Z :=
  let temp := drbg_blocks hw 3 K v in
  match data with
  | Some d => xor_array temp d ENTROPY_SIZE
  | None => temp
  end.

(** The HAL calls of [cracen_trng_init], newest first. *)
Definition trng_init_events : list hal_event :=
  [ ev_rng_control_set
      {| soft_reset := false; number_128_blocks := TRNG_NUMBER_128BIT_BLOCKS;
         enable := true |};
    ev_rng_init_wait_val_set TRNG_INIT_WAIT_VAL;
    ev_rng_clk_div_set TRNG_CLK_DIV;
    ev_rng_off_timer_set TRNG_OFF_TIMER_VAL;
    ev_rng_control_set {| soft_reset := true; number_128_blocks := 0; enable := false |} ].

Definition with_conditioning_key_set (b : bool) (w : world) : world :=
  {| prng := prng w; conditioning_key_set := b;
     cm_enabled := cm_enabled w; rng_enabled := rng_enabled w; trace := trace w |}.

Definition set_rng_enabled (b : bool) (w : world) : world :=
  {| prng := prng w; conditioning_key_set := conditioning_key_set w;
     cm_enabled := cm_enabled w; rng_enabled := b; trace := trace w |}.

(** The HAL calls that program the conditioning key [k0 k1 k2 k3], newest
    first. *)
Definition key_events (k0 k1 k2 k3 : Z) : list hal_event :=
  [ ev_rng_key_set 3 k3; ev_rng_fifo_get k3; ev_rng_key_set 2 k2; ev_rng_fifo_get k2;
    ev_rng_key_set 1 k1; ev_rng_fifo_get k1; ev_rng_key_set 0 k0; ev_rng_fifo_get k0 ].

(** The HAL calls that drain [words] (oldest first) from the FIFO, newest
    first. *)
Definition drain_events (words : list Z) : list hal_event :=
  map ev_rng_fifo_get (rev words).

Definition is_soft_reset (e : hal_event) : bool :=
  match e with
  | ev_rng_control_set c => soft_reset c
  | _ => false
  end.

(** The events since the TRNG was last soft-reset, newest first. *)
Fixpoint since_reset (evs : list hal_event) : list hal_event :=
  match evs with
  | [] => []
  | e :: evs' => if is_soft_reset e then [] else e :: since_reset evs'
  end.

(** Number of FIFO words for [size] bytes. *)
Definition words_for (size : Z) : nat := Z.to_nat ((size + 3) / 4).

(** The bytes the inner loop of [cracen_trng_get] takes from a word in [n]
    iterations. *)
Fixpoint word_bytes (n : nat) (data : Z) : list Z :=
  match n with
  | O => []
  | S n' => Z.land data 255 :: word_bytes n' (Z.shiftr data 8)
  end.

(** What [cracen_trng_get dst size] does when it is called at time [t] with
    [conditioning_key_set = set]: its status, the caller's buffer, its HAL
    calls (newest first) and [conditioning_key_set] afterwards. *)
Inductive trng_get_outcome (hw : cracen_hw) (size : Z) (dst : list Z) (t : nat) (set : bool)
  : Z -> list Z -> list hal_event -> bool -> Prop :=
| get_error :
    rng_fsm_state hw t = STATE_ERROR ->
    trng_get_outcome hw size dst t set
      TRNG_RESET_NEEDED dst [ev_rng_fsm_state_get STATE_ERROR] set
| get_reset :
    rng_fsm_state hw t = STATE_RESET ->
    trng_get_outcome hw size dst t set
      HW_PROCESSING dst [ev_rng_fsm_state_get STATE_RESET] set
| get_no_key st level :
    rng_fsm_state hw t = st -> st <> STATE_ERROR -> st <> STATE_RESET ->
    set = false ->
    level = rng_fifo_level hw (1 + t) mod 2 ^ 32 -> level < CONDITIONING_KEY_SIZE ->
    trng_get_outcome hw size dst t set
      HW_PROCESSING dst [ev_rng_fifo_level_get level; ev_rng_fsm_state_get st] false
| get_key_then_wait st level k0 k1 k2 k3 level' :
    rng_fsm_state hw t = st -> st <> STATE_ERROR -> st <> STATE_RESET ->
    set = false ->
    level = rng_fifo_level hw (1 + t) mod 2 ^ 32 -> CONDITIONING_KEY_SIZE <= level ->
    level' = rng_fifo_level hw (10 + t) mod 2 ^ 32 -> size > (level' * 4) mod 2 ^ 32 ->
    trng_get_outcome hw size dst t set
      HW_PROCESSING dst
      (ev_rng_fifo_level_get level' :: key_events k0 k1 k2 k3
       ++ [ev_rng_fifo_level_get level; ev_rng_fsm_state_get st]) true
| get_key_then_data st level k0 k1 k2 k3 level' words :
    rng_fsm_state hw t = st -> st <> STATE_ERROR -> st <> STATE_RESET ->
    set = false ->
    level = rng_fifo_level hw (1 + t) mod 2 ^ 32 -> CONDITIONING_KEY_SIZE <= level ->
    level' = rng_fifo_level hw (10 + t) mod 2 ^ 32 -> size <= (level' * 4) mod 2 ^ 32 ->
    length words = words_for size ->
    trng_get_outcome hw size dst t set
      OK (list_inserts 0 (take (Z.to_nat size) (flat_map le_bytes words)) dst)
      (drain_events words
       ++ ev_rng_fifo_level_get level' :: key_events k0 k1 k2 k3
       ++ [ev_rng_fifo_level_get level; ev_rng_fsm_state_get st]) true
| get_wait st level :
    rng_fsm_state hw t = st -> st <> STATE_ERROR -> st <> STATE_RESET ->
    set = true ->
    level = rng_fifo_level hw (1 + t) mod 2 ^ 32 -> size > (level * 4) mod 2 ^ 32 ->
    trng_get_outcome hw size dst t set
      HW_PROCESSING dst [ev_rng_fifo_level_get level; ev_rng_fsm_state_get st] true
| get_data st level words :
    rng_fsm_state hw t = st -> st <> STATE_ERROR -> st <> STATE_RESET ->
    set = true ->
    level = rng_fifo_level hw (1 + t) mod 2 ^ 32 -> size <= (level * 4) mod 2 ^ 32 ->
    length words = words_for size ->
    trng_get_outcome hw size dst t set
      OK (list_inserts 0 (take (Z.to_nat size) (flat_map le_bytes words)) dst)
      (drain_events words ++ [ev_rng_fifo_level_get level; ev_rng_fsm_state_get st]) true.

(** An event of the TRNG other than the module enable and the soft reset. *)
Definition is_trng_get_event (e : hal_event) : bool :=
  is_rng_event e && negb (is_rng_enable e) && negb (is_soft_reset e).

(** Since the last soft reset the conditioning key was programmed at most
    once, from the first four FIFO words, and nothing else was read. *)
Definition key_programmed (set : bool) (evs : list hal_event) : Prop :=
  if set
  then exists k0 k1 k2 k3,
         fifo_words evs = [k3; k2; k1; k0]
         /\ key_words_set evs = [(3, k3); (2, k2); (1, k1); (0, k0)]
  else fifo_words evs = [] /\ key_words_set evs = [].

(** The events of one call of [nrfx_cracen_rng_get_entropy] that engaged the
    TRNG, newest first. *)
Definition entropy_events (evs : list hal_event) : Prop :=
  exists mid,
    evs = ev_module_disable RNG :: mid ++ [ev_module_enable RNG]
    /\ Forall (fun e => is_rng_event e = true) mid
    /\ entropy_invocations mid = 0%nat
    /\ cm_jobs mid = 0%nat.

Definition with_reseed_counter (c : Z) (p : cracen_prng_status) : cracen_prng_status :=
  {| key := key p; V := V p; reseed_counter := c; initialized := initialized p |}.

Definition with_initialized (b : bool) (p : cracen_prng_status) : cracen_prng_status :=
  {| key := key p; V := V p; reseed_counter := reseed_counter p; initialized := b |}.

(** The request is one that [nrfx_cracen_ctr_drbg_get_random] refuses. *)
Definition invalid_request (p_buf : option (list Z)) (size : Z) : Prop :=
  size > 0 /\ p_buf = None \/ size > MAX_BYTES_PER_REQUEST.

(** What [nrfx_cracen_ctr_drbg_get_random] does before its output loop, for a
    request it does not refuse: nothing, a reseed, or the implicit
    initialisation.  The result is the status of that step and the world
    after it. *)
Inductive pre_phase (mdk : cracen_mdk) (hw : cracen_hw) (fuel : nat) (w : world)
  : Z -> world -> Prop :=
| pre_none :
    initialized (prng w) = true -> reseed_counter (prng w) < RESEED_INTERVAL ->
    pre_phase mdk hw fuel w 0 w
| pre_reseed r w2 :
    initialized (prng w) = true -> reseed_counter (prng w) >= RESEED_INTERVAL ->
    cracen_ctr_drbg_reseed mdk hw fuel w = Some (r, w2) ->
    pre_phase mdk hw fuel w r w2
| pre_init r w1 :
    initialized (prng w) = false ->
    nrfx_cracen_ctr_drbg_init mdk hw fuel w = Some (r, w1) ->
    pre_phase mdk hw fuel w r w1.

(** A poll of the CryptoMaster interrupt register that read a fetch or push
    error. *)
Definition is_error_poll (mdk : cracen_mdk) (e : hal_event) : bool :=
  match e with
  | ev_cm_int_pending_get v => bool_decide (Z.land v (cm_error_mask mdk) <> 0)
  | _ => false
  end.

(** Polls in a trace that read an error. *)
Definition error_polls (mdk : cracen_mdk) (evs : list hal_event) : nat :=
  length (List.filter (is_error_poll mdk) evs).

(** A seeded generator with key and counter block zero, [c] in its reseed
    counter, before any HAL call. *)
Definition world_seeded (c : Z) : world :=
  {| prng := {| key := replicate 32 0; V := replicate 16 0; reseed_counter := c;
                initialized := true |};
     conditioning_key_set := false; cm_enabled := false; rng_enabled := false;
     trace := [] |}.

(** An AES engine that completes its first job and reports a fetch error
    from the second job on (the second job is set up at times 10 to 15). *)
Definition hw_second_job_fails : cracen_hw :=
  {| cm_block_encrypt := AES256.encrypt;
     cm_int_pending := fun t => if (10 <=? t)%nat then 4 else 0;
     cm_status := fun _ _ => 0;
     rng_fsm_state := fun _ => STATE_other 2;
     rng_fifo_level := fun _ => 16;
     rng_fifo := fun t => Z.of_nat t * 16843009 |}.

(** The world after [ctr_drbg_update] failed at its first job. *)
Definition world_after_failed_update : world :=
  emit [ev_module_disable CRYPTOMASTER; ev_cm_softreset; ev_cm_int_pending_get 4]
    (emit (cm_job_setup (replicate 32 0) 32 (replicate 15 0 ++ [1]) (replicate 16 0))
       (with_prng (with_V (replicate 15 0 ++ [1]) (prng (world_seeded 1)))
          (world_seeded 1))).

(** A TRNG that reads ERROR until time 7 (the first attempt reads the state
    at time 6) and is ready from then on. *)
Definition hw_error_once : cracen_hw :=
  {| cm_block_encrypt := AES256.encrypt;
     cm_int_pending := fun _ => 0;
     cm_status := fun _ _ => 0;
     rng_fsm_state := fun t => if (t <? 7)%nat then STATE_ERROR else STATE_other 2;
     rng_fifo_level := fun _ => 16;
     rng_fifo := fun t => Z.of_nat t * 16843009 |}.

(** An AES engine whose status register reads busy at every poll. *)
Definition hw_busy : cracen_hw :=
  {| cm_block_encrypt := AES256.encrypt;
     cm_int_pending := fun _ => 0;
     cm_status := fun _ _ => 1;
     rng_fsm_state := fun _ => STATE_other 2;
     rng_fifo_level := fun _ => 16;
     rng_fifo := fun t => Z.of_nat t * 16843009 |}.

(** A TRNG that stays in RESET. *)
Definition hw_in_reset : cracen_hw :=
  {| cm_block_encrypt := AES256.encrypt;
     cm_int_pending := fun _ => 0;
     cm_status := fun _ _ => 0;
     rng_fsm_state := fun _ => STATE_RESET;
     rng_fifo_level := fun _ => 0;
     rng_fifo := fun t => Z.of_nat t * 16843009 |}.

(** The shape of the generator state: a 32-byte key, a 16-byte counter
    block, and a reseed counter that is at most the reseed interval and at
    least 1 once the generator is initialised. *)
Definition prng_wf (p : cracen_prng_status) : Prop :=
  length (key p) = 32%nat /\ bytes (key p)
  /\ length (V p) = 16%nat /\ bytes (V p)
  /\ 0 <= reseed_counter p <= RESEED_INTERVAL
  /\ (initialized p = true -> 1 <= reseed_counter p).

(** ** Facts about bytes *)

Lemma be_value_app (l : list Z) (b : Z) :
  be_value (l ++ [b]) = be_value l * 256 + b.
Proof. unfold be_value. now rewrite fold_left_app. Qed.

Lemma bytes_snoc (l : list Z) (b : Z) :
  bytes (l ++ [b]) <-> bytes l /\ is_byte b.
Proof. unfold bytes. rewrite Forall_app, Forall_singleton. tauto. Qed.

Lemma be_value_range (l : list Z) :
  bytes l -> 0 <= be_value l < 256 ^ Z.of_nat (length l).
Proof.
  induction l as [|b l IH] using rev_ind; intros Hl.
  - cbn. lia.
  - apply bytes_snoc in Hl as [Hl Hb].
    specialize (IH Hl). rewrite be_value_app, length_app. cbn [length].
    replace (Z.of_nat (length l + 1)) with (Z.succ (Z.of_nat (length l))) by lia.
    rewrite Z.pow_succ_r by lia. unfold is_byte in Hb. lia.
Qed.

Lemma land_255 (x : Z) : Z.land x 255 = x mod 256.
Proof. change 255 with (Z.ones 8). now rewrite Z.land_ones by lia. Qed.

Lemma land_255_byte (x : Z) : is_byte (Z.land x 255).
Proof. rewrite land_255. unfold is_byte. apply Z.mod_pos_bound. lia. Qed.

Lemma be_bytes_length (n : nat) (v : Z) : length (be_bytes n v) = n.
Proof.
  revert v. induction n as [|n IH]; intros v; cbn; [done|].
  rewrite length_app, IH. cbn. lia.
Qed.

Lemma be_bytes_bytes (n : nat) (v : Z) : bytes (be_bytes n v).
Proof.
  revert v. induction n as [|n IH]; intros v; cbn; [constructor|].
  apply bytes_snoc. split; [apply IH|].
  unfold is_byte. apply Z.mod_pos_bound. lia.
Qed.

Lemma be_value_be_bytes (n : nat) (v : Z) :
  be_value (be_bytes n v) = v mod 256 ^ Z.of_nat n.
Proof.
  revert v. induction n as [|n IH]; intros v.
  - cbn. now rewrite Z.mod_1_r.
  - cbn [be_bytes]. rewrite be_value_app, IH.
    replace (Z.of_nat (S n)) with (Z.succ (Z.of_nat n)) by lia.
    rewrite Z.pow_succ_r by lia.
    assert (0 < 256 ^ Z.of_nat n) by (apply Z.pow_pos_nonneg; lia).
    rewrite Z.rem_mul_r by lia. lia.
Qed.

Lemma be_bytes_be_value (l : list Z) :
  bytes l -> be_bytes (length l) (be_value l) = l.
Proof.
  induction l as [|b l IH] using rev_ind; intros Hl; [done|].
  apply bytes_snoc in Hl as [Hl Hb].
  rewrite length_app, Nat.add_comm. cbn [length Nat.add be_bytes].
  rewrite be_value_app. unfold is_byte in Hb.
  rewrite Z.div_add_l, Z.div_small, Z.add_0_r by lia.
  rewrite IH by done. f_equal. f_equal.
  rewrite Z.add_comm, Z.mod_add by lia. now apply Z.mod_small.
Qed.

Lemma shiftr_8 (x : Z) : Z.shiftr x 8 = x / 256.
Proof. now rewrite Z.shiftr_div_pow2 by lia. Qed.

Lemma be_incr_loop_spec (pre suf : list Z) (add : Z) :
  bytes pre -> 0 <= add <= 1 ->
  exists pre',
    be_incr_loop (pre ++ suf) (length pre) add = pre' ++ suf
    /\ length pre' = length pre
    /\ bytes pre'
    /\ be_value pre' = (be_value pre + add) mod 256 ^ Z.of_nat (length pre).
Proof.
  revert suf add. induction pre as [|b p IH] using rev_ind; intros suf add Hp Hadd.
  - exists []. cbn. repeat split; [constructor|]. now rewrite Z.mod_1_r.
  - apply bytes_snoc in Hp as [Hp Hb]. unfold is_byte in Hb.
    rewrite length_app, Nat.add_comm. cbn [length Nat.add be_incr_loop].
    rewrite <- app_assoc. cbn [app].
    rewrite list_lookup_middle by done. cbv beta iota zeta.
    rewrite (Z.mod_small (add + b)) by lia.
    replace (<[length p:=Z.land (add + b) 255]> (p ++ b :: suf))
      with (p ++ Z.land (add + b) 255 :: suf)
      by (rewrite <- (Nat.add_0_r (length p)) at 1; now rewrite insert_app_r).
    rewrite shiftr_8, land_255.
    assert (Hpow : 0 < 256 ^ Z.of_nat (length p)) by (apply Z.pow_pos_nonneg; lia).
    assert (Hv := be_value_range p Hp).
    replace (Z.of_nat (S (length p))) with (Z.succ (Z.of_nat (length p))) by lia.
    rewrite Z.pow_succ_r by lia. rewrite be_value_app.
    assert (Hdm := Z.div_mod (add + b) 256 ltac:(lia)).
    assert (Hm := Z.mod_pos_bound (add + b) 256 ltac:(lia)).
    assert (Hd : 0 <= (add + b) / 256 <= 1)
      by (split; [apply Z.div_pos; lia | apply Z.div_le_upper_bound; lia]).
    destruct (bool_decide ((add + b) / 256 <> 0) && bool_decide (0 < length p)%nat) eqn:Hc.
    + apply andb_true_iff in Hc as [Hc1 Hc2].
      apply bool_decide_eq_true in Hc1, Hc2.
      destruct (IH (((add + b) mod 256) :: suf) ((add + b) / 256) Hp Hd)
        as (p' & Heq & Hlen & Hbp & Hval).
      exists (p' ++ [(add + b) mod 256]). rewrite <- app_assoc. cbn [app].
      split; [exact Heq|]. split; [rewrite !length_app; cbn; lia|].
      split; [apply bytes_snoc; split; [done|unfold is_byte; lia]|].
      rewrite be_value_app, Hval.
      rewrite (Z.rem_mul_r _ 256) by lia.
      replace (be_value p * 256 + b + add) with ((add + b) mod 256 + (be_value p + (add + b) / 256) * 256) by lia.
      rewrite Z.mod_add, Z.div_add by lia.
      rewrite (Z.mod_small ((add + b) mod 256)), (Z.div_small ((add + b) mod 256)) by lia.
      rewrite Z.add_0_l. lia.
    + exists (p ++ [(add + b) mod 256]). rewrite <- app_assoc. cbn [app].
      split; [done|]. split; [rewrite !length_app; cbn; lia|].
      split; [apply bytes_snoc; split; [done|unfold is_byte; lia]|].
      rewrite be_value_app.
      apply andb_false_iff in Hc as [Hc|Hc]; apply bool_decide_eq_false in Hc.
      * assert ((add + b) / 256 = 0) by lia.
        rewrite (Z.mod_small (be_value p * 256 + b + add)) by lia. lia.
      * destruct p; [|cbn in Hc; lia]. cbn [be_value fold_left length].
        change (256 * 256 ^ Z.of_nat 0) with 256.
        replace (0 * 256 + b + add) with (add + b) by lia. lia.
Qed.

Lemma be_incr_spec (v : list Z) :
  bytes v ->
  length (be_incr v (length v)) = length v
  /\ bytes (be_incr v (length v))
  /\ be_value (be_incr v (length v)) = (be_value v + 1) mod 256 ^ Z.of_nat (length v).
Proof.
  intros Hv. destruct (be_incr_loop_spec v [] 1 Hv ltac:(lia)) as (p' & Heq & Hlen & Hb & Hval).
  unfold be_incr. rewrite app_nil_r in Heq. rewrite Heq, app_nil_r. done.
Qed.

Lemma byte_testbit (b n : Z) : is_byte b -> n < 0 \/ 8 <= n -> Z.testbit b n = false.
Proof.
  intros Hb [Hn|Hn]; [now apply Z.testbit_neg_r|].
  rewrite <- (Z.mod_small b (2 ^ 8)) by (unfold is_byte in Hb; lia).
  apply Z.mod_pow2_bits_high. lia.
Qed.

Lemma testbit_land_255 (x n : Z) :
  0 <= n -> Z.testbit (Z.land x 255) n = Z.testbit x n && (n <? 8).
Proof.
  intros Hn. rewrite Z.land_spec. change 255 with (Z.ones 8).
  now rewrite Z.testbit_ones_nonneg by lia.
Qed.

Lemma testbit_load_u32 (a0 a1 a2 a3 k : Z) :
  0 <= k ->
  Z.testbit (load_u32 a0 a1 a2 a3) k
  = (Z.testbit a0 k || Z.testbit a1 (k - 8)) || (Z.testbit a2 (k - 16) || Z.testbit a3 (k - 24)).
Proof.
  intros Hk. unfold load_u32. now rewrite !Z.lor_spec, !Z.shiftl_spec by lia.
Qed.

Lemma store_u32_xor (a0 a1 a2 a3 b0 b1 b2 b3 : Z) :
  is_byte a0 -> is_byte a1 -> is_byte a2 -> is_byte a3 ->
  is_byte b0 -> is_byte b1 -> is_byte b2 -> is_byte b3 ->
  store_u32 (Z.lxor (load_u32 a0 a1 a2 a3) (load_u32 b0 b1 b2 b3))
  = [Z.lxor a0 b0; Z.lxor a1 b1; Z.lxor a2 b2; Z.lxor a3 b3].
Proof.
  intros. unfold store_u32.
  repeat f_equal; apply Z.bits_inj'; intros n Hn;
    rewrite testbit_land_255, ?Z.shiftr_spec, !Z.lxor_spec, !testbit_load_u32 by lia;
    (destruct (Z.ltb_spec n 8);
     [ rewrite andb_true_r | rewrite andb_false_r ];
     repeat match goal with
       | |- context [Z.testbit ?b ?k] =>
           rewrite (byte_testbit b k) by (first [assumption | lia])
       end;
     rewrite ?orb_false_r, ?orb_false_l; try reflexivity;
     repeat match goal with |- context [Z.testbit ?b (?n + ?c - ?c)] =>
       replace (n + c - c) with n by lia end; reflexivity).
Qed.

Lemma bytes_cons (x : Z) (l : list Z) : bytes (x :: l) <-> is_byte x /\ bytes l.
Proof.
  split; [intros H; inversion H; now subst | intros [? ?]; now constructor].
Qed.

Lemma xor_array_words_spec (n : nat) (a b : list Z) :
  length a = (4 * n)%nat -> length b = (4 * n)%nat -> bytes a -> bytes b ->
  xor_array_words a b n = zip_with Z.lxor a b.
Proof.
  revert a b. induction n as [|n IH]; intros a b Ha Hb Hba Hbb.
  - destruct a; [|done]. now destruct b.
  - destruct a as [|a0 [|a1 [|a2 [|a3 a']]]]; try (cbn in Ha; lia).
    destruct b as [|b0 [|b1 [|b2 [|b3 b']]]]; try (cbn in Hb; lia).
    cbn [xor_array_words zip_with].
    rewrite !bytes_cons in Hba, Hbb.
    destruct Hba as (? & ? & ? & ? & ?), Hbb as (? & ? & ? & ? & ?).
    rewrite store_u32_xor by done. cbn [app].
    rewrite IH; [done| cbn in Ha; lia | cbn in Hb; lia | done | done].
Qed.

Lemma xor_array_spec (a b : list Z) :
  length a = 48%nat -> length b = 48%nat -> bytes a -> bytes b ->
  xor_array a b ENTROPY_SIZE = zip_with Z.lxor a b.
Proof. intros. now apply xor_array_words_spec. Qed.

Lemma lxor_byte (a b : Z) : is_byte a -> is_byte b -> is_byte (Z.lxor a b).
Proof.
  intros Ha Hb. unfold is_byte.
  assert (Z.lxor a b = Z.lxor a b mod 2 ^ 8) as ->.
  { apply Z.bits_inj'. intros n Hn. destruct (Z.ltb_spec n 8).
    - now rewrite Z.mod_pow2_bits_low by lia.
    - rewrite Z.mod_pow2_bits_high, Z.lxor_spec by lia.
      now rewrite !byte_testbit by (done || lia). }
  apply Z.mod_pos_bound. lia.
Qed.

Opaque be_incr.

(** ** The monad *)

Lemma bind_Some {A B} (m : M A) (k : A -> M B) (w : world) (r : B * world) :
  bind m k w = Some r <-> exists a w1, m w = Some (a, w1) /\ k a w1 = Some r.
Proof.
  unfold bind. destruct (m w) as [[a w1]|]; split.
  - intros H. now exists a, w1.
  - now intros (? & ? & [= <- <-] & H).
  - done.
  - now intros (? & ? & ? & _).
Qed.

Lemma bind_run {A B} (m : M A) (k : A -> M B) (w w1 : world) (a : A) :
  m w = Some (a, w1) -> bind m k w = k a w1.
Proof. unfold bind. now intros ->. Qed.

(** Splits [H : bind m k w = Some r] into the run of [m] and the run of [k]. *)
Ltac inv_bind H :=
  let a := fresh "a" in let w1 := fresh "w" in let E := fresh "E" in
  apply bind_Some in H as (a & w1 & E & H).

Lemma emit_emit (e1 e2 : list hal_event) (w : world) :
  emit e1 (emit e2 w) = emit (e1 ++ e2) w.
Proof. unfold emit. cbn. now rewrite app_assoc. Qed.

Lemma now_emit (evs : list hal_event) (w : world) :
  now (emit evs w) = (length evs + now w)%nat.
Proof. unfold now, emit. cbn. now rewrite length_app. Qed.

Section Aes_ecb.

Variable mdk : cracen_mdk.
Variable hw : cracen_hw.

(** ** nrfx_cracen_cm_aes_ecb.c *)

Lemma cracen_cm_check_done_eq (w : world) :
  cracen_cm_check_done mdk hw w
  = Some (cm_poll mdk hw (now w), emit (cm_poll_events mdk hw (now w)) w).
Proof.
  unfold cracen_cm_check_done, cm_poll, cm_poll_events, nrf_cracen_cm_int_pending_get,
    nrf_cracen_cm_status_get, read_reg, log, bind, ret, now, emit.
  fold (cm_error_mask mdk). fold (cm_busy_mask mdk).
  case_bool_decide; cbn [trace length]; [reflexivity|].
  case_bool_decide; reflexivity.
Qed.

Lemma cm_poll_events_polls (t : nat) :
  match cm_poll mdk hw t with
  | -1 => exists v b, Z.land v (cm_error_mask mdk) = 0 /\ b <> 0
            /\ cm_poll_events mdk hw t
               = [ev_cm_status_get (cm_busy_mask mdk) b; ev_cm_int_pending_get v]
            /\ length (cm_poll_events mdk hw t) = 2%nat
  | r => cm_polls mdk r (cm_poll_events mdk hw t)
  end.
Proof.
  unfold cm_poll, cm_poll_events.
  destruct (bool_decide _) eqn:He.
  - apply bool_decide_eq_true in He. now constructor.
  - apply bool_decide_eq_false in He.
    assert (He' : Z.land (cm_int_pending hw t mod 2 ^ 32) (cm_error_mask mdk) = 0) by lia.
    destruct (bool_decide (_ <> 0)) eqn:Hb.
    + apply bool_decide_eq_true in Hb. eauto 10.
    + apply bool_decide_eq_false in Hb.
      replace (cm_status hw (S t) (cm_busy_mask mdk) mod 2 ^ 32) with 0 by lia.
      now constructor.
Qed.

Lemma cm_poll_values (t : nat) :
  cm_poll mdk hw t = -2 \/ cm_poll mdk hw t = -1 \/ cm_poll mdk hw t = 0.
Proof. unfold cm_poll. repeat case_bool_decide; auto. Qed.

(** Whatever the loop returns is the answer of its last poll. *)
Lemma cm_wait_done_inv (fuel : nat) (w w' : world) (r : Z) :
  cm_wait_done mdk hw fuel w = Some (r, w') ->
  exists polls, cm_polls mdk r polls /\ w' = emit polls w /\ (r = 0 \/ r = -2).
Proof.
  revert w. induction fuel as [|fuel IH]; intros w H; [done|].
  cbn [cm_wait_done] in H. rewrite (bind_run _ _ _ _ _ (cracen_cm_check_done_eq w)) in H.
  pose proof (cm_poll_events_polls (now w)) as Hp.
  destruct (cm_poll_values (now w)) as [Hr|[Hr|Hr]]; rewrite Hr in H, Hp; cbn in H.
  - injection H as <- <-. eauto.
  - destruct Hp as (v & b & Hv & Hb & Hevs & _).
    apply IH in H as (polls & Hpolls & -> & Hres).
    exists (polls ++ cm_poll_events mdk hw (now w)).
    rewrite emit_emit. split; [|done]. rewrite Hevs. now constructor.
  - injection H as <- <-. eauto.
Qed.

(** The loop returns as soon as the engine answers. *)
Lemma cm_wait_done_runs (k : nat) (r : Z) (fuel : nat) (w : world) :
  cm_answers_at mdk hw (now w) k r -> (k < fuel)%nat ->
  exists w', cm_wait_done mdk hw fuel w = Some (r, w').
Proof.
  revert fuel w. induction k as [|k IH]; intros fuel w (Hbusy & Hr & Hne) Hf.
  - destruct fuel as [|fuel]; [lia|]. cbn [cm_wait_done].
    rewrite (bind_run _ _ _ _ _ (cracen_cm_check_done_eq w)).
    rewrite Nat.add_0_r in Hr. rewrite Hr.
    rewrite bool_decide_eq_false_2 by done. eauto.
  - destruct fuel as [|fuel]; [lia|]. cbn [cm_wait_done].
    rewrite (bind_run _ _ _ _ _ (cracen_cm_check_done_eq w)).
    pose proof (Hbusy 0%nat ltac:(lia)) as H0. rewrite Nat.add_0_r in H0.
    rewrite H0. rewrite bool_decide_eq_true_2 by done.
    apply IH; [|lia].
    pose proof (cm_poll_events_polls (now w)) as Hp. rewrite H0 in Hp.
    destruct Hp as (_ & _ & _ & _ & _ & Hlen).
    rewrite now_emit, Hlen. repeat split.
    + intros j Hj. specialize (Hbusy (S j) ltac:(lia)).
      now replace (2 + now w + 2 * j)%nat with (now w + 2 * S j)%nat by lia.
    + now replace (2 + now w + 2 * k)%nat with (now w + 2 * S k)%nat by lia.
    + done.
Qed.

Lemma cm_wait_done_mono (fuel fuel' : nat) (w : world) (r : Z * world) :
  cm_wait_done mdk hw fuel w = Some r -> (fuel <= fuel')%nat ->
  cm_wait_done mdk hw fuel' w = Some r.
Proof.
  revert fuel' w. induction fuel as [|fuel IH]; intros fuel' w H Hf; [done|].
  destruct fuel' as [|fuel']; [lia|]. cbn [cm_wait_done] in *.
  rewrite (bind_run _ _ _ _ _ (cracen_cm_check_done_eq w)) in H.
  rewrite (bind_run _ _ _ _ _ (cracen_cm_check_done_eq w)).
  destruct (bool_decide (cm_poll mdk hw (now w) = -1)); [|done]. apply IH; [done|lia].
Qed.

Lemma nrfx_cracen_cm_aes_ecb_unfold (fuel : nat) (key_p : list Z) (key_size : Z)
    (input_p output_p : list Z) (w : world) :
  nrfx_cracen_cm_aes_ecb mdk hw fuel key_p key_size input_p output_p w
  = match cm_wait_done mdk hw fuel
            (set_cm_enabled true (emit (cm_job_setup key_p key_size input_p output_p) w)) with
    | Some (r, w1) =>
        Some ((r, if bool_decide (r = 0)
                  then cm_block_encrypt hw (take (Z.to_nat key_size) key_p)
                                        (take (Z.to_nat ECB_BLK_SZ) input_p)
                  else output_p),
              set_cm_enabled false
                (emit [ev_module_disable CRYPTOMASTER; ev_cm_softreset] w1))
    | None => None
    end.
Proof.
  unfold nrfx_cracen_cm_aes_ecb, bind at 1 2 3 4 5 6 7. cbn.
  unfold set_cm_enabled, emit, cm_job_setup. cbn.
  destruct (cm_wait_done _ _ _ _) as [[r w1]|]; reflexivity.
Qed.

Lemma nrfx_cracen_cm_aes_ecb_inv (fuel : nat) (key_p : list Z) (key_size : Z)
    (input_p output_p : list Z) (w w' : world) (r : Z) (out : list Z) :
  nrfx_cracen_cm_aes_ecb mdk hw fuel key_p key_size input_p output_p w
  = Some ((r, out), w') ->
  exists polls,
    cm_polls mdk r polls
    /\ w' = after_aes key_p key_size input_p output_p polls w
    /\ (r = 0 /\ out = cm_block_encrypt hw (take (Z.to_nat key_size) key_p)
                                          (take (Z.to_nat ECB_BLK_SZ) input_p)
        \/ r = -2 /\ out = output_p).
Proof.
  rewrite nrfx_cracen_cm_aes_ecb_unfold.
  destruct (cm_wait_done _ _ _ _) as [[r1 w1]|] eqn:Hw; [|done].
  intros [= <- <- <-]. apply cm_wait_done_inv in Hw as (polls & Hp & -> & Hr).
  exists polls. split; [done|]. split.
  - unfold after_aes, set_cm_enabled, emit. cbn. now rewrite <- app_assoc.
  - destruct Hr as [->| ->]; [left|right]; done.
Qed.

Lemma nrfx_cracen_cm_aes_ecb_mono (fuel fuel' : nat) (key_p : list Z) (key_size : Z)
    (input_p output_p : list Z) (w : world) (r : Z * list Z * world) :
  nrfx_cracen_cm_aes_ecb mdk hw fuel key_p key_size input_p output_p w = Some r ->
  (fuel <= fuel')%nat ->
  nrfx_cracen_cm_aes_ecb mdk hw fuel' key_p key_size input_p output_p w = Some r.
Proof.
  rewrite !nrfx_cracen_cm_aes_ecb_unfold. intros H Hf.
  destruct (cm_wait_done mdk hw fuel _) as [[r1 w1]|] eqn:Hw; [|done].
  now rewrite (cm_wait_done_mono _ _ _ _ Hw Hf).
Qed.

Lemma nrfx_cracen_cm_aes_ecb_returns (key_p : list Z) (key_size : Z)
    (input_p output_p : list Z) (w : world) :
  cm_completes mdk hw ->
  exists w',
    returns (fun f => nrfx_cracen_cm_aes_ecb mdk hw f key_p key_size input_p output_p) w
      (0, cm_block_encrypt hw (take (Z.to_nat key_size) key_p)
                              (take (Z.to_nat ECB_BLK_SZ) input_p)) w'.
Proof.
  intros Hc.
  set (w1 := set_cm_enabled true (emit (cm_job_setup key_p key_size input_p output_p) w)).
  destruct (Hc (now w1)) as (k & Hk).
  destruct (cm_wait_done_runs k 0 (S k) w1 Hk ltac:(lia)) as (w2 & Hw2).
  eexists. exists (S k). intros f Hf.
  rewrite nrfx_cracen_cm_aes_ecb_unfold. fold w1.
  rewrite (cm_wait_done_mono _ _ _ _ Hw2 Hf). reflexivity.
Qed.

(** ** The monad, with fuel *)

Lemma returns_bind {A B} (m : nat -> M A) (k : nat -> A -> M B)
    (w w1 w2 : world) (a : A) (b : B) :
  returns m w a w1 -> returns (fun f => k f a) w1 b w2 ->
  returns (fun f => bind (m f) (k f)) w b w2.
Proof.
  intros (f0 & H0) (f1 & H1). exists (Nat.max f0 f1). intros f Hf.
  rewrite (bind_run _ _ _ _ _ (H0 f ltac:(lia))). apply H1. lia.
Qed.

Lemma returns_pure {A} (m : M A) (w w' : world) (a : A) :
  m w = Some (a, w') -> returns (fun _ => m) w a w'.
Proof. intros H. now exists 0%nat. Qed.

Lemma returns_fuel {A} (m : nat -> M A) (w w' : world) (a : A) :
  returns m w a w' -> exists f, m f w = Some (a, w').
Proof. intros (f0 & H). exists f0. now apply H. Qed.

(** ** nrfx_cracen_ctr_drbg.c *)

Lemma incr_and_encrypt_unfold (fuel : nat) (out : list Z) (w : world) :
  incr_and_encrypt mdk hw fuel out w
  = nrfx_cracen_cm_aes_ecb mdk hw fuel (key (prng w)) KEY_SIZE
      (be_incr (V (prng w)) (Z.to_nat AES_BLK_SZ)) out
      (with_prng (with_V (be_incr (V (prng w)) (Z.to_nat AES_BLK_SZ)) (prng w)) w).
Proof. reflexivity. Qed.

Lemma incr_and_encrypt_inv (fuel : nat) (out : list Z) (w w' : world) (r : Z) (o : list Z) :
  incr_and_encrypt mdk hw fuel out w = Some ((r, o), w') ->
  let v := be_incr (V (prng w)) (Z.to_nat AES_BLK_SZ) in
  exists evs,
    aes_job mdk r evs
    /\ trace w' = evs ++ trace w
    /\ prng w' = with_V v (prng w)
    /\ cm_enabled w' = false
    /\ conditioning_key_set w' = conditioning_key_set w
    /\ rng_enabled w' = rng_enabled w
    /\ (r = 0 /\ o = cm_block_encrypt hw (take (Z.to_nat KEY_SIZE) (key (prng w)))
                                        (take (Z.to_nat AES_BLK_SZ) v)
        \/ r = -2 /\ o = out).
Proof.
  rewrite incr_and_encrypt_unfold. intros H v.
  apply nrfx_cracen_cm_aes_ecb_inv in H as (polls & Hp & -> & Hr).
  eexists. split; [|split; [|split; [|split; [|split; [|split]]]]].
  - exists polls. eauto 10.
  - reflexivity.
  - reflexivity.
  - reflexivity.
  - reflexivity.
  - reflexivity.
  - exact Hr.
Qed.

Lemma incr_and_encrypt_returns (out : list Z) (w : world) :
  cm_completes mdk hw ->
  exists o w', returns (fun f => incr_and_encrypt mdk hw f out) w (0, o) w'.
Proof.
  intros Hc.
  destruct (nrfx_cracen_cm_aes_ecb_returns (key (prng w)) KEY_SIZE
              (be_incr (V (prng w)) (Z.to_nat AES_BLK_SZ)) out
              (with_prng (with_V (be_incr (V (prng w)) (Z.to_nat AES_BLK_SZ)) (prng w)) w) Hc)
    as (w' & H).
  eauto.
Qed.


Lemma list_inserts_at {A} (off : nat) (src dst : list A) :
  (off + length src <= length dst)%nat ->
  list_inserts off src dst = take off dst ++ src ++ drop (off + length src) dst.
Proof.
  intros Hlen.
  rewrite <- (take_drop off dst) at 1.
  rewrite <- (take_drop (length src) (drop off dst)) at 1.
  assert (Hoff : length (take off dst) = off) by (rewrite length_take; lia).
  rewrite <- Hoff at 1. rewrite <- (Nat.add_0_r (length (take off dst))).
  rewrite list_inserts_app_r. f_equal.
  rewrite list_inserts_0_r by (rewrite length_take, length_drop; lia).
  now rewrite drop_drop.
Qed.

(** *** Runs of AES jobs in a trace *)

Lemma cm_polls_result (r : Z) (polls : list hal_event) :
  cm_polls mdk r polls -> r = 0 \/ r = -2.
Proof. induction 1; auto. Qed.

Lemma cm_polls_failed (polls : list hal_event) :
  cm_polls mdk (-2) polls ->
  exists v rest, polls = ev_cm_int_pending_get v :: rest /\ Z.land v (cm_error_mask mdk) <> 0.
Proof.
  intros H. remember (-2) as r eqn:Hr. induction H as [v Hv|v Hv|v b r evs Hv Hb Hp IH].
  - eauto.
  - done.
  - destruct (IH Hr) as (v' & rest & -> & Hv'). eauto.
Qed.

Lemma cm_polls_counts (r : Z) (polls : list hal_event) :
  cm_polls mdk r polls ->
  entropy_invocations polls = 0%nat /\ cm_jobs polls = 0%nat
  /\ Forall (fun e => is_rng_event e = false) polls.
Proof.
  unfold entropy_invocations, cm_jobs.
  induction 1 as [v Hv|v Hv|v b r evs Hv Hb Hp (IH1 & IH2 & IH3)].
  - repeat split. repeat constructor.
  - repeat split. repeat constructor.
  - rewrite !List.filter_app, !length_app, IH1, IH2. repeat split.
    apply Forall_app. split; [done|]. repeat constructor.
Qed.

Lemma aes_job_counts (r : Z) (evs : list hal_event) :
  aes_job mdk r evs ->
  entropy_invocations evs = 0%nat /\ cm_jobs evs = 1%nat
  /\ Forall (fun e => is_rng_event e = false) evs
  /\ (r = 0 \/ r = -2).
Proof.
  intros (polls & k & ks & i & o & Hp & ->).
  destruct (cm_polls_counts _ _ Hp) as (H1 & H2 & H3).
  unfold entropy_invocations, cm_jobs in *. cbn [List.filter is_rng_enable is_cm_start].
  rewrite !List.filter_app, !length_app, H1, H2. repeat split.
  - do 2 (constructor; [done|]). apply Forall_app. split; [done|]. repeat constructor.
  - eapply cm_polls_result, Hp.
Qed.

Lemma aes_job_failed (evs : list hal_event) :
  aes_job mdk (-2) evs ->
  exists v rest,
    evs = ev_module_disable CRYPTOMASTER :: ev_cm_softreset
          :: ev_cm_int_pending_get v :: rest
    /\ Z.land v (cm_error_mask mdk) <> 0.
Proof.
  intros (polls & k & ks & i & o & Hp & ->).
  apply cm_polls_failed in Hp as (v & rest & -> & Hv). eauto.
Qed.

Lemma aes_jobs_older (k : nat) (r : Z) (evs evs1 : list hal_event) :
  aes_job mdk 0 evs1 -> aes_jobs mdk k r evs -> aes_jobs mdk (S k) r (evs ++ evs1).
Proof.
  intros H1. induction 1 as [|k r evs evs0 Hjobs IH Hjob].
  - cbn [app]. rewrite <- (app_nil_r evs1).
    apply aes_jobs_S; [constructor|done].
  - rewrite <- app_assoc. now apply aes_jobs_S.
Qed.

Lemma aes_jobs_counts (k : nat) (r : Z) (evs : list hal_event) :
  aes_jobs mdk k r evs ->
  entropy_invocations evs = 0%nat /\ cm_jobs evs = k
  /\ Forall (fun e => is_rng_event e = false) evs
  /\ (r = 0 \/ r = -2).
Proof.
  induction 1 as [|k r evs evs0 Hjobs (IH1 & IH2 & IH3 & IH4) Hjob].
  - repeat split; auto.
  - destruct (aes_job_counts _ _ Hjob) as (H1 & H2 & H3 & H4).
    unfold entropy_invocations, cm_jobs in *.
    rewrite !List.filter_app, !length_app, H1, H2, IH1, IH2. repeat split; [|done].
    now apply Forall_app.
Qed.

Lemma aes_jobs_failed (k : nat) (evs : list hal_event) :
  aes_jobs mdk k (-2) evs ->
  (1 <= k)%nat
  /\ exists v rest,
       evs = ev_module_disable CRYPTOMASTER :: ev_cm_softreset
             :: ev_cm_int_pending_get v :: rest
       /\ Z.land v (cm_error_mask mdk) <> 0.
Proof.
  inversion 1 as [|k' r evs1 evs0 Hjobs Hjob]; subst.
  split; [lia|]. apply aes_job_failed in Hjob as (v & rest & -> & Hv). eauto.
Qed.

Lemma be_incr_n_S (k : nat) (v : list Z) :
  be_incr_n (S k) v = be_incr (be_incr_n k v) (Z.to_nat AES_BLK_SZ).
Proof.
  revert v. induction k as [|k IH]; intros v; [reflexivity|].
  cbn [be_incr_n] in *. now rewrite IH.
Qed.

(** *** ctr_drbg_update *)

Lemma ctr_drbg_update_loop_inv (n fuel : nat) (temp : list Z) (temp_length : Z)
    (w w' : world) (r : Z) (temp' : list Z) :
  0 <= temp_length -> temp_length + 16 * Z.of_nat n <= ENTROPY_SIZE ->
  ctr_drbg_update_loop mdk hw n fuel temp temp_length w = Some ((r, temp'), w') ->
  exists k r0 evs,
    aes_jobs mdk k r0 evs
    /\ trace w' = evs ++ trace w
    /\ prng w' = with_V (be_incr_n k (V (prng w))) (prng w)
    /\ (k <> 0%nat -> cm_enabled w' = false)
    /\ (k = 0%nat -> w' = w)
    /\ (r = 0 /\ r0 = 0 /\ k = n
         /\ (cm_pushes_blocks hw ->
             (Z.to_nat temp_length + 16 * n <= length temp)%nat ->
             temp' = take (Z.to_nat temp_length) temp
                     ++ drbg_blocks hw n (key (prng w)) (V (prng w))
                     ++ drop (Z.to_nat temp_length + 16 * n) temp)
        \/ r = -1 /\ r0 = -2 /\ (1 <= k <= n)%nat).
Proof.
  revert temp temp_length w. induction n as [|n IH]; intros temp tl w Htl Hn H.
  - injection H as <- <- <-. exists 0%nat, 0, []. split; [constructor|].
    destruct (prng w). repeat split; try done. left. repeat split.
    intros _ _. cbn [drbg_blocks app]. rewrite Nat.mul_0_r, Nat.add_0_r.
    now rewrite take_drop.
  - cbn [ctr_drbg_update_loop] in H.
    rewrite bool_decide_eq_true_2 in H by (unfold ENTROPY_SIZE, KEY_SIZE, AES_BLK_SZ in *; lia).
    inv_bind H. destruct a as [r1 out].
    apply incr_and_encrypt_inv in E
      as (evs1 & Hjob & Htr & Hprng & Hen & _ & _ & Hres).
    destruct Hres as [[-> ->]|[-> ->]].
    + rewrite bool_decide_eq_false_2 in H by lia.
      apply IH in H as (k & r0 & evs & Hjobs & Htr' & Hprng' & Hen' & Hk0 & Hres');
        [|unfold AES_BLK_SZ; lia|unfold AES_BLK_SZ; lia].
      exists (S k), r0, (evs ++ evs1). split; [now apply aes_jobs_older|].
      split; [now rewrite Htr', Htr, app_assoc|].
      split; [rewrite Hprng', Hprng; reflexivity|].
      split. { intros _. destruct k; [now rewrite (Hk0 eq_refl)|now apply Hen']. }
      split; [done|].
      destruct Hres' as [(-> & -> & -> & Htemp)|(-> & -> & Hk)]; [left|right; repeat split; lia].
      repeat split. intros Hwf Hlen.
      destruct (Hwf (take (Z.to_nat KEY_SIZE) (key (prng w)))
                    (take (Z.to_nat AES_BLK_SZ) (be_incr (V (prng w)) (Z.to_nat AES_BLK_SZ))))
        as [Hblen _].
      rewrite Htemp; [|done|rewrite length_inserts; unfold AES_BLK_SZ; lia].
      rewrite Hprng. cbn [key V with_V drbg_blocks].
      rewrite list_inserts_at by (rewrite Hblen; lia). rewrite Hblen.
      replace (Z.to_nat (tl + AES_BLK_SZ)) with (Z.to_nat tl + 16)%nat by (unfold AES_BLK_SZ; lia).
      rewrite take_app_ge by (rewrite length_take; lia).
      rewrite length_take, Nat.min_l by lia.
      replace (Z.to_nat tl + 16 - Z.to_nat tl)%nat with 16%nat by lia.
      rewrite take_app_ge by lia. rewrite Hblen, Nat.sub_diag, take_0, app_nil_r.
      rewrite <- !app_assoc. f_equal. f_equal. f_equal.
      rewrite drop_app_ge by (rewrite length_take; lia).
      rewrite length_take, Nat.min_l by lia.
      rewrite drop_app_ge by (rewrite Hblen; lia). rewrite Hblen, drop_drop. f_equal. lia.
    + rewrite bool_decide_eq_true_2 in H by lia. injection H as <- <- <-.
      exists 1%nat, (-2), evs1. rewrite <- (app_nil_r evs1) at 1.
      split; [apply aes_jobs_S; [constructor|done]|].
      repeat split; try done. right. repeat split; lia.
Qed.

End Aes_ecb.

Section Drbg_loops.

Variable mdk : cracen_mdk.
Variable hw : cracen_hw.

Lemma drbg_blocks_length (n : nat) (K v : list Z) :
  cm_pushes_blocks hw -> length (drbg_blocks hw n K v) = (16 * n)%nat.
Proof.
  intros Hwf. revert v. induction n as [|n IH]; intros v; [done|].
  cbn [drbg_blocks]. rewrite length_app, IH. destruct (Hwf (take (Z.to_nat KEY_SIZE) K)
    (take (Z.to_nat AES_BLK_SZ) (be_incr v (Z.to_nat AES_BLK_SZ)))) as [-> _]. lia.
Qed.

Lemma drbg_blocks_bytes (n : nat) (K v : list Z) :
  cm_pushes_blocks hw -> bytes (drbg_blocks hw n K v).
Proof.
  intros Hwf. revert v. induction n as [|n IH]; intros v; [constructor|].
  cbn [drbg_blocks]. apply Forall_app. split; [apply Hwf|apply IH].
Qed.

Lemma ctr_drbg_update_loop_returns (n : nat) (temp : list Z) (temp_length : Z) (w : world) :
  cm_completes mdk hw ->
  exists temp' w',
    returns (fun f => ctr_drbg_update_loop mdk hw n f temp temp_length) w (0, temp') w'.
Proof.
  intros Hc. revert temp temp_length w.
  induction n as [|n IH]; intros temp tl w.
  - exists temp, w, 0%nat. reflexivity.
  - destruct (decide (tl < ENTROPY_SIZE)) as [Hlt|Hge].
    + destruct (incr_and_encrypt_returns mdk hw
                  (take (Z.to_nat AES_BLK_SZ) (drop (Z.to_nat tl) temp)) w Hc)
        as (o & w1 & f1 & H1).
      destruct (IH (list_inserts (Z.to_nat tl) o temp) (tl + AES_BLK_SZ) w1)
        as (temp' & w' & f2 & H2).
      exists temp', w', (Nat.max f1 f2). intros f Hf. cbn [ctr_drbg_update_loop].
      rewrite bool_decide_eq_true_2 by done.
      rewrite (bind_run _ _ _ _ _ (H1 f ltac:(lia))).
      rewrite bool_decide_eq_false_2 by lia. apply H2. lia.
    + exists temp, w, 0%nat. intros f _. cbn [ctr_drbg_update_loop].
      now rewrite bool_decide_eq_false_2.
Qed.

Lemma ctr_drbg_update_returns (data : option (list Z)) (w : world) :
  cm_completes mdk hw ->
  exists w', returns (fun f => ctr_drbg_update mdk hw f data) w 0 w'.
Proof.
  intros Hc.
  destruct (ctr_drbg_update_loop_returns (Z.to_nat (ENTROPY_SIZE / AES_BLK_SZ))
              (replicate (Z.to_nat ENTROPY_SIZE) 0) 0 w Hc) as (temp' & w1 & f1 & H1).
  eexists. exists f1. intros f Hf. unfold ctr_drbg_update.
  rewrite (bind_run _ _ _ _ _ (H1 f Hf)).
  rewrite bool_decide_eq_false_2 by lia. reflexivity.
Qed.

Lemma ctr_drbg_update_inv (fuel : nat) (data : option (list Z)) (w w' : world) (r : Z) :
  ctr_drbg_update mdk hw fuel data w = Some (r, w') ->
  exists k r0 evs,
    aes_jobs mdk k r0 evs
    /\ (1 <= k <= 3)%nat
    /\ trace w' = evs ++ trace w
    /\ cm_enabled w' = false
    /\ reseed_counter (prng w') = reseed_counter (prng w)
    /\ initialized (prng w') = initialized (prng w)
    /\ (r = 0 /\ r0 = 0 /\ k = 3%nat
         /\ (cm_pushes_blocks hw ->
             let temp := drbg_update_temp hw data (key (prng w)) (V (prng w)) in
             key (prng w') = take (Z.to_nat KEY_SIZE) temp
             /\ V (prng w') = take (Z.to_nat AES_BLK_SZ) (drop (Z.to_nat KEY_SIZE) temp))
        \/ r = -1 /\ r0 = -2
           /\ prng w' = with_V (be_incr_n k (V (prng w))) (prng w)).
Proof.
  unfold ctr_drbg_update. intros H. inv_bind H. destruct a as [r1 temp'].
  change (Z.to_nat (ENTROPY_SIZE / AES_BLK_SZ)) with 3%nat in E.
  apply ctr_drbg_update_loop_inv in E
    as (k & r0 & evs & Hjobs & Htr & Hprng & Hen & _ & Hres);
    [|lia|unfold ENTROPY_SIZE, KEY_SIZE, AES_BLK_SZ; lia].
  exists k, r0, evs.
  destruct Hres as [(-> & -> & Hk & Htemp)|(-> & -> & Hk)].
  - rewrite bool_decide_eq_false_2 in H by lia.
    unfold set_key, set_V, get_prng, put_prng, bind, ret in H. cbn [prng] in H.
    injection H as <- <-. cbn [prng trace cm_enabled key V reseed_counter initialized].
    rewrite Hprng. cbn [reseed_counter initialized with_V].
    repeat split; try done; try lia.
    { apply Hen. lia. }
    left. split; [done|]. split; [done|]. split; [done|]. intros Hwf.
    assert (Ht : temp' = drbg_blocks hw 3 (key (prng w)) (V (prng w))).
    { rewrite Htemp; [|done|rewrite length_replicate; unfold ENTROPY_SIZE, KEY_SIZE, AES_BLK_SZ; lia].
      change (Z.to_nat 0) with 0%nat. rewrite take_0. cbn [app].
      rewrite drop_ge, app_nil_r; [done|].
      rewrite length_replicate. unfold ENTROPY_SIZE, KEY_SIZE, AES_BLK_SZ. lia. }
    unfold drbg_update_temp. rewrite <- Ht. done.
  - rewrite bool_decide_eq_true_2 in H by lia. injection H as <- <-.
    rewrite Hprng. cbn [reseed_counter initialized with_V].
    repeat split; try done; try lia.
    { apply Hen. lia. }
    right. done.
Qed.

(** *** The output loop of nrfx_cracen_ctr_drbg_get_random *)

Lemma chunks_0 : Reference.chunks 0 = 0%nat.
Proof. reflexivity. Qed.

Lemma chunks_small (size : Z) : 0 < size < 16 -> Reference.chunks size = 1%nat.
Proof.
  intros H. unfold Reference.chunks.
  replace ((size + 15) / 16) with 1; [done|].
  apply Z.div_unique with (r := size - 1); lia.
Qed.

Lemma chunks_step (size : Z) :
  16 <= size -> Reference.chunks size = S (Reference.chunks (size - 16)).
Proof.
  intros H. unfold Reference.chunks.
  replace (size + 15) with ((size - 16 + 15) + 1 * 16) by lia.
  rewrite Z.div_add by lia.
  assert (0 <= (size - 16 + 15) / 16) by (apply Z.div_pos; lia). lia.
Qed.

Lemma get_random_loop_returns (n : nat) (p_buf : list Z) (off : nat) (size : Z) (w : world) :
  cm_completes mdk hw ->
  exists buf' w',
    returns (fun f => get_random_loop mdk hw n f p_buf off size) w (0, buf') w'.
Proof.
  intros Hc. revert p_buf off size w.
  induction n as [|n IH]; intros p_buf off size w.
  - exists p_buf, w, 0%nat. reflexivity.
  - destruct (decide (size > 0)) as [Hlt|Hge].
    + destruct (incr_and_encrypt_returns mdk hw (replicate (Z.to_nat AES_BLK_SZ) 0) w Hc)
        as (o & w1 & f1 & H1).
      set (cur_len := if bool_decide (size < AES_BLK_SZ) then size else AES_BLK_SZ).
      destruct (IH (list_inserts off (take (Z.to_nat cur_len) o) p_buf)
                   (off + Z.to_nat cur_len)%nat (size - cur_len) w1)
        as (buf' & w' & f2 & H2).
      exists buf', w', (Nat.max f1 f2). intros f Hf. cbn [get_random_loop].
      rewrite bool_decide_eq_true_2 by done.
      rewrite (bind_run _ _ _ _ _ (H1 f ltac:(lia))).
      rewrite bool_decide_eq_false_2 by lia. apply H2. lia.
    + exists p_buf, w, 0%nat. intros f _. cbn [get_random_loop].
      now rewrite bool_decide_eq_false_2.
Qed.

Lemma get_random_loop_inv (n fuel : nat) (p_buf : list Z) (off : nat) (size : Z)
    (w w' : world) (r : Z) (buf' : list Z) :
  0 <= size <= Z.of_nat n ->
  get_random_loop mdk hw n fuel p_buf off size w = Some ((r, buf'), w') ->
  exists k r0 evs,
    aes_jobs mdk k r0 evs
    /\ trace w' = evs ++ trace w
    /\ prng w' = with_V (be_incr_n k (V (prng w))) (prng w)
    /\ (k <> 0%nat -> cm_enabled w' = false)
    /\ (k = 0%nat -> w' = w)
    /\ (r = 0 /\ r0 = 0 /\ k = Reference.chunks size
         /\ (cm_pushes_blocks hw ->
             (off + Z.to_nat size <= length p_buf)%nat ->
             buf' = take off p_buf
                    ++ take (Z.to_nat size) (drbg_blocks hw k (key (prng w)) (V (prng w)))
                    ++ drop (off + Z.to_nat size) p_buf)
        \/ r = -1 /\ r0 = -2 /\ (1 <= k <= Reference.chunks size)%nat).
Proof.
  revert p_buf off size w. induction n as [|n IH]; intros p_buf off size w Hsize H.
  - injection H as <- <- <-. assert (size = 0) as -> by lia.
    exists 0%nat, 0, []. split; [constructor|].
    destruct (prng w). repeat split; try done. left.
    split; [done|]. split; [done|]. split; [done|]. intros _ _.
    cbn [drbg_blocks]. change (Z.to_nat 0) with 0%nat.
    rewrite take_0, Nat.add_0_r. cbn [app]. now rewrite take_drop.
  - cbn [get_random_loop] in H. destruct (decide (size > 0)) as [Hpos|Hz].
    2:{ rewrite bool_decide_eq_false_2 in H by done. injection H as <- <- <-.
        assert (size = 0) as -> by lia.
        exists 0%nat, 0, []. split; [constructor|].
        destruct (prng w). repeat split; try done. left.
        split; [done|]. split; [done|]. split; [done|]. intros _ _.
        cbn [drbg_blocks]. change (Z.to_nat 0) with 0%nat.
        rewrite take_0, Nat.add_0_r. cbn [app]. now rewrite take_drop. }
    rewrite bool_decide_eq_true_2 in H by done.
    inv_bind H. destruct a as [r1 temp].
    apply incr_and_encrypt_inv in E
      as (evs1 & Hjob & Htr & Hprng & Hen & _ & _ & Hres).
    destruct Hres as [[-> ->]|[-> ->]].
    2:{ rewrite bool_decide_eq_true_2 in H by lia. injection H as <- <- <-.
        exists 1%nat, (-2), evs1. rewrite <- (app_nil_r evs1) at 1.
        split; [apply aes_jobs_S; [constructor|done]|].
        repeat split; try done. right. repeat split; try lia.
        destruct (decide (size < 16)).
        - rewrite chunks_small; lia.
        - rewrite chunks_step; lia. }
    rewrite bool_decide_eq_false_2 in H by lia.
    set (cur_len := if bool_decide (size < AES_BLK_SZ) then size else AES_BLK_SZ) in *.
    assert (Hcur : 0 < cur_len <= 16 /\ cur_len <= size
                   /\ Reference.chunks size = S (Reference.chunks (size - cur_len))).
    { clear H IH. subst cur_len. unfold AES_BLK_SZ. case_bool_decide.
      - rewrite Z.sub_diag, chunks_0, chunks_small; lia.
      - rewrite chunks_step; lia. }
    destruct Hcur as (Hc1 & Hc2 & Hc3).
    apply IH in H as (k & r0 & evs & Hjobs & Htr' & Hprng' & Hen' & Hk0 & Hres'); [|lia].
    exists (S k), r0, (evs ++ evs1). split; [now apply aes_jobs_older|].
    split; [now rewrite Htr', Htr, app_assoc|].
    split; [rewrite Hprng', Hprng; reflexivity|].
    split. { intros _. destruct k; [now rewrite (Hk0 eq_refl)|now apply Hen']. }
    split; [done|].
    destruct Hres' as [(-> & -> & -> & Hbuf)|(-> & -> & Hk)];
      [left|right; repeat split; lia].
    split; [done|]. split; [done|]. split; [done|]. intros Hwf Hlen.
    destruct (Hwf (take (Z.to_nat KEY_SIZE) (key (prng w)))
                  (take (Z.to_nat AES_BLK_SZ) (be_incr (V (prng w)) (Z.to_nat AES_BLK_SZ))))
      as [Hblen _].
    set (blk := cm_block_encrypt hw (take (Z.to_nat KEY_SIZE) (key (prng w)))
                  (take (Z.to_nat AES_BLK_SZ) (be_incr (V (prng w)) (Z.to_nat AES_BLK_SZ)))) in *.
    assert (Htk : length (take (Z.to_nat cur_len) blk) = Z.to_nat cur_len)
      by (rewrite length_take; lia).
    rewrite Hbuf; [|done|rewrite length_inserts; lia].
    rewrite Hprng. cbn [key V with_V drbg_blocks]. fold blk.
    set (rest := drbg_blocks hw (Reference.chunks (size - cur_len)) (key (prng w))
                   (be_incr (V (prng w)) (Z.to_nat AES_BLK_SZ))).
    rewrite list_inserts_at by (rewrite Htk; lia). rewrite Htk.
    rewrite take_app_ge by (rewrite length_take; lia).
    rewrite length_take, Nat.min_l by lia.
    replace (off + Z.to_nat cur_len - off)%nat with (Z.to_nat cur_len) by lia.
    rewrite take_app_ge by lia. rewrite Htk, Nat.sub_diag, take_0, app_nil_r.
    rewrite <- !app_assoc. f_equal.
    rewrite drop_app_ge by (rewrite length_take; lia).
    rewrite length_take, Nat.min_l by lia.
    rewrite drop_app_ge by (rewrite Htk; lia). rewrite Htk, drop_drop.
    replace (off + Z.to_nat cur_len + (off + Z.to_nat cur_len + Z.to_nat (size - cur_len)
               - off - Z.to_nat cur_len))%nat with (off + Z.to_nat size)%nat by lia.
    rewrite app_assoc. f_equal.
    subst cur_len. unfold AES_BLK_SZ in *. case_bool_decide.
    + rewrite Z.sub_diag. change (Z.to_nat 0) with 0%nat. rewrite take_0, app_nil_r.
      rewrite take_app_le by lia. done.
    + rewrite take_app_ge by lia. rewrite Hblen.
      rewrite (take_ge blk) by lia. f_equal. f_equal. lia.
Qed.

End Drbg_loops.

Section Trng.

Variable mdk : cracen_mdk.
Variable hw : cracen_hw.

(** ** nrfx_cracen_trng.c *)

Lemma cracen_trng_init_eq (w : world) :
  cracen_trng_init w
  = Some (tt, emit trng_init_events (with_conditioning_key_set false w)).
Proof. reflexivity. Qed.

Lemma nrf_cracen_rng_fifo_get_eq (w : world) :
  nrf_cracen_rng_fifo_get hw w
  = Some (rng_fifo hw (now w) mod 2 ^ 32,
          emit [ev_rng_fifo_get (rng_fifo hw (now w) mod 2 ^ 32)] w).
Proof. reflexivity. Qed.

Lemma nrf_cracen_rng_fifo_level_get_eq (w : world) :
  nrf_cracen_rng_fifo_level_get hw w
  = Some (rng_fifo_level hw (now w) mod 2 ^ 32,
          emit [ev_rng_fifo_level_get (rng_fifo_level hw (now w) mod 2 ^ 32)] w).
Proof. reflexivity. Qed.

Lemma nrf_cracen_rng_fsm_state_get_eq (w : world) :
  nrf_cracen_rng_fsm_state_get hw w
  = Some (rng_fsm_state hw (now w), emit [ev_rng_fsm_state_get (rng_fsm_state hw (now w))] w).
Proof. reflexivity. Qed.

Lemma le_bytes_word_bytes (data : Z) : word_bytes 4 data = le_bytes data.
Proof.
  unfold le_bytes. cbn [word_bytes].
  now rewrite !Z.shiftr_shiftr by lia.
Qed.

Lemma word_bytes_length (n : nat) (data : Z) : length (word_bytes n data) = n.
Proof. revert data. induction n as [|n IH]; intros data; cbn [word_bytes length]; auto. Qed.

Lemma word_bytes_bytes (n : nat) (data : Z) : bytes (word_bytes n data).
Proof.
  revert data. induction n as [|n IH]; intros data; cbn [word_bytes]; constructor;
    [apply land_255_byte|apply IH].
Qed.

(** The inner loop stores the first [min n size] bytes of the word. *)
Lemma trng_word_loop_spec (n : nat) (data : Z) (dst : list Z) (off : nat) (size : Z) :
  0 <= size ->
  trng_word_loop n data dst off size
  = (list_inserts off (take (Z.to_nat size) (word_bytes n data)) dst,
     (off + Nat.min n (Z.to_nat size))%nat,
     size - Z.of_nat (Nat.min n (Z.to_nat size))).
Proof.
  revert data dst off size. induction n as [|n IH]; intros data dst off size Hs.
  - cbn [trng_word_loop word_bytes]. rewrite take_nil. cbn [list_inserts].
    rewrite Nat.min_0_l, Nat.add_0_r, Z.sub_0_r. reflexivity.
  - cbn [trng_word_loop word_bytes]. case_bool_decide as Hz.
    + rewrite IH by lia.
      replace (Z.to_nat size) with (S (Z.to_nat (size - 1))) by lia.
      cbn [take list_inserts]. rewrite list_insert_inserts_lt by lia.
      replace (S off + Nat.min n (Z.to_nat (size - 1)))%nat
        with (off + Nat.min (S n) (S (Z.to_nat (size - 1))))%nat by lia.
      replace (size - 1 - Z.of_nat (Nat.min n (Z.to_nat (size - 1))))
        with (size - Z.of_nat (Nat.min (S n) (S (Z.to_nat (size - 1))))) by lia.
      reflexivity.
    + assert (size = 0) as -> by lia. change (Z.to_nat 0) with 0%nat.
      rewrite take_0. cbn [list_inserts].
      rewrite Nat.min_0_r, Nat.add_0_r, Z.sub_0_r. reflexivity.
Qed.

Lemma words_for_0 : words_for 0 = 0%nat.
Proof. reflexivity. Qed.

Lemma words_for_step (size : Z) :
  0 < size -> words_for size = S (words_for (size - Z.of_nat (Nat.min 4 (Z.to_nat size)))).
Proof.
  intros H. unfold words_for. destruct (decide (size < 4)) as [Hlt|Hge].
  - rewrite Nat.min_r by lia. rewrite Z2Nat.id by lia. rewrite Z.sub_diag.
    replace ((size + 3) / 4) with 1 by (apply Z.div_unique with (r := size - 1); lia).
    reflexivity.
  - rewrite Nat.min_l by lia.
    replace (size + 3) with ((size - Z.of_nat 4 + 3) + 1 * 4) by lia.
    rewrite Z.div_add by lia.
    assert (0 <= (size - Z.of_nat 4 + 3) / 4) by (apply Z.div_pos; lia). lia.
Qed.

(** The outer loop drains [words_for size] words and stores their bytes,
    least significant byte first. *)
Lemma trng_drain_loop_spec (n : nat) (dst : list Z) (off : nat) (size : Z) (w : world) :
  0 <= size <= Z.of_nat n ->
  exists words,
    length words = words_for size
    /\ trng_drain_loop hw n dst off size w
       = Some (list_inserts off (take (Z.to_nat size) (flat_map le_bytes words)) dst,
               emit (drain_events words) w).
Proof.
  revert dst off size w. induction n as [|n IH]; intros dst off size w Hs.
  - assert (size = 0) as -> by lia. exists []. split; [done|].
    cbn [trng_drain_loop flat_map]. rewrite take_nil. destruct w. reflexivity.
  - cbn [trng_drain_loop]. case_bool_decide as Hz.
    + rewrite (bind_run _ _ _ _ _ (nrf_cracen_rng_fifo_get_eq w)).
      set (data := rng_fifo hw (now w) mod 2 ^ 32).
      rewrite trng_word_loop_spec by lia.
      set (m := Nat.min 4 (Z.to_nat size)).
      destruct (IH (list_inserts off (take (Z.to_nat size) (word_bytes 4 data)) dst)
                   (off + m)%nat (size - Z.of_nat m) (emit [ev_rng_fifo_get data] w))
        as (words & Hlen & Heq); [subst m; lia|].
      exists (data :: words). split.
      { cbn [length]. rewrite Hlen. subst m. rewrite (words_for_step size) by lia. done. }
      rewrite Heq. f_equal. f_equal.
      * cbn [flat_map]. rewrite take_app, list_inserts_app_l.
        rewrite le_bytes_word_bytes.
        rewrite length_take. change (length (le_bytes data)) with 4%nat.
        f_equal; [subst m; lia|]. f_equal. subst m. lia.
      * rewrite emit_emit. unfold drain_events. cbn [rev]. now rewrite map_app.
    + assert (size = 0) as -> by lia. exists []. split; [done|].
      cbn [flat_map]. rewrite take_nil. destruct w. reflexivity.
Qed.

Lemma cracen_trng_setup_conditioning_key_eq (w : world) :
  let level := rng_fifo_level hw (now w) mod 2 ^ 32 in
  cracen_trng_setup_conditioning_key hw w
  = if bool_decide (level < CONDITIONING_KEY_SIZE)
    then Some (HW_PROCESSING, emit [ev_rng_fifo_level_get level] w)
    else Some (OK, with_conditioning_key_set true
                     (emit (key_events (rng_fifo hw (1 + now w) mod 2 ^ 32)
                                       (rng_fifo hw (3 + now w) mod 2 ^ 32)
                                       (rng_fifo hw (5 + now w) mod 2 ^ 32)
                                       (rng_fifo hw (7 + now w) mod 2 ^ 32)
                            ++ [ev_rng_fifo_level_get level]) w)).
Proof.
  intros level. unfold cracen_trng_setup_conditioning_key.
  rewrite (bind_run _ _ _ _ _ (nrf_cracen_rng_fifo_level_get_eq w)). fold level.
  case_bool_decide; reflexivity.
Qed.

Lemma with_conditioning_key_set_id (b : bool) (w : world) :
  conditioning_key_set w = b -> with_conditioning_key_set b w = w.
Proof. destruct w. cbn. now intros ->. Qed.

Lemma with_conditioning_key_set_emit (b : bool) (evs : list hal_event) (w : world) :
  with_conditioning_key_set b (emit evs w) = emit evs (with_conditioning_key_set b w).
Proof. reflexivity. Qed.

Lemma cracen_trng_get_data_spec (st : rng_fsm) (dst : list Z) (size : Z) (w : world) :
  0 <= size ->
  rng_fsm_state hw (now w) = st -> st <> STATE_ERROR -> st <> STATE_RESET ->
  exists r dst' evs set',
    cracen_trng_get_data hw dst size (emit [ev_rng_fsm_state_get st] w)
    = Some ((r, dst'), with_conditioning_key_set set' (emit evs w))
    /\ trng_get_outcome hw size dst (now w) (conditioning_key_set w) r dst' evs set'.
Proof.
  intros Hs Hst Hne Hnr. unfold cracen_trng_get_data.
  set (w1 := emit [ev_rng_fsm_state_get st] w).
  assert (Hnow : now w1 = (1 + now w)%nat) by reflexivity.
  rewrite (bind_run _ _ _ _ _
             (eq_refl : get_conditioning_key_set w1 = Some (conditioning_key_set w, w1))).
  destruct (conditioning_key_set w) eqn:Hset; cbn [negb].
  - rewrite (bind_run _ _ _ _ _ (eq_refl : ret OK w1 = Some (OK, w1))).
    rewrite bool_decide_eq_false_2 by (intros Hf; now apply Hf).
    rewrite (bind_run _ _ _ _ _ (nrf_cracen_rng_fifo_level_get_eq w1)).
    rewrite Hnow. set (level := rng_fifo_level hw (1 + now w) mod 2 ^ 32).
    case_bool_decide as Hlv.
    + exists HW_PROCESSING, dst, [ev_rng_fifo_level_get level; ev_rng_fsm_state_get st], true.
      split.
      * rewrite with_conditioning_key_set_emit, with_conditioning_key_set_id by done.
        reflexivity.
      * now apply get_wait.
    + destruct (trng_drain_loop_spec (Z.to_nat size) dst 0 size
                  (emit [ev_rng_fifo_level_get level] w1) ltac:(lia))
        as (words & Hlen & Heq).
      rewrite (bind_run _ _ _ _ _ Heq).
      exists OK, (list_inserts 0 (take (Z.to_nat size) (flat_map le_bytes words)) dst),
        (drain_events words ++ [ev_rng_fifo_level_get level; ev_rng_fsm_state_get st]), true.
      split.
      * rewrite with_conditioning_key_set_emit, with_conditioning_key_set_id by done.
        subst w1. now rewrite !emit_emit, <- app_assoc.
      * apply get_data; done || lia.
  - unfold bind at 1. rewrite cracen_trng_setup_conditioning_key_eq. cbv zeta.
    rewrite Hnow. set (level := rng_fifo_level hw (1 + now w) mod 2 ^ 32).
    case_bool_decide as Hlv.
    + rewrite bool_decide_eq_true_2 by done.
      exists HW_PROCESSING, dst, [ev_rng_fifo_level_get level; ev_rng_fsm_state_get st], false.
      split.
      * rewrite with_conditioning_key_set_emit, with_conditioning_key_set_id by done.
        reflexivity.
      * now apply (get_no_key hw size dst (now w) false st level).
    + rewrite bool_decide_eq_false_2 by (intros Hf; now apply Hf).
      set (k0 := rng_fifo hw (1 + (1 + now w)) mod 2 ^ 32).
      set (k1 := rng_fifo hw (3 + (1 + now w)) mod 2 ^ 32).
      set (k2 := rng_fifo hw (5 + (1 + now w)) mod 2 ^ 32).
      set (k3 := rng_fifo hw (7 + (1 + now w)) mod 2 ^ 32).
      set (w2 := with_conditioning_key_set true
                   (emit (key_events k0 k1 k2 k3 ++ [ev_rng_fifo_level_get level]) w1)).
      rewrite (bind_run _ _ _ _ _ (nrf_cracen_rng_fifo_level_get_eq w2)).
      assert (Hnow2 : now w2 = (10 + now w)%nat) by reflexivity.
      rewrite Hnow2. set (level' := rng_fifo_level hw (10 + now w) mod 2 ^ 32).
      case_bool_decide as Hlv'.
      * exists HW_PROCESSING, dst,
          (ev_rng_fifo_level_get level' :: key_events k0 k1 k2 k3
           ++ [ev_rng_fifo_level_get level; ev_rng_fsm_state_get st]), true.
        split; [reflexivity|].
        apply get_key_then_wait; done || lia.
      * destruct (trng_drain_loop_spec (Z.to_nat size) dst 0 size
                    (emit [ev_rng_fifo_level_get level'] w2) ltac:(lia))
          as (words & Hlen & Heq).
        rewrite (bind_run _ _ _ _ _ Heq).
        exists OK, (list_inserts 0 (take (Z.to_nat size) (flat_map le_bytes words)) dst),
          (drain_events words
           ++ ev_rng_fifo_level_get level' :: key_events k0 k1 k2 k3
           ++ [ev_rng_fifo_level_get level; ev_rng_fsm_state_get st]), true.
        split.
        -- subst w2 w1. rewrite !with_conditioning_key_set_emit, !emit_emit.
           cbn [app key_events]. rewrite <- !app_assoc. reflexivity.
        -- apply get_key_then_data; done || lia.
Qed.

Lemma cracen_trng_get_spec (dst : list Z) (size : Z) (w : world) :
  0 <= size ->
  exists r dst' evs set',
    cracen_trng_get hw dst size w
    = Some ((r, dst'), with_conditioning_key_set set' (emit evs w))
    /\ trng_get_outcome hw size dst (now w) (conditioning_key_set w) r dst' evs set'.
Proof.
  intros Hs. unfold cracen_trng_get.
  rewrite (bind_run _ _ _ _ _ (nrf_cracen_rng_fsm_state_get_eq w)).
  destruct (rng_fsm_state hw (now w)) as [| | |code] eqn:Hst.
  - do 4 eexists. split; [|now apply get_reset].
    now rewrite with_conditioning_key_set_emit, with_conditioning_key_set_id.
  - now apply cracen_trng_get_data_spec.
  - do 4 eexists. split; [|now apply get_error].
    now rewrite with_conditioning_key_set_emit, with_conditioning_key_set_id.
  - now apply cracen_trng_get_data_spec.
Qed.

(** *** Reading the TRNG's events *)

Lemma fifo_words_app (a b : list hal_event) :
  fifo_words (a ++ b) = fifo_words a ++ fifo_words b.
Proof.
  induction a as [|e a IH]; [done|]. destruct e; cbn [app fifo_words]; rewrite IH; done.
Qed.

Lemma key_words_set_app (a b : list hal_event) :
  key_words_set (a ++ b) = key_words_set a ++ key_words_set b.
Proof.
  induction a as [|e a IH]; [done|]. destruct e; cbn [app key_words_set]; rewrite IH; done.
Qed.

Lemma entropy_invocations_app (a b : list hal_event) :
  entropy_invocations (a ++ b) = (entropy_invocations a + entropy_invocations b)%nat.
Proof. unfold entropy_invocations. now rewrite List.filter_app, length_app. Qed.

Lemma cm_jobs_app (a b : list hal_event) :
  cm_jobs (a ++ b) = (cm_jobs a + cm_jobs b)%nat.
Proof. unfold cm_jobs. now rewrite List.filter_app, length_app. Qed.

Lemma fifo_words_drain_events (words : list Z) :
  fifo_words (drain_events words) = rev words.
Proof.
  unfold drain_events. induction (rev words) as [|x l IH]; [done|].
  cbn [map fifo_words]. now rewrite IH.
Qed.

Lemma key_words_set_drain_events (words : list Z) :
  key_words_set (drain_events words) = [].
Proof. unfold drain_events. induction (rev words) as [|x l IH]; [done|]. exact IH. Qed.

Lemma drain_events_trng_get (words : list Z) :
  Forall (fun e => is_trng_get_event e = true) (drain_events words).
Proof.
  unfold drain_events. induction (rev words) as [|x l IH]; constructor; [done|exact IH].
Qed.

Lemma trng_get_events_facts (evs : list hal_event) :
  Forall (fun e => is_trng_get_event e = true) evs ->
  Forall (fun e => is_rng_event e = true) evs
  /\ entropy_invocations evs = 0%nat
  /\ cm_jobs evs = 0%nat
  /\ forall tr, since_reset (evs ++ tr) = evs ++ since_reset tr.
Proof.
  induction 1 as [|e evs He Hevs (IH1 & IH2 & IH3 & IH4)].
  - repeat split; done.
  - unfold is_trng_get_event in He.
    apply andb_true_iff in He as [He Hr]. apply andb_true_iff in He as [He Hn].
    apply negb_true_iff in Hr, Hn. split; [|split; [|split]].
    + now constructor.
    + unfold entropy_invocations in *. cbn [List.filter]. now rewrite Hn.
    + unfold cm_jobs in *. cbn [List.filter].
      destruct e; try discriminate He; exact IH3.
    + intros tr. cbn [app since_reset]. now rewrite Hr, IH4.
Qed.

Lemma trng_get_outcome_events (size : Z) (dst : list Z) (t : nat) (set : bool)
    (r : Z) (dst' : list Z) (evs : list hal_event) (set' : bool) :
  trng_get_outcome hw size dst t set r dst' evs set' ->
  Forall (fun e => is_trng_get_event e = true) evs /\ (1 <= length evs)%nat.
Proof.
  destruct 1; (split; [|rewrite ?length_app; cbn [length]; lia]);
    rewrite ?Forall_app; repeat split;
    first [apply drain_events_trng_get | repeat constructor].
Qed.

Lemma trng_get_outcome_key (size : Z) (dst : list Z) (t : nat) (set : bool)
    (r : Z) (dst' : list Z) (evs : list hal_event) (set' : bool) (tr : list hal_event) :
  trng_get_outcome hw size dst t set r dst' evs set' ->
  key_programmed set tr ->
  r = TRNG_RESET_NEEDED /\ dst' = dst
  \/ r = HW_PROCESSING /\ dst' = dst /\ key_programmed set' (evs ++ tr)
  \/ r = OK
     /\ exists k0 k1 k2 k3 words,
          length words = words_for size
          /\ dst' = list_inserts 0 (take (Z.to_nat size) (flat_map le_bytes words)) dst
          /\ fifo_words (evs ++ tr) = rev words ++ [k3; k2; k1; k0]
          /\ key_words_set (evs ++ tr) = [(3, k3); (2, k2); (1, k1); (0, k0)].
Proof.
  destruct 1 as [| |st level|st level k0 k1 k2 k3 level'|st level k0 k1 k2 k3 level' words
                 |st level|st level words]; intros Hkey; subst.
  - left. done.
  - right. left. done.
  - right. left. done.
  - right. left. split; [done|]. split; [done|]. destruct Hkey as [Hf Hk].
    exists k0, k1, k2, k3. cbn [app key_events fifo_words key_words_set].
    now rewrite Hf, Hk.
  - right. right. split; [done|]. destruct Hkey as [Hf Hk].
    exists k0, k1, k2, k3, words. split; [done|]. split; [done|].
    rewrite <- app_assoc, fifo_words_app, key_words_set_app.
    rewrite fifo_words_drain_events, key_words_set_drain_events.
    cbn [app key_events fifo_words key_words_set]. now rewrite Hf, Hk.
  - right. left. done.
  - right. right. split; [done|]. destruct Hkey as (k0 & k1 & k2 & k3 & Hf & Hk).
    exists k0, k1, k2, k3, words. split; [done|]. split; [done|].
    rewrite <- app_assoc, fifo_words_app, key_words_set_app.
    rewrite fifo_words_drain_events, key_words_set_drain_events.
    cbn [app fifo_words key_words_set]. now rewrite Hf, Hk.
Qed.

(** What the retry loop of [nrfx_cracen_rng_get_entropy] has done when it
    returns. *)
Lemma rng_get_entropy_loop_inv (fuel : nat) (ret_ : Z) (p_buf : list Z) (size : Z)
    (w w' : world) (buf' : list Z) :
  0 <= size ->
  ret_ = TRNG_RESET_NEEDED
  \/ key_programmed (conditioning_key_set w) (since_reset (trace w)) ->
  rng_get_entropy_loop hw fuel ret_ p_buf size w = Some (buf', w') ->
  exists evs k0 k1 k2 k3 words,
    trace w' = evs ++ trace w
    /\ Forall (fun e => is_rng_event e = true) evs
    /\ entropy_invocations evs = 0%nat
    /\ cm_jobs evs = 0%nat
    /\ prng w' = prng w /\ cm_enabled w' = cm_enabled w /\ rng_enabled w' = rng_enabled w
    /\ length words = words_for size
    /\ buf' = list_inserts 0 (take (Z.to_nat size) (flat_map le_bytes words)) p_buf
    /\ fifo_words (since_reset (trace w')) = rev words ++ [k3; k2; k1; k0]
    /\ key_words_set (since_reset (trace w')) = [(3, k3); (2, k2); (1, k1); (0, k0)].
Proof.
  intros Hs. revert ret_ w. induction fuel as [|fuel IH]; intros ret_ w Hinv H; [done|].
  cbn [rng_get_entropy_loop] in H.
  (* the world [w1] after the optional re-initialisation, and its events *)
  assert (exists ievs w1,
            (if bool_decide (ret_ = TRNG_RESET_NEEDED) then cracen_trng_init else ret tt) w
            = Some (tt, w1)
            /\ trace w1 = ievs ++ trace w
            /\ Forall (fun e => is_rng_event e = true) ievs
            /\ entropy_invocations ievs = 0%nat /\ cm_jobs ievs = 0%nat
            /\ prng w1 = prng w /\ cm_enabled w1 = cm_enabled w
            /\ rng_enabled w1 = rng_enabled w
            /\ key_programmed (conditioning_key_set w1) (since_reset (trace w1)))
    as (ievs & w1 & Hrun & Htr1 & Hev1 & Hen1 & Hcm1 & Hp1 & Hc1 & Hr1 & Hkey1).
  { case_bool_decide as Hret.
    - exists trng_init_events, (emit trng_init_events (with_conditioning_key_set false w)).
      repeat split; try done. repeat constructor.
    - exists [], w. destruct Hinv as [Hinv|Hinv]; [done|].
      repeat split; try done. }
  rewrite (bind_run _ _ _ _ _ Hrun) in H.
  destruct (cracen_trng_get_spec p_buf size w1 Hs) as (r & dst' & evs & set' & Hget & Hout).
  rewrite (bind_run _ _ _ _ _ Hget) in H. cbv beta iota in H.
  destruct (trng_get_outcome_events _ _ _ _ _ _ _ _ Hout) as [Hevs _].
  destruct (trng_get_events_facts _ Hevs) as (Hev2 & Hen2 & Hcm2 & Hsince).
  set (w2 := with_conditioning_key_set set' (emit evs w1)) in *.
  assert (Htr2 : trace w2 = (evs ++ ievs) ++ trace w)
    by (cbn [w2 trace with_conditioning_key_set emit]; now rewrite Htr1, app_assoc).
  assert (Hsr2 : since_reset (trace w2) = evs ++ since_reset (trace w1)) by apply Hsince.
  assert (Hfacts : Forall (fun e => is_rng_event e = true) (evs ++ ievs)
                   /\ entropy_invocations (evs ++ ievs) = 0%nat
                   /\ cm_jobs (evs ++ ievs) = 0%nat).
  { rewrite Forall_app, entropy_invocations_app, cm_jobs_app, Hen1, Hen2, Hcm1, Hcm2. done. }
  destruct Hfacts as (HF & HE & HC).
  (* one more turn of the loop, from [w2] *)
  assert (Hagain : forall ret',
            ret' = TRNG_RESET_NEEDED
            \/ key_programmed (conditioning_key_set w2) (since_reset (trace w2)) ->
            rng_get_entropy_loop hw fuel ret' p_buf size w2 = Some (buf', w') ->
            exists evs k0 k1 k2 k3 words,
              trace w' = evs ++ trace w
              /\ Forall (fun e => is_rng_event e = true) evs
              /\ entropy_invocations evs = 0%nat
              /\ cm_jobs evs = 0%nat
              /\ prng w' = prng w /\ cm_enabled w' = cm_enabled w
              /\ rng_enabled w' = rng_enabled w
              /\ length words = words_for size
              /\ buf' = list_inserts 0 (take (Z.to_nat size) (flat_map le_bytes words)) p_buf
              /\ fifo_words (since_reset (trace w')) = rev words ++ [k3; k2; k1; k0]
              /\ key_words_set (since_reset (trace w')) = [(3, k3); (2, k2); (1, k1); (0, k0)]).
  { intros ret' Hinv' Hloop.
    destruct (IH ret' w2 Hinv' Hloop)
      as (evs' & k0 & k1 & k2 & k3 & words & Htr' & HF' & HE' & HC' & Hp' & Hc' & Hr'
          & Hlen & Hbuf & Hfw & Hkw).
    exists (evs' ++ evs ++ ievs), k0, k1, k2, k3, words.
    split; [now rewrite Htr', Htr2, app_assoc|].
    split; [now apply Forall_app|].
    split; [now rewrite entropy_invocations_app, HE, HE'|].
    split; [now rewrite cm_jobs_app, HC, HC'|].
    split; [rewrite Hp'; exact Hp1|].
    split; [rewrite Hc'; exact Hc1|].
    split; [rewrite Hr'; exact Hr1|]. done. }
  destruct (trng_get_outcome_key _ _ _ _ _ _ _ _ (since_reset (trace w1)) Hout Hkey1)
    as [[-> ->]|[(-> & -> & Hkey2)|(-> & k0 & k1 & k2 & k3 & words & Hlen & -> & Hfw & Hkw)]].
  - rewrite bool_decide_eq_false_2 in H by done. apply (Hagain _ (or_introl eq_refl) H).
  - rewrite bool_decide_eq_false_2 in H by done.
    apply (Hagain HW_PROCESSING); [right|done]. now rewrite Hsr2.
  - rewrite bool_decide_eq_true_2 in H by done. injection H as <- <-.
    exists (evs ++ ievs), k0, k1, k2, k3, words. rewrite Hsr2.
    split; [done|]. split; [done|]. split; [done|]. split; [done|].
    split; [exact Hp1|]. split; [exact Hc1|]. split; [exact Hr1|]. done.
Qed.

Lemma rng_get_entropy_loop_mono (fuel fuel' : nat) (ret_ : Z) (p_buf : list Z) (size : Z)
    (w : world) (x : list Z * world) :
  rng_get_entropy_loop hw fuel ret_ p_buf size w = Some x -> (fuel <= fuel')%nat ->
  rng_get_entropy_loop hw fuel' ret_ p_buf size w = Some x.
Proof.
  revert fuel' ret_ p_buf w. induction fuel as [|fuel IH]; intros fuel' ret_ p_buf w H Hf;
    [done|].
  destruct fuel' as [|fuel']; [lia|]. cbn [rng_get_entropy_loop] in *.
  inv_bind H. rewrite (bind_run _ _ _ _ _ E).
  inv_bind H. rewrite (bind_run _ _ _ _ _ E0). destruct a0 as [r buf].
  case_bool_decide; [done|]. apply IH; [done|lia].
Qed.

(** Once the TRNG is ready, [cracen_trng_get] succeeds. *)
Lemma trng_get_outcome_ready (T : nat) (size : Z) (dst : list Z) (t : nat) (set : bool)
    (r : Z) (dst' : list Z) (evs : list hal_event) (set' : bool) :
  rng_ready_from hw size T -> (T <= t)%nat ->
  trng_get_outcome hw size dst t set r dst' evs set' -> r = OK.
Proof.
  intros Hready Ht Hout.
  destruct (Hready t Ht) as (He & Hr & _).
  destruct (Hready (1 + t)%nat ltac:(lia)) as (_ & _ & Hl1 & Hs1).
  destruct (Hready (10 + t)%nat ltac:(lia)) as (_ & _ & Hl2 & Hs2).
  destruct Hout; subst; try done; exfalso;
    unfold CONDITIONING_KEY_SIZE in *;
    repeat match goal with
      | H : context [rng_fifo_level hw ?x mod 2 ^ 32] |- _ =>
          rewrite (Z.mod_small (rng_fifo_level hw x)) in H by lia
      end;
    try lia;
    match goal with
    | H : _ > (?l * 4) mod 2 ^ 32 |- _ => rewrite (Z.mod_small (l * 4)) in H by lia
    end; lia.
Qed.

(** The retry loop returns once the TRNG is ready. *)
Lemma rng_get_entropy_loop_terminates (T : nat) (p_buf : list Z) (size : Z) (d : nat) :
  0 <= size ->
  rng_ready_from hw size T ->
  forall (ret_ : Z) (w : world),
    (T <= now w + d)%nat ->
    exists buf' w', rng_get_entropy_loop hw (S d) ret_ p_buf size w = Some (buf', w').
Proof.
  intros Hs Hready. induction d as [|d IH]; intros ret_ w Ht;
    cbn [rng_get_entropy_loop].
  - assert (exists w1, (if bool_decide (ret_ = TRNG_RESET_NEEDED)
                        then cracen_trng_init else ret tt) w = Some (tt, w1)
                       /\ (now w <= now w1)%nat) as (w1 & Hrun & Hnow).
    { case_bool_decide.
      - exists (emit trng_init_events (with_conditioning_key_set false w)).
        split; [reflexivity|]. rewrite now_emit.
        change (now (with_conditioning_key_set false w)) with (now w). lia.
      - exists w. split; [reflexivity|lia]. }
    rewrite (bind_run _ _ _ _ _ Hrun).
    destruct (cracen_trng_get_spec p_buf size w1 Hs) as (r & dst' & evs & set' & Hget & Hout).
    rewrite (bind_run _ _ _ _ _ Hget).
    assert (HT : (T <= now w1)%nat) by lia.
    rewrite (trng_get_outcome_ready T _ _ _ _ _ _ _ _ Hready HT Hout).
    rewrite bool_decide_eq_true_2 by done. eauto.
  - assert (exists w1, (if bool_decide (ret_ = TRNG_RESET_NEEDED)
                        then cracen_trng_init else ret tt) w = Some (tt, w1)
                       /\ (now w <= now w1)%nat) as (w1 & Hrun & Hnow).
    { case_bool_decide.
      - exists (emit trng_init_events (with_conditioning_key_set false w)).
        split; [reflexivity|]. rewrite now_emit.
        change (now (with_conditioning_key_set false w)) with (now w). lia.
      - exists w. split; [reflexivity|lia]. }
    rewrite (bind_run _ _ _ _ _ Hrun).
    destruct (cracen_trng_get_spec p_buf size w1 Hs) as (r & dst' & evs & set' & Hget & Hout).
    rewrite (bind_run _ _ _ _ _ Hget).
    destruct (decide (r = OK)) as [Hr|Hr];
      [rewrite bool_decide_eq_true_2 by done; eauto|].
    rewrite bool_decide_eq_false_2 by done.
    assert (Hdst : dst' = p_buf) by (destruct Hout; congruence).
    subst dst'. apply IH.
    destruct (trng_get_outcome_events _ _ _ _ _ _ _ _ Hout) as [_ Hlen].
    change (now (with_conditioning_key_set set' (emit evs w1))) with (now (emit evs w1)).
    rewrite now_emit. lia.
Qed.

Lemma rng_get_entropy_loop_returns (T : nat) (ret_ : Z) (p_buf : list Z) (size : Z)
    (w : world) :
  0 <= size ->
  rng_ready_from hw size T ->
  exists buf' w', returns (fun f => rng_get_entropy_loop hw f ret_ p_buf size) w buf' w'.
Proof.
  intros Hs Hready.
  destruct (rng_get_entropy_loop_terminates T p_buf size T Hs Hready ret_ w ltac:(lia))
    as (buf' & w' & H).
  exists buf', w', (S T). intros f Hf. now apply (rng_get_entropy_loop_mono (S T)).
Qed.

(** *** nrfx_cracen_rng_get_entropy *)

Lemma nrfx_cracen_rng_get_entropy_too_big (fuel : nat) (p_buf : list Z) (size : Z)
    (w : world) :
  size > rng_max_size mdk ->
  nrfx_cracen_rng_get_entropy mdk hw fuel p_buf size w = Some ((ERR_TOO_BIG, p_buf), w).
Proof.
  intros H. unfold nrfx_cracen_rng_get_entropy. now rewrite bool_decide_eq_true_2.
Qed.

Lemma nrfx_cracen_rng_get_entropy_unfold (fuel : nat) (p_buf : list Z) (size : Z)
    (w : world) :
  size <= rng_max_size mdk ->
  nrfx_cracen_rng_get_entropy mdk hw fuel p_buf size w
  = match rng_get_entropy_loop hw fuel TRNG_RESET_NEEDED p_buf size
            (set_rng_enabled true (emit [ev_module_enable RNG] w)) with
    | Some (buf', w1) =>
        Some ((OK, buf'), set_rng_enabled false (emit [ev_module_disable RNG] w1))
    | None => None
    end.
Proof.
  intros H. unfold nrfx_cracen_rng_get_entropy.
  rewrite bool_decide_eq_false_2 by lia.
  rewrite (bind_run _ _ _ _ _
             (eq_refl : nrf_cracen_module_enable RNG w
                        = Some (tt, set_rng_enabled true (emit [ev_module_enable RNG] w)))).
  unfold bind at 1.
  destruct (rng_get_entropy_loop _ _ _ _ _ _) as [[buf' w1]|]; reflexivity.
Qed.

Lemma nrfx_cracen_rng_get_entropy_mono (fuel fuel' : nat) (p_buf : list Z) (size : Z)
    (w : world) (x : Z * list Z * world) :
  nrfx_cracen_rng_get_entropy mdk hw fuel p_buf size w = Some x -> (fuel <= fuel')%nat ->
  nrfx_cracen_rng_get_entropy mdk hw fuel' p_buf size w = Some x.
Proof.
  intros H Hf. destruct (decide (size > rng_max_size mdk)) as [Hbig|Hok].
  - rewrite nrfx_cracen_rng_get_entropy_too_big in * by done. done.
  - rewrite nrfx_cracen_rng_get_entropy_unfold in * by lia.
    destruct (rng_get_entropy_loop hw fuel _ _ _ _) as [[buf' w1]|] eqn:Hl; [|done].
    now rewrite (rng_get_entropy_loop_mono _ _ _ _ _ _ _ Hl Hf).
Qed.

Lemma nrfx_cracen_rng_get_entropy_inv (fuel : nat) (p_buf : list Z) (size : Z)
    (w w' : world) (r : Z) (buf' : list Z) :
  0 <= size ->
  nrfx_cracen_rng_get_entropy mdk hw fuel p_buf size w = Some ((r, buf'), w') ->
  size > rng_max_size mdk /\ r = ERR_TOO_BIG /\ buf' = p_buf /\ w' = w
  \/ size <= rng_max_size mdk /\ r = OK
     /\ exists evs k0 k1 k2 k3 words,
          trace w' = ev_module_disable RNG :: evs ++ ev_module_enable RNG :: trace w
          /\ Forall (fun e => is_rng_event e = true) evs
          /\ entropy_invocations evs = 0%nat
          /\ cm_jobs evs = 0%nat
          /\ prng w' = prng w /\ cm_enabled w' = cm_enabled w /\ rng_enabled w' = false
          /\ length words = words_for size
          /\ buf' = list_inserts 0 (take (Z.to_nat size) (flat_map le_bytes words)) p_buf
          /\ fifo_words (since_reset (trace w')) = rev words ++ [k3; k2; k1; k0]
          /\ key_words_set (since_reset (trace w')) = [(3, k3); (2, k2); (1, k1); (0, k0)].
Proof.
  intros Hs H. destruct (decide (size > rng_max_size mdk)) as [Hbig|Hok].
  - rewrite nrfx_cracen_rng_get_entropy_too_big in H by done.
    injection H as <- <- <-. left. done.
  - rewrite nrfx_cracen_rng_get_entropy_unfold in H by lia.
    destruct (rng_get_entropy_loop _ _ _ _ _ _) as [[buf1 w1]|] eqn:Hl; [|done].
    injection H as <- <- <-. right. split; [lia|]. split; [done|].
    apply rng_get_entropy_loop_inv in Hl
      as (evs & k0 & k1 & k2 & k3 & words & Htr & HF & HE & HC & Hp & Hc & Hr
          & Hlen & Hbuf & Hfw & Hkw); [|done|now left].
    exists evs, k0, k1, k2, k3, words.
    cbn [trace prng cm_enabled rng_enabled set_rng_enabled emit app since_reset
         is_soft_reset fifo_words key_words_set].
    rewrite Htr. repeat split; try done.
    + now rewrite <- Htr.
    + now rewrite <- Htr.
Qed.

Lemma nrfx_cracen_rng_get_entropy_returns (T : nat) (p_buf : list Z) (size : Z) (w : world) :
  0 <= size <= rng_max_size mdk ->
  rng_ready_from hw size T ->
  exists buf' w',
    returns (fun f => nrfx_cracen_rng_get_entropy mdk hw f p_buf size) w (OK, buf') w'.
Proof.
  intros Hs Hready.
  destruct (rng_get_entropy_loop_returns T TRNG_RESET_NEEDED p_buf size
              (set_rng_enabled true (emit [ev_module_enable RNG] w)) ltac:(lia) Hready)
    as (buf' & w1 & f0 & H).
  exists buf', (set_rng_enabled false (emit [ev_module_disable RNG] w1)), f0.
  intros f Hf. rewrite nrfx_cracen_rng_get_entropy_unfold by lia. now rewrite (H f Hf).
Qed.

End Trng.

Section Ctr_drbg.

Variable mdk : cracen_mdk.
Variable hw : cracen_hw.

(** ** The CTR_DRBG functions *)

Lemma entropy_events_counts (evs : list hal_event) :
  entropy_events evs -> entropy_invocations evs = 1%nat /\ cm_jobs evs = 0%nat.
Proof.
  intros (mid & -> & _ & HE & HC).
  change (ev_module_disable RNG :: mid ++ [ev_module_enable RNG])
    with ([ev_module_disable RNG] ++ mid ++ [ev_module_enable RNG]).
  rewrite !entropy_invocations_app, !cm_jobs_app, HE, HC. done.
Qed.

Lemma flat_map_le_bytes_length (words : list Z) :
  length (flat_map le_bytes words) = (4 * length words)%nat.
Proof.
  induction words as [|x l IH]; [done|]. cbn [flat_map]. rewrite length_app, IH.
  cbn [le_bytes length]. lia.
Qed.

Lemma flat_map_le_bytes_bytes (words : list Z) : bytes (flat_map le_bytes words).
Proof.
  induction words as [|x l IH]; [constructor|]. cbn [flat_map]. apply Forall_app.
  split; [|exact IH]. repeat constructor; apply land_255_byte.
Qed.

(** The seed is 48 bytes. *)
Lemma entropy_buffer (words : list Z) :
  length words = words_for ENTROPY_SIZE ->
  let entropy := list_inserts 0 (take (Z.to_nat ENTROPY_SIZE) (flat_map le_bytes words))
                   (replicate (Z.to_nat ENTROPY_SIZE) 0) in
  length entropy = 48%nat /\ bytes entropy.
Proof.
  intros Hlen entropy. change (words_for ENTROPY_SIZE) with 12%nat in Hlen.
  assert (Hfl : length (flat_map le_bytes words) = 48%nat)
    by (rewrite flat_map_le_bytes_length, Hlen; reflexivity).
  subst entropy. change (Z.to_nat ENTROPY_SIZE) with 48%nat.
  rewrite take_ge by lia.
  rewrite <- (app_nil_r (replicate 48 0)).
  rewrite list_inserts_0_r by (rewrite length_replicate; lia).
  rewrite app_nil_r. split; [done|apply flat_map_le_bytes_bytes].
Qed.

Lemma cracen_ctr_drbg_reseed_inv (fuel : nat) (w w' : world) (r : Z) :
  cracen_ctr_drbg_reseed mdk hw fuel w = Some (r, w') ->
  ENTROPY_SIZE > rng_max_size mdk /\ r = -1 /\ w' = w
  \/ ENTROPY_SIZE <= rng_max_size mdk
     /\ exists entropy w1 evs_e k r0 evs_u,
          nrfx_cracen_rng_get_entropy mdk hw fuel (replicate (Z.to_nat ENTROPY_SIZE) 0)
            ENTROPY_SIZE w = Some ((OK, entropy), w1)
          /\ length entropy = 48%nat /\ bytes entropy
          /\ trace w1 = evs_e ++ trace w /\ entropy_events evs_e
          /\ trace w' = evs_u ++ trace w1 /\ aes_jobs mdk k r0 evs_u /\ (1 <= k <= 3)%nat
          /\ cm_enabled w' = false
          /\ initialized (prng w') = initialized (prng w)
          /\ (r = 0 /\ r0 = 0 /\ k = 3%nat
               /\ reseed_counter (prng w') = 1
               /\ (cm_pushes_blocks hw ->
                   let temp := drbg_update_temp hw (Some entropy)
                                 (key (prng w)) (V (prng w)) in
                   key (prng w') = take (Z.to_nat KEY_SIZE) temp
                   /\ V (prng w')
                      = take (Z.to_nat AES_BLK_SZ) (drop (Z.to_nat KEY_SIZE) temp))
              \/ r = -1 /\ r0 = -2
                 /\ prng w' = with_V (be_incr_n k (V (prng w))) (prng w)).
Proof.
  unfold cracen_ctr_drbg_reseed. intros H. inv_bind H. destruct a as [r1 entropy].
  apply nrfx_cracen_rng_get_entropy_inv in E as HE; [|unfold ENTROPY_SIZE, KEY_SIZE, AES_BLK_SZ; lia].
  destruct HE as [(Hbig & -> & -> & ->)|(Hok & -> & evs & k0 & k1 & k2 & k3 & words & Htr
                                        & HF & HEn & HC & Hp & Hc & Hr & Hlen & Hbuf & _)].
  - rewrite bool_decide_eq_true_2 in H by done. injection H as <- <-. left. done.
  - right. split; [done|].
    rewrite bool_decide_eq_false_2 in H by (intros Hf; now apply Hf).
    inv_bind H.
    apply ctr_drbg_update_inv in E0
      as (k & r0 & evs_u & Hjobs & Hk & Htr' & Hen & Hrc & Hin & Hres).
    destruct (entropy_buffer words Hlen) as [Hel Heb]. rewrite <- Hbuf in Hel, Heb.
    exists entropy, w0, (ev_module_disable RNG :: evs ++ [ev_module_enable RNG]), k, r0, evs_u.
    split; [done|]. split; [done|]. split; [done|].
    split; [rewrite Htr; cbn [app]; now rewrite <- app_assoc|].
    split; [exists evs; done|].
    destruct Hres as [(-> & -> & -> & Hst)|(-> & -> & Hst)].
    + rewrite bool_decide_eq_false_2 in H by lia.
      injection H as <- <-.
      cbn [prng trace cm_enabled key V reseed_counter initialized].
      rewrite Hin, Hp. repeat split; try done; try lia.
      left. split; [done|]. split; [done|]. split; [done|]. split; [done|].
      intros Hwf. rewrite <- Hp. now apply Hst.
    + rewrite bool_decide_eq_true_2 in H by lia. injection H as <- <-.
      rewrite Hin, Hp. repeat split; try done; try lia.
      right. split; [done|]. split; [done|]. now rewrite Hst, Hp.
Qed.

Lemma cracen_ctr_drbg_reseed_returns (T : nat) (w : world) :
  cm_completes mdk hw ->
  ENTROPY_SIZE <= rng_max_size mdk ->
  rng_ready_from hw ENTROPY_SIZE T ->
  exists w', returns (fun f => cracen_ctr_drbg_reseed mdk hw f) w 0 w'.
Proof.
  intros Hc Hmax Hready.
  destruct (nrfx_cracen_rng_get_entropy_returns mdk hw T
              (replicate (Z.to_nat ENTROPY_SIZE) 0) ENTROPY_SIZE w) as (ent & w1 & f1 & H1);
    [unfold ENTROPY_SIZE, KEY_SIZE, AES_BLK_SZ in *; lia|done|].
  destruct (ctr_drbg_update_returns mdk hw (Some ent) w1 Hc) as (w2 & f2 & H2).
  eexists. exists (Nat.max f1 f2). intros f Hf. unfold cracen_ctr_drbg_reseed.
  rewrite (bind_run _ _ _ _ _ (H1 f ltac:(lia))).
  rewrite bool_decide_eq_false_2 by (intros Hf'; now apply Hf').
  rewrite (bind_run _ _ _ _ _ (H2 f ltac:(lia))).
  rewrite bool_decide_eq_false_2 by lia. reflexivity.
Qed.

(** The same, given a run of the entropy source. *)
Lemma cracen_ctr_drbg_reseed_returns_from (fuel : nat) (entropy : list Z) (w w1 : world) :
  cm_completes mdk hw ->
  nrfx_cracen_rng_get_entropy mdk hw fuel (replicate (Z.to_nat ENTROPY_SIZE) 0)
    ENTROPY_SIZE w = Some ((OK, entropy), w1) ->
  exists w', returns (fun f => cracen_ctr_drbg_reseed mdk hw f) w 0 w'.
Proof.
  intros Hc H1.
  destruct (ctr_drbg_update_returns mdk hw (Some entropy) w1 Hc) as (w2 & f2 & H2).
  eexists. exists (Nat.max fuel f2). intros f Hf. unfold cracen_ctr_drbg_reseed.
  rewrite (bind_run _ _ _ _ _
             (nrfx_cracen_rng_get_entropy_mono mdk hw _ f _ _ _ _ H1 ltac:(lia))).
  rewrite bool_decide_eq_false_2 by (intros Hf'; now apply Hf').
  rewrite (bind_run _ _ _ _ _ (H2 f ltac:(lia))).
  rewrite bool_decide_eq_false_2 by lia. reflexivity.
Qed.

Lemma nrfx_cracen_ctr_drbg_init_unfold (fuel : nat) (w : world) :
  nrfx_cracen_ctr_drbg_init mdk hw fuel w
  = match cracen_ctr_drbg_reseed mdk hw fuel (with_prng prng_zero w) with
    | Some (r, w1) =>
        if bool_decide (r <> 0) then Some (r, w1)
        else Some (0, with_prng (with_initialized true (prng w1)) w1)
    | None => None
    end.
Proof.
  unfold nrfx_cracen_ctr_drbg_init.
  rewrite (bind_run _ _ _ _ _ (eq_refl : put_prng prng_zero w
                                         = Some (tt, with_prng prng_zero w))).
  unfold bind at 1.
  destruct (cracen_ctr_drbg_reseed _ _ _ _) as [[r w1]|]; [|done].
  case_bool_decide; reflexivity.
Qed.

(** *** The output phase of nrfx_cracen_ctr_drbg_get_random *)

Lemma aes_jobs_app (k1 k2 : nat) (r : Z) (evs1 evs2 : list hal_event) :
  aes_jobs mdk k1 0 evs1 -> aes_jobs mdk k2 r evs2 -> (1 <= k2)%nat ->
  aes_jobs mdk (k2 + k1) r (evs2 ++ evs1).
Proof.
  intros H1 H2. induction H2 as [|k r evs evs0 Hjobs IH Hjob]; intros Hk; [lia|].
  rewrite <- app_assoc. cbn [Nat.add]. apply aes_jobs_S; [|done].
  destruct k as [|k].
  - inversion Hjobs; subst. exact H1.
  - apply IH. lia.
Qed.

Lemma get_random_generate_inv (fuel : nat) (p_buf : option (list Z)) (size : Z)
    (w w' : world) (r : Z) (p_buf' : option (list Z)) :
  0 <= size ->
  get_random_generate mdk hw fuel p_buf size w = Some ((r, p_buf'), w') ->
  exists k r0 evs,
    aes_jobs mdk k r0 evs /\ (1 <= k)%nat
    /\ trace w' = evs ++ trace w
    /\ cm_enabled w' = false
    /\ initialized (prng w') = initialized (prng w)
    /\ (p_buf = None -> p_buf' = None)
    /\ (r = 0 /\ r0 = 0 /\ k = (3 + Reference.chunks size)%nat
         /\ reseed_counter (prng w') = (reseed_counter (prng w) + 1) mod 2 ^ 64
         /\ (cm_pushes_blocks hw ->
             let n := Reference.chunks size in
             let temp := drbg_update_temp hw None (key (prng w))
                           (be_incr_n n (V (prng w))) in
             key (prng w') = take (Z.to_nat KEY_SIZE) temp
             /\ V (prng w') = take (Z.to_nat AES_BLK_SZ) (drop (Z.to_nat KEY_SIZE) temp)
             /\ forall buf, p_buf = Some buf -> (Z.to_nat size <= length buf)%nat ->
                  p_buf' = Some (take (Z.to_nat size)
                                   (drbg_blocks hw n (key (prng w)) (V (prng w)))
                                 ++ drop (Z.to_nat size) buf))
        \/ r = -1 /\ r0 = -2 /\ (k <= 3 + Reference.chunks size)%nat
           /\ key (prng w') = key (prng w)
           /\ reseed_counter (prng w') = reseed_counter (prng w)
           /\ V (prng w') = be_incr_n k (V (prng w))).
Proof.
  intros Hs H. unfold get_random_generate in H. inv_bind H. destruct a as [r1 buf].
  assert (Hsn : 0 <= size <= Z.of_nat (Z.to_nat size)) by (clear - Hs; lia).
  apply (get_random_loop_inv mdk hw _ _ _ _ _ _ _ _ _ Hsn) in E
    as (k1 & r1' & evs1 & Hjobs1 & Htr1 & Hprng1 & Hen1 & Hk0 & Hres1).
  destruct Hres1 as [(-> & -> & -> & Hbuf)|(-> & -> & Hk1)].
  2:{ rewrite bool_decide_eq_true_2 in H by lia. injection H as <- <- <-.
      exists k1, (-2), evs1. rewrite Hprng1. cbn [key V reseed_counter initialized with_V].
      split; [done|]. split; [lia|]. split; [done|]. split; [apply Hen1; lia|].
      split; [done|]. split; [now intros ->|]. right. repeat split; try done. lia. }
  rewrite bool_decide_eq_false_2 in H by lia. inv_bind H.
  apply ctr_drbg_update_inv in E
    as (k2 & r2 & evs2 & Hjobs2 & Hk2 & Htr2 & Hen2 & Hrc2 & Hin2 & Hres2).
  exists (k2 + Reference.chunks size)%nat, r2, (evs2 ++ evs1).
  split; [apply aes_jobs_app; [done|done|lia]|]. split; [lia|].
  destruct Hres2 as [(-> & -> & -> & Hst)|(-> & -> & Hst)].
  - rewrite bool_decide_eq_false_2 in H by lia.
    unfold set_reseed_counter, get_prng, put_prng, bind, ret in H. cbn [prng] in H.
    injection H as <- <- <-.
    cbn [prng trace cm_enabled key V reseed_counter initialized].
    rewrite Htr2, Htr1, app_assoc, Hin2, Hrc2, Hprng1.
    cbn [key V reseed_counter initialized with_V].
    split; [done|]. split; [done|]. split; [done|]. split; [now intros ->|].
    left. split; [done|]. split; [done|]. split; [done|]. split; [done|].
    intros Hwf. destruct (Hst Hwf) as [HK HV]. rewrite Hprng1 in HK, HV.
    cbn [key V with_V] in HK, HV. cbv zeta. split; [exact HK|]. split; [exact HV|].
    intros buf0 -> Hlen. change (default [] (Some buf0)) with buf0 in Hbuf.
    rewrite (Hbuf Hwf) by (cbn [Nat.add]; lia). cbn [Nat.add]. now rewrite take_0.
  - rewrite bool_decide_eq_true_2 in H by lia. injection H as <- <- <-.
    rewrite Hst. cbn [key V reseed_counter initialized with_V].
    rewrite Htr2, Htr1, app_assoc, Hprng1. cbn [key V reseed_counter initialized with_V].
    split; [done|]. split; [done|]. split; [done|].
    split; [now intros ->|]. right.
    split; [done|]. split; [done|]. split; [lia|]. split; [done|]. split; [done|].
    clear. revert w. generalize (Reference.chunks size) as n. intros n w.
    generalize (V (prng w)) as v. induction n as [|n IH]; intros v.
    + now rewrite Nat.add_0_r.
    + rewrite Nat.add_succ_r. cbn [be_incr_n]. apply IH.
Qed.

Lemma get_random_generate_returns (p_buf : option (list Z)) (size : Z) (w : world) :
  cm_completes mdk hw ->
  exists p_buf' w',
    returns (fun f => get_random_generate mdk hw f p_buf size) w (0, p_buf') w'.
Proof.
  intros Hc.
  destruct (get_random_loop_returns mdk hw (Z.to_nat size) (default [] p_buf) 0 size w Hc)
    as (buf & w1 & f1 & H1).
  destruct (ctr_drbg_update_returns mdk hw None w1 Hc) as (w2 & f2 & H2).
  do 2 eexists. exists (Nat.max f1 f2). intros f Hf. unfold get_random_generate.
  rewrite (bind_run _ _ _ _ _ (H1 f ltac:(lia))).
  rewrite bool_decide_eq_false_2 by lia.
  rewrite (bind_run _ _ _ _ _ (H2 f ltac:(lia))).
  rewrite bool_decide_eq_false_2 by lia. reflexivity.
Qed.

(** *** nrfx_cracen_ctr_drbg_get_random, by cases *)

Lemma invalid_request_dec (p_buf : option (list Z)) (size : Z) :
  {invalid_request p_buf size} + {~ invalid_request p_buf size}.
Proof.
  unfold invalid_request.
  destruct (decide (size > 0)), (decide (p_buf = None)), (decide (size > MAX_BYTES_PER_REQUEST));
    first [left; tauto | right; tauto].
Qed.

Lemma get_random_invalid (fuel : nat) (p_buf : option (list Z)) (size : Z) (w : world) :
  invalid_request p_buf size ->
  nrfx_cracen_ctr_drbg_get_random mdk hw fuel p_buf size w = Some ((-2, p_buf), w).
Proof.
  intros Hinv. unfold nrfx_cracen_ctr_drbg_get_random.
  destruct (bool_decide (size > 0) && bool_decide (p_buf = None)) eqn:Hnull; [done|].
  destruct Hinv as [[H1 H2]|H].
  - rewrite !bool_decide_eq_true_2 in Hnull by done. done.
  - now rewrite bool_decide_eq_true_2.
Qed.

Lemma get_random_valid (fuel : nat) (p_buf : option (list Z)) (size : Z) (w : world) :
  ~ invalid_request p_buf size ->
  nrfx_cracen_ctr_drbg_get_random mdk hw fuel p_buf size w
  = match (if negb (initialized (prng w))
           then nrfx_cracen_ctr_drbg_init mdk hw fuel else ret 0) w with
    | Some (r, w1) =>
        if bool_decide (r <> 0) then Some ((-1, p_buf), w1)
        else
          match (if bool_decide (reseed_counter (prng w1) >= RESEED_INTERVAL)
                 then cracen_ctr_drbg_reseed mdk hw fuel else ret 0) w1 with
          | Some (r, w2) =>
              if bool_decide (r <> 0) then Some ((-1, p_buf), w2)
              else get_random_generate mdk hw fuel p_buf size w2
          | None => None
          end
    | None => None
    end.
Proof.
  intros Hval. unfold nrfx_cracen_ctr_drbg_get_random, invalid_request in *.
  destruct (bool_decide (size > 0) && bool_decide (p_buf = None)) eqn:Hnull.
  { apply andb_true_iff in Hnull as [H1 H2]. apply bool_decide_eq_true in H1, H2. tauto. }
  rewrite bool_decide_eq_false_2 by tauto.
  unfold bind at 1. cbn [get_prng]. unfold bind at 1.
  destruct ((if negb (initialized (prng w))
             then nrfx_cracen_ctr_drbg_init mdk hw fuel else ret 0) w) as [[r w1]|]; [|done].
  destruct (bool_decide (r <> 0)); [done|].
  unfold bind at 1. cbn [get_prng]. unfold bind at 1.
  destruct ((if bool_decide (reseed_counter (prng w1) >= RESEED_INTERVAL)
             then cracen_ctr_drbg_reseed mdk hw fuel else ret 0) w1) as [[r2 w2]|]; [|done].
  destruct (bool_decide (r2 <> 0)); done.
Qed.

(** *** The driver's blocks are the reference's *)

Lemma pow_256_16 : 256 ^ Z.of_nat 16 = 2 ^ 128.
Proof. reflexivity. Qed.

Lemma be_incr_block (v : list Z) :
  bytes v -> length v = 16%nat ->
  be_incr v (Z.to_nat AES_BLK_SZ) = be_bytes 16 ((be_value v + 1) mod 2 ^ 128).
Proof.
  intros Hb Hl. change (Z.to_nat AES_BLK_SZ) with 16%nat. rewrite <- Hl at 1.
  destruct (be_incr_spec v Hb) as (Hlen & Hbytes & Hval).
  rewrite Hl, pow_256_16 in Hval. rewrite <- Hval.
  rewrite <- (be_bytes_be_value (be_incr v (length v))) at 1 by done.
  now rewrite Hlen, Hl.
Qed.

Lemma reference_blocks_mod (E : list Z -> list Z -> list Z) (n : nat) (K : list Z) (v : Z) :
  Reference.blocks E n K (v mod 2 ^ 128) = Reference.blocks E n K v.
Proof.
  destruct n as [|n]; [done|]. cbn [Reference.blocks].
  now rewrite Zplus_mod_idemp_l.
Qed.

Lemma drbg_blocks_reference (n : nat) (K : list Z) (c : Z) :
  length K = 32%nat ->
  drbg_blocks hw n K (be_bytes 16 c) = Reference.blocks (cm_block_encrypt hw) n K c
  /\ be_incr_n n (be_bytes 16 c) = be_bytes 16 ((c + Z.of_nat n) mod 2 ^ 128).
Proof.
  intros HK. revert c. induction n as [|n IH]; intros c.
  - split; [done|]. cbn [be_incr_n]. rewrite Z.add_0_r.
    rewrite <- (be_bytes_be_value (be_bytes 16 c)) at 1 by apply be_bytes_bytes.
    now rewrite be_bytes_length, be_value_be_bytes, pow_256_16.
  - cbn [drbg_blocks be_incr_n Reference.blocks].
    rewrite be_incr_block by (apply be_bytes_bytes || apply be_bytes_length).
    rewrite be_value_be_bytes, pow_256_16, Zplus_mod_idemp_l.
    destruct (IH ((c + 1) mod 2 ^ 128)) as [IH1 IH2]. rewrite IH1, IH2.
    change (Z.to_nat KEY_SIZE) with 32%nat. change (Z.to_nat AES_BLK_SZ) with 16%nat.
    rewrite (take_ge K) by lia. rewrite take_ge by (rewrite be_bytes_length; lia).
    split; [done|]. rewrite Zplus_mod_idemp_l. f_equal. f_equal. lia.
Qed.

Lemma reference_blocks_length (n : nat) (K : list Z) (c : Z) :
  cm_pushes_blocks hw ->
  length (Reference.blocks (cm_block_encrypt hw) n K c) = (16 * n)%nat
  /\ bytes (Reference.blocks (cm_block_encrypt hw) n K c).
Proof.
  intros Hwf. revert c. induction n as [|n IH]; intros c; [split; [done|constructor]|].
  cbn [Reference.blocks]. destruct (IH ((c + 1) mod 2 ^ 128)) as [IH1 IH2].
  destruct (Hwf K (be_bytes 16 ((c + 1) mod 2 ^ 128))) as [H1 H2].
  rewrite length_app, H1, IH1. split; [lia|]. now apply Forall_app.
Qed.

Lemma zip_with_lxor_bytes (a b : list Z) : bytes a -> bytes b -> bytes (zip_with Z.lxor a b).
Proof.
  intros Ha. revert b. induction Ha as [|x a Hx Ha IH]; intros b Hb; [constructor|].
  destruct Hb as [|y b Hy Hb]; [constructor|]. cbn [zip_with].
  constructor; [now apply lxor_byte|now apply IH].
Qed.

(** [ctr_drbg_update] computes the reference's update. *)
Lemma drbg_update_temp_reference (data : option (list Z)) (K : list Z) (c : Z) :
  cm_pushes_blocks hw -> length K = 32%nat ->
  (forall d, data = Some d -> length d = 48%nat /\ bytes d) ->
  let temp := drbg_update_temp hw data K (be_bytes 16 c) in
  let '(K', c') := Reference.update (cm_block_encrypt hw) data K c in
  take (Z.to_nat KEY_SIZE) temp = K'
  /\ take (Z.to_nat AES_BLK_SZ) (drop (Z.to_nat KEY_SIZE) temp) = be_bytes 16 c'
  /\ length K' = 32%nat.
Proof.
  intros Hwf HK Hd. unfold drbg_update_temp, Reference.update.
  destruct (drbg_blocks_reference 3 K c HK) as [-> _].
  destruct (reference_blocks_length 3 K c Hwf) as [Hlen Hbytes].
  set (blocks := Reference.blocks (cm_block_encrypt hw) 3 K c) in *.
  change (Z.to_nat KEY_SIZE) with 32%nat. change (Z.to_nat AES_BLK_SZ) with 16%nat.
  assert (Hgen : forall temp, length temp = 48%nat -> bytes temp ->
            take 32 temp = take 32 temp
            /\ take 16 (drop 32 temp) = be_bytes 16 (be_value (take 16 (drop 32 temp)))
            /\ length (take 32 temp) = 32%nat).
  { intros temp Hl Hb. split; [done|]. split.
    - rewrite <- (be_bytes_be_value (take 16 (drop 32 temp))) at 1.
      + rewrite length_take, length_drop, Hl. reflexivity.
      + apply Forall_take, Forall_drop, Hb.
    - rewrite length_take, Hl. reflexivity. }
  destruct data as [d|].
  - destruct (Hd d eq_refl) as [Hdl Hdb].
    rewrite xor_array_spec by done.
    apply Hgen.
    + rewrite length_zip_with, Hlen, Hdl. reflexivity.
    + now apply zip_with_lxor_bytes.
  - now apply Hgen.
Qed.

End Ctr_drbg.

Section Phases.

Variable mdk : cracen_mdk.
Variable hw : cracen_hw.

(** ** nrfx_cracen_ctr_drbg_init and the phases of get_random *)

Lemma cm_polls_done_head (polls : list hal_event) :
  cm_polls mdk 0 polls ->
  exists rest, polls = ev_cm_status_get (cm_busy_mask mdk) 0 :: rest.
Proof.
  intros H. remember 0 as r eqn:Hr. induction H as [v Hv|v Hv|v b r evs Hv Hb Hp IH].
  - done.
  - eauto.
  - destruct (IH Hr) as (rest & ->). eauto.
Qed.

Lemma aes_jobs_done (k : nat) (evs : list hal_event) :
  aes_jobs mdk k 0 evs -> (1 <= k)%nat ->
  exists rest,
    evs = ev_module_disable CRYPTOMASTER :: ev_cm_softreset
          :: ev_cm_status_get (cm_busy_mask mdk) 0 :: rest.
Proof.
  inversion 1 as [|k' r evs1 evs0 Hjobs Hjob]; subst; [lia|]. intros _.
  destruct Hjob as (polls & kp & ks & i & o & Hp & ->).
  apply cm_polls_done_head in Hp as (rest & ->). eauto.
Qed.

(** A job that answered 0 is not a failed job. *)
Lemma aes_jobs_done_not_failed (k : nat) (evs : list hal_event) (w w' : world) :
  aes_jobs mdk k 0 evs -> (1 <= k)%nat -> trace w' = evs ++ trace w ->
  ~ cm_job_failed mdk w'.
Proof.
  intros Hjobs Hk Htr (v & rest & Hf & _).
  apply aes_jobs_done in Hjobs as (rest' & ->); [|done].
  rewrite Htr in Hf. discriminate Hf.
Qed.

Lemma aes_jobs_failed_world (k : nat) (evs : list hal_event) (w w' : world) :
  aes_jobs mdk k (-2) evs -> trace w' = evs ++ trace w -> cm_job_failed mdk w'.
Proof.
  intros Hjobs Htr. apply aes_jobs_failed in Hjobs as (_ & v & rest & -> & Hv).
  exists v, (rest ++ trace w). now rewrite Htr.
Qed.

Lemma nrfx_cracen_ctr_drbg_init_inv (fuel : nat) (w w' : world) (r : Z) :
  nrfx_cracen_ctr_drbg_init mdk hw fuel w = Some (r, w') ->
  exists w1,
    cracen_ctr_drbg_reseed mdk hw fuel (with_prng prng_zero w) = Some (r, w1)
    /\ trace w' = trace w1 /\ cm_enabled w' = cm_enabled w1
    /\ (r = 0 /\ prng w' = with_initialized true (prng w1)
        \/ r <> 0 /\ w' = w1).
Proof.
  rewrite nrfx_cracen_ctr_drbg_init_unfold.
  destruct (cracen_ctr_drbg_reseed _ _ _ _) as [[r1 w1]|]; [|done].
  case_bool_decide as Hr; intros [= <- <-]; exists w1.
  - repeat split; try done. right. done.
  - assert (r1 = 0) as -> by lia. repeat split; try done. left. done.
Qed.

Lemma get_random_phases (fuel : nat) (p_buf : option (list Z)) (size : Z)
    (w w' : world) (x : Z * option (list Z)) :
  ~ invalid_request p_buf size ->
  nrfx_cracen_ctr_drbg_get_random mdk hw fuel p_buf size w = Some (x, w') ->
  exists r0 w2,
    pre_phase mdk hw fuel w r0 w2
    /\ (r0 <> 0 /\ x = (-1, p_buf) /\ w' = w2
        \/ r0 = 0 /\ get_random_generate mdk hw fuel p_buf size w2 = Some (x, w')).
Proof.
  intros Hval. rewrite get_random_valid by done.
  destruct (initialized (prng w)) eqn:Hinit; cbn [negb].
  - change (ret 0 w) with (Some (0, w)). cbv beta iota.
    rewrite bool_decide_eq_false_2 by lia.
    destruct (decide (reseed_counter (prng w) >= RESEED_INTERVAL)) as [Hge|Hlt].
    + rewrite bool_decide_eq_true_2 by done.
      destruct (cracen_ctr_drbg_reseed _ _ _ _) as [[r2 w2]|] eqn:Hre; [|done].
      intros H. exists r2, w2. split; [now apply pre_reseed|].
      case_bool_decide as Hr2.
      * injection H as <- <-. left. done.
      * right. split; [lia|done].
    + rewrite bool_decide_eq_false_2 by done. change (ret 0 w) with (Some (0, w)).
      cbv beta iota. rewrite bool_decide_eq_false_2 by lia.
      intros H. exists 0, w. split; [apply pre_none; [done|lia]|]. right. done.
  - destruct (nrfx_cracen_ctr_drbg_init _ _ _ _) as [[r1 w1]|] eqn:Hi; [|done].
    intros H. exists r1, w1. split; [now apply pre_init|].
    case_bool_decide as Hr1.
    + injection H as <- <-. left. done.
    + assert (r1 = 0) as -> by lia. right. split; [done|].
      apply nrfx_cracen_ctr_drbg_init_inv in Hi as (w0 & Hre & _ & _ & Hres).
      destruct Hres as [[_ Hprng]|[Hne _]]; [|done].
      apply cracen_ctr_drbg_reseed_inv in Hre
        as [(_ & Hf & _)|(_ & ent & w3 & evs_e & k & r0 & evs_u & _ & _ & _ & _ & _ & _ & _
                          & _ & _ & _ & Hres)]; [done|].
      destruct Hres as [(_ & _ & _ & Hrc & _)|(Hf & _)]; [|done].
      rewrite bool_decide_eq_false_2 in H.
      2:{ rewrite Hprng. cbn [reseed_counter with_initialized]. rewrite Hrc.
          unfold RESEED_INTERVAL. change (Z.shiftl 1 48) with 281474976710656. lia. }
      change (ret 0 w1) with (Some (0, w1)) in H. cbv beta iota in H.
      now rewrite bool_decide_eq_false_2 in H by lia.
Qed.

(** What the step before the output loop leaves behind. *)
Lemma pre_phase_inv (fuel : nat) (w w2 : world) (r : Z) :
  pre_phase mdk hw fuel w r w2 ->
  (r = 0 \/ r = -1)
  /\ (cm_enabled w = false -> cm_enabled w2 = false)
  /\ (r = 0 -> initialized (prng w2) = true)
  /\ exists evs,
       trace w2 = evs ++ trace w
       /\ (evs = [] /\ cm_enabled w2 = cm_enabled w
              /\ (r = 0 -> prng w2 = prng w /\ reseed_counter (prng w) < RESEED_INTERVAL
                           /\ initialized (prng w) = true)
           \/ ENTROPY_SIZE <= rng_max_size mdk
              /\ exists evs_e k r0 evs_u,
                   evs = evs_u ++ evs_e /\ entropy_events evs_e
                   /\ aes_jobs mdk k r0 evs_u /\ (1 <= k <= 3)%nat
                   /\ cm_enabled w2 = false
                   /\ (r = 0 /\ r0 = 0 /\ reseed_counter (prng w2) = 1
                       \/ r = -1 /\ r0 = -2)).
Proof.
  assert (Hre : forall w0 w1 r1,
            cracen_ctr_drbg_reseed mdk hw fuel w0 = Some (r1, w1) ->
            (r1 = 0 \/ r1 = -1)
            /\ (cm_enabled w0 = false -> cm_enabled w1 = false)
            /\ initialized (prng w1) = initialized (prng w0)
            /\ exists evs,
                 trace w1 = evs ++ trace w0
                 /\ (evs = [] /\ w1 = w0 /\ r1 = -1
                     \/ ENTROPY_SIZE <= rng_max_size mdk
                        /\ exists evs_e k r0 evs_u,
                             evs = evs_u ++ evs_e /\ entropy_events evs_e
                             /\ aes_jobs mdk k r0 evs_u /\ (1 <= k <= 3)%nat
                             /\ cm_enabled w1 = false
                             /\ (r1 = 0 /\ r0 = 0 /\ reseed_counter (prng w1) = 1
                                 \/ r1 = -1 /\ r0 = -2))).
  { intros w0 w1 r1 H.
    apply cracen_ctr_drbg_reseed_inv in H
      as [(_ & -> & ->)|(Hmax & ent & w3 & evs_e & k & r0 & evs_u & _ & _ & _ & Htr3 & Hev
                         & Htr & Hjobs & Hk & Hen & Hin & Hres)].
    - split; [now right|]. split; [done|]. split; [done|]. exists []. split; [done|].
      left. done.
    - split; [destruct Hres as [(-> & _)|(-> & _)]; auto|]. split; [done|]. split; [done|].
      exists (evs_u ++ evs_e). split; [now rewrite Htr, Htr3, app_assoc|].
      right. split; [done|]. exists evs_e, k, r0, evs_u.
      split; [done|]. split; [done|]. split; [done|]. split; [lia|]. split; [done|].
      destruct Hres as [(-> & -> & _ & Hrc & _)|(-> & -> & _)]; [left|right]; done. }
  destruct 1 as [Hinit Hrc|r w2 Hinit Hrc Hrun|r w1 Hinit Hrun].
  - split; [now left|]. split; [done|]. split; [done|]. exists []. split; [done|].
    left. done.
  - destruct (Hre _ _ _ Hrun) as (Hr & Hen & Hin & evs & Htr & Hcases).
    split; [done|]. split; [done|]. split; [intros _; now rewrite Hin|].
    exists evs. split; [done|].
    destruct Hcases as [(-> & -> & ->)|Hc]; [left|right; done].
    repeat split; try done.
  - apply nrfx_cracen_ctr_drbg_init_inv in Hrun as (w0 & Hrun & Htr1 & Hen1 & Hres).
    destruct (Hre _ _ _ Hrun) as (Hr & Hen & Hin & evs & Htr & Hcases).
    split; [done|]. split; [intros He; rewrite Hen1; now apply Hen|].
    split. { intros ->. destruct Hres as [[_ ->]|[Hne _]]; done. }
    exists evs. split; [now rewrite Htr1, Htr|].
    destruct Hcases as [(-> & -> & ->)|(Hmax & evs_e & k & r0 & evs_u & Hc)].
    + left. split; [done|]. split; [now rewrite Hen1|]. done.
    + right. split; [done|]. exists evs_e, k, r0, evs_u.
      destruct Hc as (-> & Hev & Hjobs & Hk & Hcm & Hres').
      split; [done|]. split; [done|]. split; [done|]. split; [lia|].
      split; [now rewrite Hen1|].
      destruct Hres' as [(-> & -> & Hrc)|(-> & ->)]; [left|right; done].
      destruct Hres as [[_ ->]|[Hne _]]; done.
Qed.

End Phases.

Section Requests.

Variable mdk : cracen_mdk.
Variable hw : cracen_hw.

(** ** Whole requests *)

Lemma RESEED_INTERVAL_eq : RESEED_INTERVAL = 2 ^ 48.
Proof. reflexivity. Qed.

Lemma MAX_BYTES_PER_REQUEST_eq : MAX_BYTES_PER_REQUEST = 65536.
Proof. reflexivity. Qed.

(** After a step that went well, the request goes on to its output loop. *)
Lemma get_random_after_phase (fuel : nat) (p_buf : option (list Z)) (size : Z)
    (w w2 : world) :
  ~ invalid_request p_buf size ->
  pre_phase mdk hw fuel w 0 w2 ->
  nrfx_cracen_ctr_drbg_get_random mdk hw fuel p_buf size w
  = get_random_generate mdk hw fuel p_buf size w2.
Proof.
  intros Hval Hpre. rewrite get_random_valid by done.
  assert (Hlt : reseed_counter (prng w2) < RESEED_INTERVAL).
  { destruct (pre_phase_inv mdk hw _ _ _ _ Hpre) as (_ & _ & _ & evs & _ & Hc).
    destruct Hc as [(_ & _ & Hc)|(_ & evs_e & k & r0 & evs_u & _ & _ & _ & _ & _ & Hc)].
    - destruct (Hc eq_refl) as (-> & Hrc & _). done.
    - destruct Hc as [(_ & _ & ->)|(Hf & _)]; [|done]. rewrite RESEED_INTERVAL_eq. lia. }
  inversion Hpre as [Hinit Hrc|r' w2' Hinit Hrc Hrun|r' w1 Hinit Hrun]; subst.
  - rewrite Hinit. cbn [negb]. change (ret 0 w2) with (Some (0, w2)). cbv beta iota.
    rewrite bool_decide_eq_false_2 by lia.
    rewrite bool_decide_eq_false_2 by lia.
    change (ret 0 w2) with (Some (0, w2)). cbv beta iota.
    now rewrite bool_decide_eq_false_2 by lia.
  - rewrite Hinit. cbn [negb]. change (ret 0 w) with (Some (0, w)). cbv beta iota.
    rewrite bool_decide_eq_false_2 by lia.
    rewrite bool_decide_eq_true_2 by done. rewrite Hrun.
    now rewrite bool_decide_eq_false_2 by lia.
  - rewrite Hinit. cbn [negb]. rewrite Hrun.
    rewrite bool_decide_eq_false_2 by lia.
    rewrite bool_decide_eq_false_2 by lia.
    change (ret 0 w2) with (Some (0, w2)). cbv beta iota.
    now rewrite bool_decide_eq_false_2 by lia.
Qed.

(** With an engine that completes its jobs and a noise source that gets
    ready, the step before the output loop goes well. *)
Lemma pre_phase_returns (T : nat) (w : world) :
  cm_completes mdk hw ->
  ENTROPY_SIZE <= rng_max_size mdk ->
  rng_ready_from hw ENTROPY_SIZE T ->
  exists w2 f0, forall f, (f0 <= f)%nat -> pre_phase mdk hw f w 0 w2.
Proof.
  intros Hc Hmax Hrdy.
  destruct (initialized (prng w)) eqn:Hinit.
  - destruct (decide (reseed_counter (prng w) >= RESEED_INTERVAL)) as [Hge|Hlt].
    + destruct (cracen_ctr_drbg_reseed_returns mdk hw T w Hc Hmax Hrdy) as (w2 & f0 & Hf).
      exists w2, f0. intros f Hle. apply pre_reseed; auto.
    + exists w, 0%nat. intros f _. apply pre_none; [done|lia].
  - destruct (cracen_ctr_drbg_reseed_returns mdk hw T (with_prng prng_zero w) Hc Hmax Hrdy)
      as (w1 & f0 & Hf).
    exists (with_prng (with_initialized true (prng w1)) w1), f0. intros f Hle.
    apply pre_init; [done|]. rewrite nrfx_cracen_ctr_drbg_init_unfold, (Hf f Hle).
    now rewrite bool_decide_eq_false_2 by lia.
Qed.

(** A request that is not refused returns 0 on such hardware. *)
Lemma get_random_returns (T : nat) (p_buf : option (list Z)) (size : Z) (w : world) :
  cm_completes mdk hw ->
  ENTROPY_SIZE <= rng_max_size mdk ->
  rng_ready_from hw ENTROPY_SIZE T ->
  ~ invalid_request p_buf size ->
  exists p_buf' w',
    returns (fun f => nrfx_cracen_ctr_drbg_get_random mdk hw f p_buf size) w (0, p_buf') w'.
Proof.
  intros Hc Hmax Hrdy Hval.
  destruct (pre_phase_returns T w Hc Hmax Hrdy) as (w2 & f1 & Hpre).
  destruct (get_random_generate_returns mdk hw p_buf size w2 Hc) as (p' & w' & f2 & Hgen).
  exists p', w', (Nat.max f1 f2). intros f Hle.
  rewrite (get_random_after_phase f p_buf size w w2 Hval (Hpre f ltac:(lia))).
  apply Hgen. lia.
Qed.

(** A request on an initialised generator below the reseed interval needs
    the engine only. *)
Lemma get_random_returns_seeded (p_buf : option (list Z)) (size : Z) (w : world) :
  cm_completes mdk hw ->
  initialized (prng w) = true -> reseed_counter (prng w) < RESEED_INTERVAL ->
  ~ invalid_request p_buf size ->
  exists p_buf' w',
    returns (fun f => nrfx_cracen_ctr_drbg_get_random mdk hw f p_buf size) w (0, p_buf') w'.
Proof.
  intros Hc Hinit Hrc Hval.
  destruct (get_random_generate_returns mdk hw p_buf size w Hc) as (p' & w' & f2 & Hgen).
  exists p', w', f2. intros f Hle.
  rewrite (get_random_after_phase f p_buf size w w Hval (pre_none mdk hw f w Hinit Hrc)).
  now apply Hgen.
Qed.

(** The result codes of a request, and what is left of the engine. *)
Lemma get_random_inv (fuel : nat) (p_buf : option (list Z)) (size : Z)
    (w w' : world) (r : Z) (p_buf' : option (list Z)) :
  0 <= size ->
  nrfx_cracen_ctr_drbg_get_random mdk hw fuel p_buf size w = Some ((r, p_buf'), w') ->
  invalid_request p_buf size /\ r = -2 /\ p_buf' = p_buf /\ w' = w
  \/ ~ invalid_request p_buf size /\ (r = 0 \/ r = -1)
     /\ (cm_enabled w = false -> cm_enabled w' = false)
     /\ exists evs,
          trace w' = evs ++ trace w
          /\ (evs = [] /\ r = -1
              \/ cm_enabled w' = false
                 /\ exists k r0 evs_j rest,
                      evs = evs_j ++ rest /\ aes_jobs mdk k r0 evs_j /\ (1 <= k)%nat
                      /\ (r = 0 /\ r0 = 0 \/ r = -1 /\ r0 = -2)).
Proof.
  intros Hs Hrun. destruct (invalid_request_dec p_buf size) as [Hinv|Hval].
  { rewrite get_random_invalid in Hrun by done. injection Hrun as <- <- <-. left. done. }
  right. split; [done|].
  apply get_random_phases in Hrun as (r0 & w2 & Hpre & Hres); [|done].
  destruct (pre_phase_inv mdk hw _ _ _ _ Hpre) as (Hr0 & Hen & Hinit & evs0 & Htr0 & Hc).
  destruct Hres as [(Hne & [= -> ->] & ->)|(-> & Hgen)].
  - split; [now right|]. split; [done|]. exists evs0. split; [done|].
    destruct Hc as [(-> & _)|(_ & evs_e & k & rj & evs_u & -> & _ & Hjobs & Hk & Hcm & Hc)].
    + left. done.
    + right. split; [done|]. exists k, rj, evs_u, evs_e.
      split; [done|]. split; [done|]. split; [lia|]. right.
      destruct Hc as [(-> & _)|(_ & ->)]; done.
  - apply get_random_generate_inv in Hgen
      as (k & rj & evs & Hjobs & Hk & Htr & Hcm & _ & _ & Hres); [|done].
    split; [destruct Hres as [(-> & _)|(-> & _)]; auto|]. split; [done|].
    exists (evs ++ evs0). split; [now rewrite Htr, Htr0, app_assoc|].
    right. split; [done|]. exists k, rj, evs, evs0.
    split; [done|]. split; [done|]. split; [done|].
    destruct Hres as [(-> & -> & _)|(-> & -> & _)]; [left|right]; done.
Qed.

(** [be_incr], [k] times, adds [k]. *)
Lemma be_incr_n_value (k : nat) (v : list Z) :
  bytes v -> length v = 16%nat ->
  be_incr_n k v = be_bytes 16 ((be_value v + Z.of_nat k) mod 2 ^ 128).
Proof.
  intros Hb Hl. induction k as [|k IH].
  - cbn [be_incr_n]. rewrite Z.add_0_r, Z.mod_small.
    + rewrite <- Hl. symmetry. now apply be_bytes_be_value.
    + pose proof (be_value_range v Hb) as Hr. rewrite Hl, pow_256_16 in Hr. lia.
  - rewrite be_incr_n_S, IH. rewrite be_incr_block.
    + rewrite be_value_be_bytes, pow_256_16, Z.mod_mod by lia.
      f_equal. rewrite Zplus_mod_idemp_l. f_equal. lia.
    + apply be_bytes_bytes.
    + apply be_bytes_length.
Qed.

End Requests.

Section Error_polls.

Variable mdk : cracen_mdk.
Variable hw : cracen_hw.

(** ** Polls that read an error *)

Lemma error_polls_app (a b : list hal_event) :
  error_polls mdk (a ++ b) = (error_polls mdk a + error_polls mdk b)%nat.
Proof. unfold error_polls. now rewrite List.filter_app, length_app. Qed.

Lemma cm_polls_error_polls (r : Z) (polls : list hal_event) :
  cm_polls mdk r polls ->
  error_polls mdk polls = if bool_decide (r = -2) then 1%nat else 0%nat.
Proof.
  induction 1 as [v Hv|v Hv|v b r evs Hv Hb Hp IH].
  - unfold error_polls. cbn [List.filter is_error_poll].
    now rewrite bool_decide_eq_true_2 by done.
  - unfold error_polls. cbn [List.filter is_error_poll].
    now rewrite bool_decide_eq_false_2 by (intros Hf; now apply Hf).
  - rewrite error_polls_app, IH. unfold error_polls. cbn [List.filter is_error_poll].
    rewrite (bool_decide_eq_false_2 (Z.land v (cm_error_mask mdk) <> 0))
      by (intros Hf; now apply Hf).
    cbn [length]. lia.
Qed.

Lemma aes_jobs_error_polls (k : nat) (r : Z) (evs : list hal_event) :
  aes_jobs mdk k r evs ->
  error_polls mdk evs = if bool_decide (r = -2) then 1%nat else 0%nat.
Proof.
  induction 1 as [|k r evs evs0 Hjobs IH (polls & kp & ks & i & o & Hp & ->)]; [done|].
  rewrite error_polls_app, IH. rewrite bool_decide_eq_false_2 by lia.
  change (ev_module_disable CRYPTOMASTER :: ev_cm_softreset :: polls ++ cm_job_setup kp ks i o)
    with ([ev_module_disable CRYPTOMASTER; ev_cm_softreset] ++ polls ++ cm_job_setup kp ks i o).
  rewrite !error_polls_app, (cm_polls_error_polls _ _ Hp).
  change (error_polls mdk [ev_module_disable CRYPTOMASTER; ev_cm_softreset]) with 0%nat.
  change (error_polls mdk (cm_job_setup kp ks i o)) with 0%nat. lia.
Qed.

Lemma rng_events_error_polls (evs : list hal_event) :
  Forall (fun e => is_rng_event e = true) evs -> error_polls mdk evs = 0%nat.
Proof.
  induction 1 as [|e evs He _ IH]; [done|].
  change (e :: evs) with ([e] ++ evs). rewrite error_polls_app, IH.
  destruct e; try discriminate He; reflexivity.
Qed.

Lemma entropy_events_error_polls (evs : list hal_event) :
  entropy_events evs -> error_polls mdk evs = 0%nat.
Proof.
  intros (mid & -> & Hmid & _).
  change (ev_module_disable RNG :: mid ++ [ev_module_enable RNG])
    with ([ev_module_disable RNG] ++ mid ++ [ev_module_enable RNG]).
  rewrite !error_polls_app, (rng_events_error_polls _ Hmid). reflexivity.
Qed.

(** A request in which a poll read an error ends with that job: it returns
    -1, the core reset and the module disabled. *)
Lemma get_random_error_polls (fuel : nat) (p_buf : option (list Z)) (size : Z)
    (w w' : world) (r : Z) (p_buf' : option (list Z)) (evs : list hal_event) :
  0 <= size ->
  nrfx_cracen_ctr_drbg_get_random mdk hw fuel p_buf size w = Some ((r, p_buf'), w') ->
  trace w' = evs ++ trace w ->
  (0 < error_polls mdk evs)%nat ->
  r = -1 /\ cm_enabled w' = false
  /\ exists rest, evs = ev_module_disable CRYPTOMASTER :: ev_cm_softreset :: rest.
Proof.
  intros Hs Hrun Htr Herr. destruct (invalid_request_dec p_buf size) as [Hinv|Hval].
  { rewrite get_random_invalid in Hrun by done. injection Hrun as <- <- <-.
    assert (evs = []) as ->; [|cbn in Herr; lia].
    apply (f_equal length) in Htr. rewrite length_app in Htr.
    destruct evs; [done|cbn in Htr; lia]. }
  apply get_random_phases in Hrun as (r0 & w2 & Hpre & Hres); [|done].
  destruct (pre_phase_inv mdk hw _ _ _ _ Hpre) as (Hr0 & Hen & Hinit & evs0 & Htr0 & Hc).
  assert (Hpre_err : r0 = 0 -> error_polls mdk evs0 = 0%nat).
  { intros ->.
    destruct Hc as [(-> & _)|(_ & evs_e & k & rj & evs_u & -> & He & Hjobs & _ & _ & Hc)];
      [done|].
    destruct Hc as [(_ & -> & _)|(Hf & _)]; [|done].
    now rewrite error_polls_app, (aes_jobs_error_polls _ _ _ Hjobs),
      (entropy_events_error_polls _ He). }
  destruct Hres as [(Hne & [= -> ->] & ->)|(-> & Hgen)].
  - rewrite Htr0 in Htr. apply app_inv_tail in Htr as <-.
    destruct Hc as [(-> & _)|(_ & evs_e & k & rj & evs_u & -> & He & Hjobs & Hk & Hcm & Hc)].
    { cbn in Herr. lia. }
    destruct Hc as [(-> & _)|(_ & ->)]; [done|].
    apply aes_jobs_failed in Hjobs as (_ & v & rest & -> & _).
    split; [done|]. split; [done|]. eexists. cbn [app]. reflexivity.
  - apply get_random_generate_inv in Hgen
      as (k & rj & evs1 & Hjobs & Hk & Htr1 & Hcm & _ & _ & Hres); [|done].
    rewrite Htr1, Htr0, app_assoc in Htr. apply app_inv_tail in Htr as <-.
    rewrite error_polls_app, (Hpre_err eq_refl), (aes_jobs_error_polls _ _ _ Hjobs) in Herr.
    destruct Hres as [(-> & -> & _)|(-> & -> & _)].
    { rewrite bool_decide_eq_false_2 in Herr by lia. lia. }
    apply aes_jobs_failed in Hjobs as (_ & v & rest & -> & _).
    split; [done|]. split; [done|]. eexists. cbn [app]. reflexivity.
Qed.

End Error_polls.

Section Trng_attempt.

Variable mdk : cracen_mdk.
Variable hw : cracen_hw.

(** ** One attempt of cracen_trng_get, by the state of the TRNG *)

Lemma words_for_level (size level : Z) :
  0 <= size -> 0 <= level < 2 ^ 30 ->
  (size <= (level * 4) mod 2 ^ 32 <-> Z.of_nat (words_for size) <= level).
Proof.
  intros Hs Hl. rewrite Z.mod_small by lia. unfold words_for.
  rewrite Z2Nat.id by (apply Z.div_pos; lia).
  pose proof (Z.div_mod (size + 3) 4 ltac:(lia)) as Hdm.
  pose proof (Z.mod_pos_bound (size + 3) 4 ltac:(lia)) as Hm. lia.
Qed.

Lemma cracen_trng_get_waits (dst : list Z) (size : Z) (w : world) :
  0 <= size ->
  let st := rng_fsm_state hw (now w) in
  let level := rng_fifo_level hw (1 + now w) mod 2 ^ 32 in
  (st = STATE_ERROR ->
   cracen_trng_get hw dst size w
   = Some ((TRNG_RESET_NEEDED, dst), emit [ev_rng_fsm_state_get STATE_ERROR] w))
  /\ (st = STATE_RESET ->
      cracen_trng_get hw dst size w
      = Some ((HW_PROCESSING, dst), emit [ev_rng_fsm_state_get STATE_RESET] w))
  /\ (st <> STATE_ERROR -> st <> STATE_RESET ->
      conditioning_key_set w = false -> level < 4 ->
      cracen_trng_get hw dst size w
      = Some ((HW_PROCESSING, dst),
              emit [ev_rng_fifo_level_get level; ev_rng_fsm_state_get st] w))
  /\ (st <> STATE_ERROR -> st <> STATE_RESET ->
      conditioning_key_set w = true -> size > (level * 4) mod 2 ^ 32 ->
      cracen_trng_get hw dst size w
      = Some ((HW_PROCESSING, dst),
              emit [ev_rng_fifo_level_get level; ev_rng_fsm_state_get st] w))
  /\ (st <> STATE_ERROR -> st <> STATE_RESET ->
      conditioning_key_set w = true -> size <= (level * 4) mod 2 ^ 32 ->
      exists words,
        length words = words_for size
        /\ cracen_trng_get hw dst size w
           = Some ((OK, list_inserts 0 (take (Z.to_nat size) (flat_map le_bytes words)) dst),
                   emit (drain_events words
                         ++ [ev_rng_fifo_level_get level; ev_rng_fsm_state_get st]) w)).
Proof.
  intros Hs. cbv zeta.
  destruct (cracen_trng_get_spec hw dst size w Hs) as (r & dst' & evs & set' & Hrun & Hout).
  rewrite Hrun. clear Hrun.
  unfold CONDITIONING_KEY_SIZE in Hout.
  unfold with_conditioning_key_set, emit.
  cbn [prng conditioning_key_set cm_enabled rng_enabled trace].
  split; [|split; [|split; [|split]]].
  - intros Hst. inversion Hout; subst; congruence.
  - intros Hst. inversion Hout; subst; congruence.
  - intros Hne Hnr Hset Hlev.
    inversion Hout; subst; unfold CONDITIONING_KEY_SIZE in *; try congruence; try lia.
  - intros Hne Hnr Hset Hlev.
    inversion Hout; subst; unfold CONDITIONING_KEY_SIZE in *; try congruence; try lia.
  - intros Hne Hnr Hset Hlev.
    inversion Hout; subst; unfold CONDITIONING_KEY_SIZE in *; try congruence; try lia.
    exists words. split; [done|]. congruence.
Qed.

(** One attempt keeps what [key_programmed] says of the events since the
    last soft reset, and what it returns was read after the key. *)
Lemma cracen_trng_get_key (dst : list Z) (size : Z) (w : world) :
  0 <= size ->
  key_programmed (conditioning_key_set w) (since_reset (trace w)) ->
  exists r dst' w',
    cracen_trng_get hw dst size w = Some ((r, dst'), w')
    /\ (r = TRNG_RESET_NEEDED /\ dst' = dst
        \/ r = HW_PROCESSING /\ dst' = dst
           /\ key_programmed (conditioning_key_set w') (since_reset (trace w'))
        \/ r = OK
           /\ exists k0 k1 k2 k3 words,
                length words = words_for size
                /\ dst' = list_inserts 0 (take (Z.to_nat size) (flat_map le_bytes words)) dst
                /\ fifo_words (since_reset (trace w')) = rev words ++ [k3; k2; k1; k0]
                /\ key_words_set (since_reset (trace w'))
                   = [(3, k3); (2, k2); (1, k1); (0, k0)]).
Proof.
  intros Hs Hkey.
  destruct (cracen_trng_get_spec hw dst size w Hs) as (r & dst' & evs & set' & Hrun & Hout).
  exists r, dst', (with_conditioning_key_set set' (emit evs w)). split; [done|].
  pose proof (trng_get_outcome_events hw _ _ _ _ _ _ _ _ Hout) as [Hevs _].
  pose proof (trng_get_events_facts _ Hevs) as (_ & _ & _ & Hsince).
  cbn [trace conditioning_key_set with_conditioning_key_set emit]. rewrite Hsince.
  apply (trng_get_outcome_key hw _ _ _ _ _ _ _ _ _ Hout Hkey).
Qed.

Lemma cracen_trng_init_key (w : world) :
  exists w',
    cracen_trng_init w = Some (tt, w')
    /\ trace w' = trng_init_events ++ trace w
    /\ conditioning_key_set w' = false
    /\ fifo_words (since_reset (trace w')) = []
    /\ key_words_set (since_reset (trace w')) = [].
Proof.
  eexists. split; [apply cracen_trng_init_eq|]. repeat split.
Qed.

(** The retry loop of [nrfx_cracen_rng_get_entropy], one iteration. *)
Lemma rng_get_entropy_loop_step (fuel : nat) (ret_ : Z) (p_buf : list Z) (size : Z)
    (w : world) :
  rng_get_entropy_loop hw (S fuel) ret_ p_buf size w
  = match cracen_trng_get hw p_buf size
            (if bool_decide (ret_ = TRNG_RESET_NEEDED)
             then emit trng_init_events (with_conditioning_key_set false w) else w) with
    | Some ((r, buf'), w') =>
        if bool_decide (r = OK) then Some (buf', w')
        else rng_get_entropy_loop hw fuel r buf' size w'
    | None => None
    end.
Proof.
  cbn [rng_get_entropy_loop]. unfold bind at 1.
  case_bool_decide.
  - rewrite cracen_trng_init_eq. unfold bind at 1.
    destruct (cracen_trng_get _ _ _ _) as [[[r buf'] w']|]; [|done].
    now destruct (bool_decide (r = OK)).
  - change (ret tt w) with (Some (tt, w)). cbv beta iota. unfold bind at 1.
    destruct (cracen_trng_get _ _ _ _) as [[[r buf'] w']|]; [|done].
    now destruct (bool_decide (r = OK)).
Qed.

End Trng_attempt.

Section Refinement.

Variable mdk : cracen_mdk.
Variable hw : cracen_hw.

(** ** The driver refines the reference *)

Lemma holds_prng_zero :
  holds prng_zero {| Reference.Key := replicate 32 0; Reference.Ctr := 0;
                     Reference.Reseed_counter := 0 |}.
Proof. split; [reflexivity|]. split; reflexivity. Qed.

Lemma cracen_ctr_drbg_reseed_refines (fuel : nat) (w w' w1 : world) (entropy : list Z)
    (s : Reference.state) :
  cm_pushes_blocks hw ->
  holds (prng w) s -> length (Reference.Key s) = 32%nat ->
  cracen_ctr_drbg_reseed mdk hw fuel w = Some (0, w') ->
  nrfx_cracen_rng_get_entropy mdk hw fuel (replicate (Z.to_nat ENTROPY_SIZE) 0)
    ENTROPY_SIZE w = Some ((OK, entropy), w1) ->
  holds (prng w') (Reference.reseed (cm_block_encrypt hw) s entropy)
  /\ length (Reference.Key (Reference.reseed (cm_block_encrypt hw) s entropy)) = 32%nat
  /\ initialized (prng w') = initialized (prng w).
Proof.
  intros Hwf (Hkey & HV & Hrc) Hlen Hrun Hent.
  apply cracen_ctr_drbg_reseed_inv in Hrun
    as [(_ & Hf & _)|(_ & ent & w1' & evs_e & k & r0 & evs_u & Hent' & Hel & Heb & _ & _ & _
                      & _ & _ & _ & Hin & Hres)]; [lia|].
  rewrite Hent in Hent'. injection Hent' as <- <-.
  destruct Hres as [(_ & _ & _ & Hrc' & Hst)|(Hf & _)]; [|lia].
  destruct (Hst Hwf) as [Hk' HV']. rewrite Hkey, HV in Hk', HV'.
  pose proof (drbg_update_temp_reference hw (Some entropy) (Reference.Key s)
                (Reference.Ctr s) Hwf Hlen) as Href.
  cbv zeta in Href. unfold Reference.reseed.
  destruct (Reference.update (cm_block_encrypt hw) (Some entropy) (Reference.Key s)
              (Reference.Ctr s)) as [K' c'].
  destruct Href as (HK & HC & HL). { intros d [= <-]. done. }
  cbn [Reference.Key]. split; [|done]. split; [|split].
  - cbn [Reference.Key]. now rewrite Hk', HK.
  - cbn [Reference.Ctr]. now rewrite HV', HC.
  - cbn [Reference.Reseed_counter]. done.
Qed.

Lemma nrfx_cracen_ctr_drbg_init_refines (fuel : nat) (w w' w1 : world) (entropy : list Z) :
  cm_pushes_blocks hw ->
  nrfx_cracen_ctr_drbg_init mdk hw fuel w = Some (0, w') ->
  nrfx_cracen_rng_get_entropy mdk hw fuel (replicate (Z.to_nat ENTROPY_SIZE) 0)
    ENTROPY_SIZE (with_prng prng_zero w) = Some ((OK, entropy), w1) ->
  holds (prng w') (Reference.instantiate (cm_block_encrypt hw) entropy)
  /\ length (Reference.Key (Reference.instantiate (cm_block_encrypt hw) entropy)) = 32%nat
  /\ initialized (prng w') = true.
Proof.
  intros Hwf Hrun Hent.
  apply nrfx_cracen_ctr_drbg_init_inv in Hrun as (w0 & Hre & _ & _ & Hres).
  destruct Hres as [[_ Hprng]|[Hne _]]; [|done].
  destruct (cracen_ctr_drbg_reseed_refines fuel (with_prng prng_zero w) w0 w1 entropy _ Hwf
              holds_prng_zero ltac:(reflexivity) Hre Hent) as ((Hk & Hv & Hrc) & Hlen & _).
  rewrite Hprng. split; [|split; [exact Hlen|reflexivity]].
  split; [exact Hk|]. split; [exact Hv|exact Hrc].
Qed.

Lemma get_random_generate_refines (fuel : nat) (p_buf : option (list Z)) (size : Z)
    (w w' : world) (p_buf' : option (list Z)) (s : Reference.state) :
  cm_pushes_blocks hw -> 0 <= size ->
  holds (prng w) s -> length (Reference.Key s) = 32%nat ->
  0 <= Reference.Reseed_counter s < 2 ^ 64 - 1 ->
  get_random_generate mdk hw fuel p_buf size w = Some ((0, p_buf'), w') ->
  let out := fst (Reference.generate (cm_block_encrypt hw) s size) in
  let s' := snd (Reference.generate (cm_block_encrypt hw) s size) in
  holds (prng w') s' /\ length (Reference.Key s') = 32%nat
  /\ initialized (prng w') = initialized (prng w)
  /\ length out = Z.to_nat size
  /\ (p_buf = None -> p_buf' = None)
  /\ (forall buf, p_buf = Some buf -> (Z.to_nat size <= length buf)%nat ->
        p_buf' = Some (out ++ drop (Z.to_nat size) buf))
  /\ exists evs,
       trace w' = evs ++ trace w
       /\ cm_jobs evs = (3 + Reference.chunks size)%nat
       /\ entropy_invocations evs = 0%nat.
Proof.
  intros Hwf Hs (Hkey & HV & Hrc) Hlen Hrange Hrun.
  apply get_random_generate_inv in Hrun
    as (k & r0 & evs & Hjobs & Hk & Htr & _ & Hin & Hnone & Hres); [|done].
  destruct Hres as [(_ & -> & -> & Hrc' & Hst)|(Hf & _)]; [|lia].
  destruct (Hst Hwf) as (Hk' & HV' & Hbuf). rewrite Hkey, HV in Hk', HV', Hbuf.
  destruct (drbg_blocks_reference hw (Reference.chunks size) (Reference.Key s)
              (Reference.Ctr s) Hlen) as [Hblocks Hincr].
  rewrite Hincr in Hk', HV'. rewrite Hblocks in Hbuf.
  pose proof (drbg_update_temp_reference hw None (Reference.Key s)
                ((Reference.Ctr s + Z.of_nat (Reference.chunks size)) mod 2 ^ 128)
                Hwf Hlen) as Href.
  cbv zeta in Href. cbv zeta. unfold Reference.generate. cbv zeta.
  destruct (Reference.update (cm_block_encrypt hw) None (Reference.Key s)
              ((Reference.Ctr s + Z.of_nat (Reference.chunks size)) mod 2 ^ 128))
    as [K' c'].
  destruct Href as (HK & HC & HL); [done|].
  cbn [fst snd Reference.Key].
  pose proof (aes_jobs_counts mdk _ _ _ Hjobs) as (Hent & Hcount & _).
  split; [|split; [done|split; [done|split; [|split; [done|split; [done|]]]]]].
  - split; [|split].
    + cbn [Reference.Key]. now rewrite Hk', HK.
    + cbn [Reference.Ctr]. now rewrite HV', HC.
    + cbn [Reference.Reseed_counter]. rewrite Hrc', Hrc. apply Z.mod_small. lia.
  - rewrite length_take.
    destruct (reference_blocks_length hw (Reference.chunks size) (Reference.Key s)
                (Reference.Ctr s) Hwf) as [Hbl _].
    rewrite Hbl. unfold Reference.chunks.
    assert (size <= 16 * ((size + 15) / 16)).
    { pose proof (Z.div_mod (size + 15) 16 ltac:(lia)).
      pose proof (Z.mod_pos_bound (size + 15) 16 ltac:(lia)). lia. }
    assert (0 <= (size + 15) / 16) by (apply Z.div_pos; lia). lia.
  - exists evs. done.
Qed.

End Refinement.

Section Aes_polling.

Variable mdk : cracen_mdk.
Variable hw : cracen_hw.

(** ** The polling loop of the AES driver, by what the engine answers *)

Lemma cm_answers_at_S (t k : nat) (r : Z) :
  cm_answers_at mdk hw t (S k) r -> cm_answers_at mdk hw (2 + t) k r.
Proof.
  intros (Hbusy & Hr & Hne). split; [|split; [|done]].
  - intros j Hj. specialize (Hbusy (S j) ltac:(lia)).
    replace (2 + t + 2 * j)%nat with (t + 2 * S j)%nat by lia. done.
  - replace (2 + t + 2 * k)%nat with (t + 2 * S k)%nat by lia. done.
Qed.

Lemma cm_wait_done_answers (k : nat) (r : Z) (fuel : nat) (w : world) :
  cm_answers_at mdk hw (now w) k r -> (k < fuel)%nat ->
  exists polls,
    cm_wait_done mdk hw fuel w = Some (r, emit polls w)
    /\ cm_polls mdk r polls
    /\ length polls = (2 * k + (if bool_decide (r = 0%Z) then 2 else 1))%nat.
Proof.
  revert fuel w. induction k as [|k IH]; intros fuel w Hans Hf.
  - destruct Hans as (_ & Hr & Hne). rewrite Nat.add_0_r in Hr.
    destruct fuel as [|fuel]; [lia|]. cbn [cm_wait_done].
    rewrite (bind_run _ _ _ _ _ (cracen_cm_check_done_eq mdk hw w)), Hr.
    rewrite bool_decide_eq_false_2 by done.
    exists (cm_poll_events mdk hw (now w)). split; [done|].
    pose proof (cm_poll_events_polls mdk hw (now w)) as Hp.
    assert (Hpolls : cm_polls mdk r (cm_poll_events mdk hw (now w))).
    { destruct (cm_poll_values mdk hw (now w)) as [H2|[H1|H0]].
      - rewrite H2 in Hp. rewrite <- Hr, H2. exact Hp.
      - congruence.
      - rewrite H0 in Hp. rewrite <- Hr, H0. exact Hp. }
    split; [exact Hpolls|].
    unfold cm_poll in Hr. unfold cm_poll_events. cbv zeta.
    destruct (bool_decide (Z.land (cm_int_pending hw (now w) mod 2 ^ 32) (cm_error_mask mdk)
                           <> 0)).
    + subst r. reflexivity.
    + destruct (bool_decide (cm_status hw (S (now w)) (cm_busy_mask mdk) mod 2 ^ 32 <> 0));
        subst r; [done|reflexivity].
  - pose proof Hans as (Hbusy & _).
    specialize (Hbusy 0%nat ltac:(lia)). rewrite Nat.add_0_r in Hbusy.
    destruct fuel as [|fuel]; [lia|]. cbn [cm_wait_done].
    rewrite (bind_run _ _ _ _ _ (cracen_cm_check_done_eq mdk hw w)), Hbusy.
    rewrite bool_decide_eq_true_2 by done.
    pose proof (cm_poll_events_polls mdk hw (now w)) as Hp. rewrite Hbusy in Hp.
    destruct Hp as (v & b & Hv & Hb & Hevs & Hlen).
    destruct (IH fuel (emit (cm_poll_events mdk hw (now w)) w)) as (polls & Hrun & Hpolls & Hl).
    { rewrite now_emit, Hlen. now apply cm_answers_at_S. }
    { lia. }
    exists (polls ++ cm_poll_events mdk hw (now w)). rewrite Hrun, emit_emit.
    split; [done|]. rewrite Hevs. split; [now apply cm_polls_busy|].
    rewrite length_app, Hl. cbn [length]. lia.
Qed.

Lemma cm_wait_done_busy (fuel : nat) (w : world) :
  (forall t, cm_poll mdk hw t = -1) -> cm_wait_done mdk hw fuel w = None.
Proof.
  intros Hbusy. revert w. induction fuel as [|fuel IH]; intros w; [done|].
  cbn [cm_wait_done].
  rewrite (bind_run _ _ _ _ _ (cracen_cm_check_done_eq mdk hw w)), Hbusy.
  rewrite bool_decide_eq_true_2 by done. apply IH.
Qed.

End Aes_polling.

Section Trng_waits.

Variable mdk : cracen_mdk.
Variable hw : cracen_hw.

(** ** A TRNG that never gets ready *)

Lemma rng_get_entropy_loop_waits (size : Z) :
  0 <= size ->
  (forall t, rng_fsm_state hw t = STATE_RESET \/ rng_fsm_state hw t = STATE_ERROR
             \/ rng_fifo_level hw (1 + t) mod 2 ^ 32 < 4) ->
  forall fuel ret_ p_buf w,
    ret_ = TRNG_RESET_NEEDED \/ conditioning_key_set w = false ->
    rng_get_entropy_loop hw fuel ret_ p_buf size w = None.
Proof.
  intros Hs Hnever. induction fuel as [|fuel IH]; intros ret_ p_buf w Hstart; [done|].
  rewrite rng_get_entropy_loop_step.
  set (w1 := if bool_decide (ret_ = TRNG_RESET_NEEDED)
             then emit trng_init_events (with_conditioning_key_set false w) else w).
  assert (Hset : conditioning_key_set w1 = false).
  { unfold w1. case_bool_decide as Hr; [reflexivity|]. destruct Hstart; done. }
  destruct (cracen_trng_get_waits hw p_buf size w1 Hs) as (He & Hr & Hk & _).
  destruct (Hnever (now w1)) as [Hst|[Hst|Hlev]].
  - rewrite (Hr Hst). rewrite bool_decide_eq_false_2 by done. apply IH. right. exact Hset.
  - rewrite (He Hst). rewrite bool_decide_eq_false_2 by done. apply IH. left. reflexivity.
  - destruct (rng_fsm_state hw (now w1)) eqn:Hst.
    + rewrite (Hr eq_refl). rewrite bool_decide_eq_false_2 by done. apply IH. now right.
    + rewrite (Hk ltac:(done) ltac:(done) Hset Hlev).
      rewrite bool_decide_eq_false_2 by done. apply IH. now right.
    + rewrite (He eq_refl). rewrite bool_decide_eq_false_2 by done. apply IH. now left.
    + rewrite (Hk ltac:(done) ltac:(done) Hset Hlev).
      rewrite bool_decide_eq_false_2 by done. apply IH. now right.
Qed.

End Trng_waits.

Section Prng_shape.

Variable mdk : cracen_mdk.
Variable hw : cracen_hw.

(** ** The shape of the generator state *)

Lemma prng_wf_zero : prng_wf prng_zero.
Proof.
  unfold prng_wf, prng_zero. cbn [key V reseed_counter initialized].
  rewrite RESEED_INTERVAL_eq.
  split; [reflexivity|]. split; [apply Forall_replicate; unfold is_byte; lia|].
  split; [reflexivity|]. split; [apply Forall_replicate; unfold is_byte; lia|].
  split; [lia|]. discriminate.
Qed.

Lemma drbg_update_temp_wf (data : option (list Z)) (K v : list Z) :
  cm_pushes_blocks hw ->
  (forall d, data = Some d -> length d = 48%nat /\ bytes d) ->
  length (drbg_update_temp hw data K v) = 48%nat /\ bytes (drbg_update_temp hw data K v).
Proof.
  intros Hwf Hd. unfold drbg_update_temp. cbv zeta.
  pose proof (drbg_blocks_length hw 3 K v Hwf) as Hl.
  pose proof (drbg_blocks_bytes hw 3 K v Hwf) as Hb.
  destruct data as [d|]; [|done].
  destruct (Hd d eq_refl) as [Hdl Hdb].
  rewrite xor_array_spec by done. split.
  - rewrite length_zip_with. lia.
  - now apply zip_with_lxor_bytes.
Qed.

Lemma take_key_V_wf (temp : list Z) :
  length temp = 48%nat -> bytes temp ->
  length (take (Z.to_nat KEY_SIZE) temp) = 32%nat
  /\ bytes (take (Z.to_nat KEY_SIZE) temp)
  /\ length (take (Z.to_nat AES_BLK_SZ) (drop (Z.to_nat KEY_SIZE) temp)) = 16%nat
  /\ bytes (take (Z.to_nat AES_BLK_SZ) (drop (Z.to_nat KEY_SIZE) temp)).
Proof.
  intros Hl Hb. change (Z.to_nat KEY_SIZE) with 32%nat.
  change (Z.to_nat AES_BLK_SZ) with 16%nat.
  split; [rewrite length_take; lia|]. split; [now apply Forall_take|].
  split; [rewrite length_take, length_drop; lia|].
  apply Forall_take. now apply Forall_drop.
Qed.

Lemma be_incr_n_wf (k : nat) (v : list Z) :
  length v = 16%nat -> bytes v ->
  length (be_incr_n k v) = 16%nat /\ bytes (be_incr_n k v).
Proof.
  intros Hl Hb. rewrite (be_incr_n_value k v Hb Hl).
  split; [apply be_bytes_length|apply be_bytes_bytes].
Qed.

Lemma cracen_ctr_drbg_reseed_wf (fuel : nat) (w w' : world) (r : Z) :
  cm_pushes_blocks hw -> prng_wf (prng w) ->
  cracen_ctr_drbg_reseed mdk hw fuel w = Some (r, w') ->
  prng_wf (prng w').
Proof.
  intros Hwf (Hkl & Hkb & Hvl & Hvb & Hrc & Hinit) Hrun.
  apply cracen_ctr_drbg_reseed_inv in Hrun
    as [(_ & _ & ->)|(_ & ent & w1 & evs_e & k & r0 & evs_u & _ & Hel & Heb & _ & _ & _
                      & _ & _ & _ & Hin & Hres)]; [done|].
  destruct Hres as [(_ & _ & _ & Hrc' & Hst)|(_ & _ & ->)].
  - destruct (Hst Hwf) as [Hk' HV'].
    destruct (drbg_update_temp_wf (Some ent) (key (prng w)) (V (prng w)) Hwf) as [Hl Hb].
    { intros d [= <-]. done. }
    destruct (take_key_V_wf _ Hl Hb) as (H1 & H2 & H3 & H4).
    unfold prng_wf. rewrite Hk', HV', Hrc', RESEED_INTERVAL_eq.
    split; [done|]. split; [done|]. split; [done|]. split; [done|]. split; lia.
  - destruct (be_incr_n_wf k _ Hvl Hvb) as [Hl Hb].
    unfold prng_wf. cbn [key V reseed_counter initialized with_V]. done.
Qed.

Lemma nrfx_cracen_ctr_drbg_init_wf (fuel : nat) (w w' : world) (r : Z) :
  cm_pushes_blocks hw ->
  nrfx_cracen_ctr_drbg_init mdk hw fuel w = Some (r, w') ->
  prng_wf (prng w')
  /\ (r = 0 -> initialized (prng w') = true /\ reseed_counter (prng w') = 1)
  /\ (r <> 0 -> r = -1 /\ initialized (prng w') = false
                /\ key (prng w') = replicate 32 0 /\ reseed_counter (prng w') = 0).
Proof.
  intros Hwf Hrun.
  apply nrfx_cracen_ctr_drbg_init_inv in Hrun as (w1 & Hre & _ & _ & Hres).
  pose proof (cracen_ctr_drbg_reseed_wf fuel (with_prng prng_zero w) w1 r Hwf prng_wf_zero Hre)
    as Hwf1.
  apply cracen_ctr_drbg_reseed_inv in Hre
    as [(_ & Hr & Hw1)|(_ & ent & w0 & evs_e & k & r0 & evs_u & _ & _ & _ & _ & _ & _
                        & _ & _ & _ & Hin & Hres')].
  - destruct Hres as [[Hf _]|[_ ->]]; [lia|]. subst w1 r.
    split; [exact Hwf1|]. split; [intros Hf; lia|]. intros _. done.
  - destruct Hres' as [(-> & _ & _ & Hrc & _)|(-> & _ & Hprng)].
    + destruct Hres as [[_ Hp]|[Hf _]]; [|done]. rewrite Hp.
      destruct Hwf1 as (H1 & H2 & H3 & H4 & H5 & H6).
      split; [|split; [intros _; split; [reflexivity|exact Hrc]|intros Hf; done]].
      unfold prng_wf. cbn [key V reseed_counter initialized with_initialized].
      split; [done|]. split; [done|]. split; [done|]. split; [done|]. split; [done|].
      intros _. lia.
    + destruct Hres as [[Hf _]|[_ ->]]; [lia|].
      split; [exact Hwf1|]. split; [intros Hf; lia|]. intros _.
      rewrite Hprng. done.
Qed.

Lemma get_random_generate_wf (fuel : nat) (p_buf : option (list Z)) (size : Z)
    (w w' : world) (x : Z * option (list Z)) :
  cm_pushes_blocks hw -> 0 <= size ->
  prng_wf (prng w) -> reseed_counter (prng w) < RESEED_INTERVAL ->
  get_random_generate mdk hw fuel p_buf size w = Some (x, w') ->
  prng_wf (prng w').
Proof.
  intros Hwf Hs (Hkl & Hkb & Hvl & Hvb & Hrc & Hinit) Hlt Hrun. destruct x as [r p'].
  apply get_random_generate_inv in Hrun
    as (k & r0 & evs & _ & _ & _ & _ & Hin & _ & Hres); [|done].
  rewrite RESEED_INTERVAL_eq in *.
  destruct Hres as [(_ & _ & _ & Hrc' & Hst)|(_ & _ & _ & Hk & Hrc' & HV)].
  - destruct (Hst Hwf) as (Hk' & HV' & _).
    destruct (drbg_update_temp_wf None (key (prng w))
                (be_incr_n (Reference.chunks size) (V (prng w))) Hwf) as [Hl Hb]; [done|].
    destruct (take_key_V_wf _ Hl Hb) as (H1 & H2 & H3 & H4).
    unfold prng_wf. rewrite Hk', HV', Hrc', Hin, RESEED_INTERVAL_eq.
    rewrite Z.mod_small by lia.
    split; [done|]. split; [done|]. split; [done|]. split; [done|]. split; lia.
  - destruct (be_incr_n_wf k _ Hvl Hvb) as [Hl Hb].
    unfold prng_wf. rewrite Hk, HV, Hrc', Hin, RESEED_INTERVAL_eq. done.
Qed.

Lemma get_random_wf (fuel : nat) (p_buf : option (list Z)) (size : Z)
    (w w' : world) (x : Z * option (list Z)) :
  cm_pushes_blocks hw -> 0 <= size -> prng_wf (prng w) ->
  nrfx_cracen_ctr_drbg_get_random mdk hw fuel p_buf size w = Some (x, w') ->
  prng_wf (prng w').
Proof.
  intros Hwf Hs Hp Hrun. destruct (invalid_request_dec p_buf size) as [Hinv|Hval].
  { rewrite get_random_invalid in Hrun by done. now injection Hrun as <- <-. }
  apply get_random_phases in Hrun as (r0 & w2 & Hpre & Hres); [|done].
  assert (Hwf2 : prng_wf (prng w2)).
  { inversion Hpre as [Hi Hlt|r' w2' Hi Hge Hre|r' w1 Hi Hini]; subst.
    - exact Hp.
    - exact (cracen_ctr_drbg_reseed_wf fuel _ _ _ Hwf Hp Hre).
    - exact (proj1 (nrfx_cracen_ctr_drbg_init_wf fuel _ _ _ Hwf Hini)). }
  destruct Hres as [(_ & _ & ->)|(-> & Hgen)]; [exact Hwf2|].
  apply (get_random_generate_wf fuel p_buf size w2 w' x Hwf Hs Hwf2); [|exact Hgen].
  destruct (pre_phase_inv mdk hw _ _ _ _ Hpre) as (_ & _ & _ & evs & _ & Hc).
  destruct Hc as [(_ & _ & Hc)|(_ & evs_e & k & r0 & evs_u & _ & _ & _ & _ & _ & Hc)].
  - destruct (Hc eq_refl) as (-> & Hrc & _). done.
  - destruct Hc as [(_ & _ & ->)|(Hf & _)]; [|done]. rewrite RESEED_INTERVAL_eq. lia.
Qed.

(** ** Blocks of a longer request *)

Lemma drbg_blocks_app (n m : nat) (K v : list Z) :
  drbg_blocks hw (n + m) K v
  = drbg_blocks hw n K v ++ drbg_blocks hw m K (be_incr_n n v).
Proof.
  revert v. induction n as [|n IH]; intros v; [done|].
  cbn [Nat.add drbg_blocks be_incr_n]. cbv zeta. now rewrite IH, app_assoc.
Qed.

Lemma drbg_blocks_prefix (n n' : nat) (s : nat) (K v : list Z) :
  cm_pushes_blocks hw -> (n <= n')%nat -> (s <= 16 * n)%nat ->
  take s (drbg_blocks hw n K v) = take s (drbg_blocks hw n' K v).
Proof.
  intros Hwf Hn Hs. replace n' with (n + (n' - n))%nat by lia.
  rewrite drbg_blocks_app, take_app_le; [done|].
  rewrite drbg_blocks_length by done. lia.
Qed.

End Prng_shape.

Section Failing_job.

Variable mdk : cracen_mdk.
Variable hw : cracen_hw.

(** ** A job that fails at its first poll *)

Lemma incr_and_encrypt_fails (fuel : nat) (out : list Z) (w : world) :
  cm_poll mdk hw (6 + now w) = -2 -> (1 <= fuel)%nat ->
  exists w',
    incr_and_encrypt mdk hw fuel out w = Some ((-2, out), w')
    /\ prng w' = with_V (be_incr (V (prng w)) (Z.to_nat AES_BLK_SZ)) (prng w)
    /\ cm_enabled w' = false
    /\ exists evs, trace w' = evs ++ trace w /\ cm_jobs evs = 1%nat.
Proof.
  intros Hpoll Hf. rewrite incr_and_encrypt_unfold, nrfx_cracen_cm_aes_ecb_unfold.
  set (w0 := with_prng (with_V (be_incr (V (prng w)) (Z.to_nat AES_BLK_SZ)) (prng w)) w).
  set (setup := cm_job_setup (key (prng w)) KEY_SIZE
                  (be_incr (V (prng w)) (Z.to_nat AES_BLK_SZ)) out).
  destruct (cm_wait_done_answers mdk hw 0 (-2) fuel (set_cm_enabled true (emit setup w0)))
    as (polls & Hrun & Hpolls & Hlen).
  { split; [intros j Hj; lia|]. split; [|lia]. rewrite Nat.add_0_r. exact Hpoll. }
  { lia. }
  rewrite Hrun. rewrite bool_decide_eq_false_2 by lia.
  eexists. split; [reflexivity|]. split; [reflexivity|]. split; [reflexivity|].
  exists ([ev_module_disable CRYPTOMASTER; ev_cm_softreset] ++ polls ++ setup).
  split; [cbn [trace set_cm_enabled emit with_prng]; now rewrite <- !app_assoc|].
  pose proof (cm_polls_counts mdk _ _ Hpolls) as (_ & Hj & _).
  rewrite !cm_jobs_app, Hj. reflexivity.
Qed.

Lemma get_random_generate_fails (fuel : nat) (p_buf : option (list Z)) (size : Z)
    (w : world) :
  0 <= size -> cm_poll mdk hw (6 + now w) = -2 -> (1 <= fuel)%nat ->
  exists w',
    get_random_generate mdk hw fuel p_buf size w = Some ((-1, p_buf), w')
    /\ prng w' = with_V (be_incr (V (prng w)) (Z.to_nat AES_BLK_SZ)) (prng w)
    /\ cm_enabled w' = false
    /\ exists evs, trace w' = evs ++ trace w /\ cm_jobs evs = 1%nat.
Proof.
  intros Hs Hpoll Hf. unfold get_random_generate.
  destruct (decide (size > 0)) as [Hpos|Hzero].
  - destruct (incr_and_encrypt_fails fuel (replicate (Z.to_nat AES_BLK_SZ) 0) w Hpoll Hf)
      as (w' & Hrun & Hprng & Hen & Hev).
    assert (Hloop : get_random_loop mdk hw (Z.to_nat size) fuel (default [] p_buf) 0 size w
                    = Some ((-1, default [] p_buf), w')).
    { destruct (Z.to_nat size) as [|n] eqn:Hn; [lia|]. cbn [get_random_loop].
      rewrite bool_decide_eq_true_2 by done. cbv zeta.
      rewrite (bind_run _ _ _ _ _ Hrun). cbv beta iota.
      now rewrite bool_decide_eq_true_2 by lia. }
    rewrite (bind_run _ _ _ _ _ Hloop). cbv beta iota.
    rewrite bool_decide_eq_true_2 by lia.
    exists w'. split; [|done]. now destruct p_buf.
  - assert (size = 0) as -> by lia.
    destruct (incr_and_encrypt_fails fuel
                (take (Z.to_nat AES_BLK_SZ)
                   (drop (Z.to_nat 0) (replicate (Z.to_nat ENTROPY_SIZE) 0))) w Hpoll Hf)
      as (w' & Hrun & Hprng & Hen & Hev).
    assert (Hupd : ctr_drbg_update mdk hw fuel None w = Some (-1, w')).
    { unfold ctr_drbg_update.
      change (Z.to_nat (ENTROPY_SIZE / AES_BLK_SZ)) with 3%nat. cbn [ctr_drbg_update_loop].
      rewrite bool_decide_eq_true_2 by (unfold ENTROPY_SIZE, KEY_SIZE, AES_BLK_SZ; lia).
      cbv zeta. unfold bind at 1. rewrite (bind_run _ _ _ _ _ Hrun). cbv beta iota.
      rewrite bool_decide_eq_true_2 by lia. unfold ret. cbv beta iota.
      now rewrite bool_decide_eq_true_2 by lia. }
    change (Z.to_nat 0) with 0%nat. cbn [get_random_loop].
    unfold bind at 1. unfold ret at 1. cbv beta iota.
    rewrite bool_decide_eq_false_2 by lia.
    rewrite (bind_run _ _ _ _ _ Hupd).
    rewrite bool_decide_eq_true_2 by lia.
    exists w'. split; [|done]. now destruct p_buf.
Qed.

End Failing_job.

Section Failure_cause.

Variable mdk : cracen_mdk.
Variable hw : cracen_hw.

(** ** What a result of -1 comes from *)

Lemma cracen_ctr_drbg_reseed_cause (fuel : nat) (w w' : world) (r : Z) :
  cracen_ctr_drbg_reseed mdk hw fuel w = Some (r, w') ->
  exists evs,
    trace w' = evs ++ trace w
    /\ (r = 0 /\ error_polls mdk evs = 0%nat
        \/ r = -1 /\ (error_polls mdk evs = 1%nat
                      \/ evs = [] /\ ENTROPY_SIZE > rng_max_size mdk)).
Proof.
  intros Hrun.
  apply cracen_ctr_drbg_reseed_inv in Hrun
    as [(Hbig & -> & ->)|(_ & ent & w1 & evs_e & k & r0 & evs_u & _ & _ & _ & Htr1 & Hev & Htr
                          & Hjobs & _ & _ & _ & Hres)].
  - exists []. split; [done|]. right. split; [done|]. right. done.
  - exists (evs_u ++ evs_e). split; [now rewrite Htr, Htr1, app_assoc|].
    rewrite error_polls_app, (aes_jobs_error_polls mdk _ _ _ Hjobs),
      (entropy_events_error_polls mdk _ Hev).
    destruct Hres as [(-> & -> & _)|(-> & -> & _)].
    + left. split; [done|]. now rewrite bool_decide_eq_false_2 by lia.
    + right. split; [done|]. left. now rewrite bool_decide_eq_true_2 by done.
Qed.

Lemma pre_phase_cause (fuel : nat) (w w2 : world) (r : Z) :
  pre_phase mdk hw fuel w r w2 ->
  exists evs,
    trace w2 = evs ++ trace w
    /\ (r = 0 /\ error_polls mdk evs = 0%nat
        \/ r = -1 /\ (error_polls mdk evs = 1%nat
                      \/ evs = [] /\ ENTROPY_SIZE > rng_max_size mdk)).
Proof.
  destruct 1 as [Hinit Hrc|r w2 Hinit Hrc Hrun|r w1 Hinit Hrun].
  - exists []. split; [done|]. left. done.
  - now apply cracen_ctr_drbg_reseed_cause in Hrun.
  - apply nrfx_cracen_ctr_drbg_init_inv in Hrun as (w0 & Hre & Htr & _ & _).
    apply cracen_ctr_drbg_reseed_cause in Hre as (evs & Htr0 & Hc).
    exists evs. split; [now rewrite Htr, Htr0|exact Hc].
Qed.

(** A request that is not refused returns 0 when no poll of its
    block-cipher jobs read an error, and -1 when one did or when the entropy
    source refused the seed request. *)
Lemma get_random_cause (fuel : nat) (p_buf : option (list Z)) (size : Z)
    (w w' : world) (r : Z) (p_buf' : option (list Z)) (evs : list hal_event) :
  0 <= size -> ~ invalid_request p_buf size ->
  nrfx_cracen_ctr_drbg_get_random mdk hw fuel p_buf size w = Some ((r, p_buf'), w') ->
  trace w' = evs ++ trace w ->
  r = 0 /\ error_polls mdk evs = 0%nat /\ (3 <= cm_jobs evs)%nat
  \/ r = -1 /\ (error_polls mdk evs = 1%nat
                \/ evs = [] /\ ENTROPY_SIZE > rng_max_size mdk).
Proof.
  intros Hs Hval Hrun Htr.
  apply get_random_phases in Hrun as (r0 & w2 & Hpre & Hres); [|done].
  destruct (pre_phase_cause _ _ _ _ Hpre) as (evs0 & Htr0 & Hc).
  destruct Hres as [(Hne & [= -> ->] & ->)|(-> & Hgen)].
  - rewrite Htr0 in Htr. apply app_inv_tail in Htr as <-.
    right. split; [done|]. destruct Hc as [(Hf & _)|(_ & Hc)]; [done|exact Hc].
  - destruct Hc as [(_ & Herr0)|(Hf & _)]; [|done].
    apply get_random_generate_inv in Hgen
      as (k & rj & evs1 & Hjobs & Hk & Htr1 & _ & _ & _ & Hres); [|done].
    rewrite Htr1, Htr0, app_assoc in Htr. apply app_inv_tail in Htr as <-.
    rewrite error_polls_app, Herr0, (aes_jobs_error_polls mdk _ _ _ Hjobs).
    pose proof (aes_jobs_counts mdk _ _ _ Hjobs) as (_ & Hcount & _).
    destruct Hres as [(-> & -> & -> & _)|(-> & -> & _)].
    + left. split; [done|]. rewrite bool_decide_eq_false_2 by lia.
      split; [done|]. rewrite cm_jobs_app, Hcount. lia.
    + right. split; [done|]. left. now rewrite bool_decide_eq_true_2 by done.
Qed.

(** A request that has to seed or reseed returns -1 when the entropy source
    refuses the seed request. *)
Lemma get_random_entropy_refused (fuel : nat) (p_buf : option (list Z)) (size : Z)
    (w w' : world) (r : Z) (p_buf' : option (list Z)) :
  ~ invalid_request p_buf size ->
  ENTROPY_SIZE > rng_max_size mdk ->
  initialized (prng w) = false \/ reseed_counter (prng w) >= RESEED_INTERVAL ->
  nrfx_cracen_ctr_drbg_get_random mdk hw fuel p_buf size w = Some ((r, p_buf'), w') ->
  r = -1 /\ p_buf' = p_buf /\ trace w' = trace w.
Proof.
  intros Hval Hbig Hneed Hrun.
  apply get_random_phases in Hrun as (r0 & w2 & Hpre & Hres); [|done].
  assert (Hre : forall w0 w1 r1, cracen_ctr_drbg_reseed mdk hw fuel w0 = Some (r1, w1) ->
                                 r1 = -1 /\ w1 = w0).
  { intros w0 w1 r1 H. apply cracen_ctr_drbg_reseed_inv in H as [(_ & -> & ->)|(Hle & _)];
      [done|lia]. }
  assert (Hfail : r0 = -1 /\ trace w2 = trace w).
  { inversion Hpre as [Hi Hlt|r' w2' Hi Hge Hrun|r' w1 Hi Hrun]; subst.
    - destruct Hneed as [Hf|Hf]; [congruence|lia].
    - destruct (Hre _ _ _ Hrun) as [-> ->]. done.
    - apply nrfx_cracen_ctr_drbg_init_inv in Hrun as (w0 & Hrun & Htr & _ & _).
      destruct (Hre _ _ _ Hrun) as [-> ->]. split; [done|]. now rewrite Htr. }
  destruct Hfail as [-> Htr].
  destruct Hres as [(_ & [= -> ->] & ->)|(Hf & _)]; [done|lia].
Qed.

End Failure_cause.

(** * The worked-example peripherals meet the assumptions *)

Lemma AES256_encrypt_block (k x : list Z) :
  length (AES256.encrypt k x) = 16%nat /\ bytes (AES256.encrypt k x).
Proof.
  unfold AES256.encrypt. cbv zeta. unfold AES256.add_round_key. split.
  - now rewrite length_map, length_seq.
  - apply Forall_forall. intros b Hb. apply in_map_iff in Hb as (i & <- & _).
    apply land_255_byte.
Qed.

Lemma hw_ready_pushes_blocks : cm_pushes_blocks hw_ready.
Proof. intros k x. apply AES256_encrypt_block. Qed.

Lemma hw_ready_completes : cm_completes mdk_example hw_ready.
Proof.
  intros t. exists 0%nat. split; [intros j Hj; lia|]. split; [|done]. reflexivity.
Qed.

Lemma hw_ready_rng (size : Z) : size <= 64 -> rng_ready_from hw_ready size 0.
Proof.
  intros Hs t _. cbn [rng_fsm_state rng_fifo_level hw_ready].
  split; [done|]. split; [done|]. split; lia.
Qed.

Lemma rng_max_size_example : rng_max_size mdk_example = 64.
Proof. reflexivity. Qed.

Lemma hw_error_once_rng (size : Z) : size <= 64 -> rng_ready_from hw_error_once size 7.
Proof.
  intros Hs t Ht. cbn [rng_fsm_state rng_fifo_level hw_error_once].
  destruct (Nat.ltb_spec t 7) as [Hlt|_]; [lia|].
  split; [done|]. split; [done|]. split; lia.
Qed.

(** * The claims *)

(** C1: for every 48 bytes of entropy that [nrfx_cracen_rng_get_entropy]
    delivers to the zeroed generator, and every engine that completes its
    jobs and pushes 16-byte blocks, [nrfx_cracen_ctr_drbg_init] returns 0
    with the state [Reference.instantiate] gives, and a following
    [nrfx_cracen_ctr_drbg_get_random] of 32 bytes returns 0 with the output
    and the state [Reference.generate] gives (reseed counter 2): the output
    is a function of the entropy and the block cipher alone. *)
Theorem drbg_matches_reference (mdk : cracen_mdk) (hw : cracen_hw) (fuel : nat)
    (w w1 : world) (entropy buf : list Z) :
  cm_completes mdk hw -> cm_pushes_blocks hw ->
  nrfx_cracen_rng_get_entropy mdk hw fuel (replicate 48 0) 48 (with_prng prng_zero w)
  = Some ((0, entropy), w1) ->
  (32 <= length buf)%nat ->
  let E := cm_block_encrypt hw in
  let s0 := Reference.instantiate E entropy in
  let out := fst (Reference.generate E s0 32) in
  let s1 := snd (Reference.generate E s0 32) in
  exists f0 w2 w3,
    (forall f, (f0 <= f)%nat ->
       nrfx_cracen_ctr_drbg_init mdk hw f w = Some (0, w2)
       /\ nrfx_cracen_ctr_drbg_get_random mdk hw f (Some buf) 32 w2
          = Some ((0, Some (out ++ drop 32 buf)), w3))
    /\ holds (prng w2) s0 /\ initialized (prng w2) = true
    /\ holds (prng w3) s1 /\ initialized (prng w3) = true
    /\ length out = 32%nat
    /\ Reference.Reseed_counter s0 = 1 /\ Reference.Reseed_counter s1 = 2.
Proof.
  intros Hc Hwf Hent Hbuf E s0 out s1.
  destruct (cracen_ctr_drbg_reseed_returns_from mdk hw fuel entropy _ _ Hc Hent)
    as (wr & f1 & Hre).
  set (w2 := with_prng (with_initialized true (prng wr)) wr).
  assert (Hinit : forall f, (f1 <= f)%nat -> nrfx_cracen_ctr_drbg_init mdk hw f w = Some (0, w2)).
  { intros f Hf. rewrite nrfx_cracen_ctr_drbg_init_unfold, (Hre f Hf).
    now rewrite bool_decide_eq_false_2 by lia. }
  assert (Hle : (fuel <= Nat.max fuel f1)%nat) by lia.
  pose proof (nrfx_cracen_rng_get_entropy_mono mdk hw fuel (Nat.max fuel f1) _ _ _ _ Hent Hle)
    as Hent'.
  assert (Hle1 : (f1 <= Nat.max fuel f1)%nat) by lia.
  destruct (nrfx_cracen_ctr_drbg_init_refines mdk hw (Nat.max fuel f1) w w2 w1 entropy Hwf
              (Hinit _ Hle1) Hent') as (Hholds & Hlen & Hi2).
  assert (Hrc0 : Reference.Reseed_counter s0 = 1).
  { unfold s0, Reference.instantiate.
    now destruct (Reference.update E (Some entropy) (replicate 32 0) 0). }
  assert (Hval : ~ invalid_request (Some buf) 32).
  { unfold invalid_request. rewrite MAX_BYTES_PER_REQUEST_eq. intros [[_ Hf]|Hf]; [done|lia]. }
  assert (Hrc2 : reseed_counter (prng w2) < RESEED_INTERVAL).
  { destruct Hholds as (_ & _ & ->). fold E. fold s0. rewrite Hrc0, RESEED_INTERVAL_eq. lia. }
  destruct (get_random_returns_seeded mdk hw (Some buf) 32 w2 Hc Hi2 Hrc2 Hval)
    as (p' & w3 & f2 & Hgen).
  pose proof (Hgen f2 (Nat.le_refl f2)) as Hrun.
  rewrite (get_random_after_phase mdk hw f2 _ _ w2 w2 Hval (pre_none mdk hw f2 w2 Hi2 Hrc2))
    in Hrun.
  assert (H32 : 0 <= 32) by lia.
  assert (Hrange : 0 <= Reference.Reseed_counter s0 < 2 ^ 64 - 1) by (rewrite Hrc0; lia).
  destruct (get_random_generate_refines mdk hw f2 (Some buf) 32 w2 w3 p' s0 Hwf H32
              Hholds Hlen Hrange Hrun)
    as (Hholds3 & _ & Hi3 & Hlo & _ & Hout & _).
  specialize (Hout buf eq_refl Hbuf). subst p'.
  exists (Nat.max f1 f2), w2, w3.
  split; [intros f Hf; split; [apply Hinit; lia|apply Hgen; lia]|].
  split; [exact Hholds|]. split; [exact Hi2|]. split; [exact Hholds3|].
  split; [now rewrite Hi3|]. split; [exact Hlo|]. split; [exact Hrc0|].
  unfold s1, Reference.generate. cbv zeta.
  destruct (Reference.update E None (Reference.Key s0) _). cbn [snd Reference.Reseed_counter].
  rewrite Hrc0. reflexivity.
Qed.

Lemma drbg_matches_reference_witness :
  exists f0 w2 w3,
    forall f, (f0 <= f)%nat ->
      nrfx_cracen_ctr_drbg_init mdk_example hw_ready f world0 = Some (0, w2)
      /\ nrfx_cracen_ctr_drbg_get_random mdk_example hw_ready f (Some (replicate 32 0)) 32 w2
         = Some ((0, Some [166; 87; 112; 60; 235; 244; 234; 96; 127; 119; 81; 129; 164; 87;
                           169; 119; 32; 141; 38; 155; 19; 234; 20; 64; 173; 197; 217; 9;
                           186; 230; 159; 226]), w3).
Proof.
  destruct (nrfx_cracen_rng_get_entropy mdk_example hw_ready 1 (replicate 48 0) 48
              (with_prng prng_zero world0)) as [[[r e] w1]|] eqn:Hent.
  - assert (Hobs : r = 0
              /\ fst (Reference.generate AES256.encrypt
                        (Reference.instantiate AES256.encrypt e) 32)
                 ++ drop 32 (replicate 32 0)
                 = [166; 87; 112; 60; 235; 244; 234; 96; 127; 119; 81; 129; 164; 87;
                    169; 119; 32; 141; 38; 155; 19; 234; 20; 64; 173; 197; 217; 9;
                    186; 230; 159; 226]).
    { vm_compute in Hent. injection Hent as <- <- <-. split; vm_compute; reflexivity. }
    destruct Hobs as [-> Hout].
    destruct (drbg_matches_reference mdk_example hw_ready 1 world0 w1 e (replicate 32 0)
                hw_ready_completes hw_ready_pushes_blocks Hent)
      as (f0 & w2 & w3 & Hruns & _).
    { rewrite length_replicate. lia. }
    exists f0, w2, w3. intros f Hf. destruct (Hruns f Hf) as [H1 H2].
    split; [exact H1|]. rewrite H2. f_equal. f_equal. f_equal. f_equal. exact Hout.
  - vm_compute in Hent. discriminate Hent.
Defined.

(** C2 as stated fails: the test is [reseed_counter >= RESEED_INTERVAL].  A
    request that finds the counter at the interval minus 1 does not reseed
    (no entropy invocation) and leaves the counter at the interval, not
    at 2. *)
Lemma no_reseed_one_below_interval :
  option_map (fun '(x, w') =>
                (fst x, reseed_counter (prng w'), entropy_invocations (trace w')))
    (nrfx_cracen_ctr_drbg_get_random mdk_example hw_ready 1 (Some (replicate 16 0)) 16
       (world_seeded (2 ^ 48 - 1)))
  = Some (0, 2 ^ 48, 0%nat).
Proof. vm_compute. reflexivity. Qed.

(** C2, amended: a request that finds the reseed counter at or above the
    interval 2^48 reseeds first: exactly one entropy invocation, before any
    block-cipher job of the request (three for the reseed's update, then
    those of the output blocks and of the final update), and the counter
    reads 2 after the call.  A request that finds it below the interval, the
    interval minus 1 included, does not reseed and adds one to it. *)
Theorem reseed_at_interval (mdk : cracen_mdk) (hw : cracen_hw) (T : nat)
    (p_buf : option (list Z)) (size : Z) (w : world) :
  cm_completes mdk hw ->
  ENTROPY_SIZE <= rng_max_size mdk -> rng_ready_from hw ENTROPY_SIZE T ->
  0 <= size -> ~ invalid_request p_buf size ->
  initialized (prng w) = true -> 0 <= reseed_counter (prng w) < 2 ^ 64 - 1 ->
  exists p_buf' w' evs,
    returns (fun f => nrfx_cracen_ctr_drbg_get_random mdk hw f p_buf size) w (0, p_buf') w'
    /\ trace w' = evs ++ trace w
    /\ (reseed_counter (prng w) >= 2 ^ 48 ->
        reseed_counter (prng w') = 2
        /\ entropy_invocations evs = 1%nat
        /\ exists evs_gen evs_upd evs_ent,
             evs = evs_gen ++ evs_upd ++ evs_ent
             /\ entropy_events evs_ent /\ cm_jobs evs_ent = 0%nat
             /\ cm_jobs evs_upd = 3%nat
             /\ cm_jobs evs_gen = (3 + Reference.chunks size)%nat)
    /\ (reseed_counter (prng w) < 2 ^ 48 ->
        reseed_counter (prng w') = reseed_counter (prng w) + 1
        /\ entropy_invocations evs = 0%nat
        /\ cm_jobs evs = (3 + Reference.chunks size)%nat).
Proof.
  intros Hc Hmax Hrdy Hs Hval Hinit Hrc.
  destruct (get_random_returns mdk hw T p_buf size w Hc Hmax Hrdy Hval) as (p' & w' & f0 & Hret).
  pose proof (Hret f0 (Nat.le_refl f0)) as Hrun.
  apply get_random_phases in Hrun as (r0 & w2 & Hpre & Hres); [|done].
  destruct Hres as [(_ & Hf & _)|(-> & Hgen)]; [discriminate Hf|].
  apply get_random_generate_inv in Hgen
    as (k & rj & evs_g & Hjobs & Hk & Htr & _ & _ & _ & Hres); [|done].
  destruct Hres as [(_ & -> & -> & Hrc' & _)|(Hf & _)]; [|lia].
  pose proof (aes_jobs_counts mdk _ _ _ Hjobs) as (Hent_g & Hcount_g & _).
  rewrite <- RESEED_INTERVAL_eq.
  inversion Hpre as [Hi Hlt|r' w2' Hi Hge Hre|r' w1 Hi Hrun]; subst.
  - exists p', w', evs_g. split; [exists f0; exact Hret|]. split; [done|].
    split; [intros Hge; lia|]. intros _. split; [|done].
    rewrite Hrc'. apply Z.mod_small. lia.
  - apply cracen_ctr_drbg_reseed_inv in Hre
      as [(Hbig & _)|(_ & ent & w1 & evs_e & ku & ru & evs_u & _ & _ & _ & Htr1 & Hev & Htr2
                      & Hjobs_u & _ & _ & _ & Hres)]; [lia|].
    destruct Hres as [(_ & -> & -> & Hrc2 & _)|(Hf & _)]; [|lia].
    pose proof (aes_jobs_counts mdk _ _ _ Hjobs_u) as (Hent_u & Hcount_u & _).
    pose proof (entropy_events_counts _ Hev) as (Hent_e & Hcount_e).
    exists p', w', (evs_g ++ evs_u ++ evs_e).
    split; [exists f0; exact Hret|].
    split; [now rewrite Htr, Htr2, Htr1, <- !app_assoc|].
    split; [|intros Hlt; lia]. intros _.
    split; [rewrite Hrc', Hrc2; reflexivity|].
    split; [rewrite !entropy_invocations_app; lia|].
    exists evs_g, evs_u, evs_e. done.
  - congruence.
Qed.

Lemma reseed_at_interval_witness :
  exists p_buf' w' evs,
    returns (fun f => nrfx_cracen_ctr_drbg_get_random mdk_example hw_ready f
                        (Some (replicate 16 0)) 16) (world_seeded (2 ^ 48)) (0, p_buf') w'
    /\ trace w' = evs ++ []
    /\ reseed_counter (prng w') = 2
    /\ entropy_invocations evs = 1%nat.
Proof.
  destruct (reseed_at_interval mdk_example hw_ready 0 (Some (replicate 16 0)) 16
              (world_seeded (2 ^ 48)))
    as (p' & w' & evs & Hret & Htr & Hge & _).
  - apply hw_ready_completes.
  - rewrite rng_max_size_example. unfold ENTROPY_SIZE, KEY_SIZE, AES_BLK_SZ. lia.
  - apply hw_ready_rng. unfold ENTROPY_SIZE, KEY_SIZE, AES_BLK_SZ. lia.
  - lia.
  - unfold invalid_request. rewrite MAX_BYTES_PER_REQUEST_eq. intros [[_ Hf]|Hf]; [done|lia].
  - reflexivity.
  - cbn [reseed_counter prng world_seeded]. lia.
  - exists p', w', evs. split; [exact Hret|]. split; [exact Htr|].
    destruct Hge as (Hrc & Hent & _); [cbn [reseed_counter prng world_seeded]; lia|].
    split; [exact Hrc|exact Hent].
Defined.

(** C3 as stated fails: [ctr_drbg_update] increments the counter block in
    place before each block-cipher call, so when its first call fails the
    counter block is left one higher than it was. *)
Lemma update_failure_keeps_increment :
  ctr_drbg_update mdk_example hw_fetch_error 1 None (world_seeded 1)
  = Some (-1, world_after_failed_update)
  /\ V (prng (world_seeded 1)) = [0; 0; 0; 0; 0; 0; 0; 0; 0; 0; 0; 0; 0; 0; 0; 0]
  /\ V (prng world_after_failed_update) = [0; 0; 0; 0; 0; 0; 0; 0; 0; 0; 0; 0; 0; 0; 0; 1]
  /\ prng world_after_failed_update <> prng (world_seeded 1).
Proof.
  split; [vm_compute; reflexivity|]. split; [reflexivity|]. split; [reflexivity|].
  discriminate.
Qed.

(** C3, amended: [ctr_drbg_update] returns 0 or -1; it returns -1 exactly
    when one of its block-cipher jobs failed (it is the last job it ran, the
    first, second or third, and the newest poll in the trace read an error).
    On failure the key, the reseed counter and the initialized flag are what
    they were, and the counter block has been incremented once for each job
    it ran, the failed one included: it is not restored. *)
Theorem ctr_drbg_update_failure (mdk : cracen_mdk) (hw : cracen_hw) (fuel : nat)
    (data : option (list Z)) (w w' : world) (r : Z) :
  ctr_drbg_update mdk hw fuel data w = Some (r, w') ->
  (r = 0 \/ r = -1)
  /\ (r = -1 <-> cm_job_failed mdk w')
  /\ exists k evs,
       trace w' = evs ++ trace w /\ cm_jobs evs = k /\ (1 <= k <= 3)%nat
       /\ (r = -1 <-> error_polls mdk evs = 1%nat)
       /\ (r = 0 -> k = 3%nat)
       /\ (r = -1 ->
           key (prng w') = key (prng w)
           /\ reseed_counter (prng w') = reseed_counter (prng w)
           /\ initialized (prng w') = initialized (prng w)
           /\ V (prng w') = be_incr_n k (V (prng w))
           /\ (bytes (V (prng w)) -> length (V (prng w)) = 16%nat ->
               be_value (V (prng w')) = (be_value (V (prng w)) + Z.of_nat k) mod 2 ^ 128
               /\ V (prng w') <> V (prng w))).
Proof.
  intros Hrun.
  apply ctr_drbg_update_inv in Hrun
    as (k & r0 & evs & Hjobs & Hk & Htr & Hen & Hrc & Hin & Hres).
  pose proof (aes_jobs_counts mdk _ _ _ Hjobs) as (_ & Hcount & _).
  pose proof (aes_jobs_error_polls mdk _ _ _ Hjobs) as Herr.
  destruct Hres as [(-> & -> & -> & _)|(-> & -> & Hprng)].
  - split; [now left|]. split.
    { split; [done|]. intros Hf.
      now destruct (aes_jobs_done_not_failed mdk _ _ _ _ Hjobs ltac:(lia) Htr). }
    exists 3%nat, evs. split; [done|]. split; [done|]. split; [lia|].
    rewrite bool_decide_eq_false_2 in Herr by lia.
    split; [split; [done|lia]|]. split; [done|]. done.
  - split; [now right|]. split.
    { split; [|done]. intros _. now apply (aes_jobs_failed_world mdk _ _ _ _ Hjobs Htr). }
    exists k, evs. split; [done|]. split; [done|]. split; [done|].
    rewrite bool_decide_eq_true_2 in Herr by done.
    split; [done|]. split; [intros Hf; lia|]. intros _.
    rewrite Hprng. cbn [key V reseed_counter initialized with_V].
    split; [done|]. split; [done|]. split; [done|]. split; [done|].
    intros Hb Hl. rewrite (be_incr_n_value k _ Hb Hl).
    rewrite be_value_be_bytes, pow_256_16, Z.mod_mod by lia. split; [done|].
    intros Heq. apply (f_equal be_value) in Heq.
    rewrite be_value_be_bytes, pow_256_16, Z.mod_mod in Heq by lia.
    pose proof (be_value_range _ Hb) as Hrange. rewrite Hl, pow_256_16 in Hrange.
    destruct (decide (be_value (V (prng w)) + Z.of_nat k < 2 ^ 128)) as [Hlt|Hge].
    + rewrite Z.mod_small in Heq by lia. lia.
    + replace (be_value (V (prng w)) + Z.of_nat k)
        with ((be_value (V (prng w)) + Z.of_nat k - 2 ^ 128) + 1 * 2 ^ 128) in Heq by lia.
      rewrite Z.mod_add, Z.mod_small in Heq by lia. lia.
Qed.

Lemma ctr_drbg_update_failure_witness :
  cm_job_failed mdk_example world_after_failed_update
  /\ be_value (V (prng world_after_failed_update)) = 1.
Proof.
  destruct (ctr_drbg_update_failure mdk_example hw_fetch_error 1 None (world_seeded 1)
              world_after_failed_update (-1))
    as (_ & Hfail & _).
  - vm_compute. reflexivity.
  - split; [now apply Hfail|reflexivity].
Defined.

(** C4: [nrfx_cracen_ctr_drbg_get_random] answers -2, with the world (state
    and trace of HAL calls) untouched, to every request of more than 65536
    bytes and to every request of more than 0 bytes into a null buffer; it
    answers -2 to no other request, and otherwise 0 or -1; a request of 65536
    bytes into a buffer is not refused, and returns 0 when the engine
    completes its jobs and the noise source gets ready.  Every other failure
    gives -1: a request that is not refused returns -1 whenever a poll of one
    of its block-cipher jobs read a fetch or push error, and whenever it has
    to seed or reseed and the entropy source refuses the seed request; it
    returns 0 only when no poll read an error, and -1 for no other reason
    than these two. *)
Theorem get_random_argument_check (mdk : cracen_mdk) (hw : cracen_hw) (fuel : nat)
    (p_buf : option (list Z)) (size : Z) (w : world) :
  0 <= size ->
  MAX_BYTES_PER_REQUEST = 65536
  /\ (size > 65536 \/ size > 0 /\ p_buf = None ->
      nrfx_cracen_ctr_drbg_get_random mdk hw fuel p_buf size w = Some ((-2, p_buf), w))
  /\ (forall r p_buf' w',
        nrfx_cracen_ctr_drbg_get_random mdk hw fuel p_buf size w = Some ((r, p_buf'), w') ->
        (r = 0 \/ r = -1 \/ r = -2)
        /\ (r = -2 <-> size > 65536 \/ size > 0 /\ p_buf = None))
  /\ (forall T, size <= 65536 -> p_buf <> None ->
        cm_completes mdk hw -> ENTROPY_SIZE <= rng_max_size mdk ->
        rng_ready_from hw ENTROPY_SIZE T ->
        exists p_buf' w',
          returns (fun f => nrfx_cracen_ctr_drbg_get_random mdk hw f p_buf size) w
            (0, p_buf') w')
  /\ (forall r p_buf' w' evs,
        size <= 65536 -> (size > 0 -> p_buf <> None) ->
        nrfx_cracen_ctr_drbg_get_random mdk hw fuel p_buf size w = Some ((r, p_buf'), w') ->
        trace w' = evs ++ trace w ->
        ((0 < error_polls mdk evs)%nat -> r = -1)
        /\ (ENTROPY_SIZE > rng_max_size mdk ->
            initialized (prng w) = false \/ reseed_counter (prng w) >= RESEED_INTERVAL ->
            r = -1)
        /\ (r = 0 /\ error_polls mdk evs = 0%nat /\ (3 <= cm_jobs evs)%nat
            \/ r = -1 /\ (error_polls mdk evs = 1%nat
                          \/ evs = [] /\ ENTROPY_SIZE > rng_max_size mdk))).
Proof.
  intros Hs. split; [reflexivity|].
  assert (Hiff : invalid_request p_buf size <-> size > 65536 \/ size > 0 /\ p_buf = None).
  { unfold invalid_request. rewrite MAX_BYTES_PER_REQUEST_eq. tauto. }
  split; [|split; [|split]]; cycle 3.
  { intros r p' w' evs Hle Hbuf Hrun Htr.
    assert (Hval : ~ invalid_request p_buf size).
    { rewrite Hiff. intros [Hf|[Hpos Hf]]; [lia|now apply Hbuf]. }
    pose proof (get_random_cause mdk hw fuel p_buf size w w' r p' evs Hs Hval Hrun Htr)
      as Hcause.
    split; [|split; [|exact Hcause]].
    - intros Herr. destruct Hcause as [(_ & H0 & _)|(-> & _)]; [lia|reflexivity].
    - intros Hbig Hneed.
      exact (proj1 (get_random_entropy_refused mdk hw fuel p_buf size w w' r p' Hval Hbig
                      Hneed Hrun)). }
  - intros Hinv. apply get_random_invalid. now apply Hiff.
  - intros r p' w' Hrun. rewrite <- Hiff.
    apply get_random_inv in Hrun as [(Hinv & -> & _)|(Hval & Hr & _)]; [| |done].
    + split; [auto|]. done.
    + split; [destruct Hr as [->| ->]; auto|].
      split; [intros ->; lia|done].
  - intros T Hle Hbuf Hc Hmax Hrdy. apply (get_random_returns mdk hw T); try done.
    rewrite Hiff. intros [Hf|[_ Hf]]; [lia|done].
Qed.

Lemma get_random_argument_check_witness :
  0 <= 65536
  /\ (exists p_buf' w',
        returns (fun f => nrfx_cracen_ctr_drbg_get_random mdk_example hw_ready f
                            (Some (replicate (Z.to_nat 65536) 0)) 65536) world0
          (0, p_buf') w')
  /\ match nrfx_cracen_ctr_drbg_get_random mdk_example hw_second_job_fails 1
              (Some (replicate 32 0)) 32 (world_seeded 1) with
     | Some ((r, _), w') => r = -1 /\ error_polls mdk_example (trace w') = 1%nat
     | None => False
     end.
Proof.
  split; [lia|]. split.
  - destruct (get_random_argument_check mdk_example hw_ready 0
                (Some (replicate (Z.to_nat 65536) 0)) 65536 world0 ltac:(lia))
      as (_ & _ & _ & Hok & _).
    apply (Hok 0%nat); [lia|done|apply hw_ready_completes| |apply hw_ready_rng].
    + rewrite rng_max_size_example. unfold ENTROPY_SIZE, KEY_SIZE, AES_BLK_SZ. lia.
    + unfold ENTROPY_SIZE, KEY_SIZE, AES_BLK_SZ. lia.
  - destruct (nrfx_cracen_ctr_drbg_get_random mdk_example hw_second_job_fails 1
                (Some (replicate 32 0)) 32 (world_seeded 1))
      as [[[r p_buf'] w']|] eqn:Hrun.
    + assert (Herr : error_polls mdk_example (trace w') = 1%nat).
      { vm_compute in Hrun. injection Hrun as <- <- <-. reflexivity. }
      assert (H32 : 0 <= 32) by lia.
      destruct (get_random_argument_check mdk_example hw_second_job_fails 1
                  (Some (replicate 32 0)) 32 (world_seeded 1) H32)
        as (_ & _ & _ & _ & Hfail).
      destruct (Hfail r p_buf' w' (trace w')) as (Hr & _);
        [lia|discriminate|exact Hrun|now rewrite app_nil_r|].
      split; [apply Hr; lia|exact Herr].
    + vm_compute in Hrun. discriminate Hrun.
Defined.

(** C5 as stated fails: a request of 0 bytes with a null buffer is not
    refused and writes nothing, but it runs the final update: three
    block-cipher jobs, a new key and counter block, and one more on the
    reseed counter. *)
Lemma zero_bytes_still_updates :
  option_map (fun '(x, w') =>
                (x, cm_jobs (trace w'), reseed_counter (prng w'), V (prng w')))
    (nrfx_cracen_ctr_drbg_get_random mdk_example hw_ready 1 None 0 (world_seeded 1))
  = Some ((0, None), 3%nat, 2,
          [114; 96; 3; 202; 55; 166; 42; 116; 209; 162; 245; 142; 117; 6; 53; 142])
  /\ trace (world_seeded 1) = []
  /\ reseed_counter (prng (world_seeded 1)) = 1
  /\ V (prng (world_seeded 1)) = [0; 0; 0; 0; 0; 0; 0; 0; 0; 0; 0; 0; 0; 0; 0; 0].
Proof. split; [vm_compute; reflexivity|]. split; [|split]; reflexivity. Qed.

(** C5, amended: a request of 0 bytes with a null buffer is not refused;
    with an engine that completes its jobs it returns 0 and writes nothing,
    and it is not without effect: it runs the final update.  On a seeded
    generator below the reseed interval that is exactly three block-cipher
    jobs and no entropy invocation, the key and the counter block become
    what the reference's update without data gives, and the reseed counter
    goes up by one. *)
Theorem generate_zero_bytes (mdk : cracen_mdk) (hw : cracen_hw) (w : world)
    (s : Reference.state) :
  cm_completes mdk hw -> cm_pushes_blocks hw ->
  initialized (prng w) = true ->
  holds (prng w) s -> length (Reference.Key s) = 32%nat ->
  0 <= Reference.Reseed_counter s < 2 ^ 48 ->
  ~ invalid_request None 0
  /\ exists w' evs,
       returns (fun f => nrfx_cracen_ctr_drbg_get_random mdk hw f None 0) w (0, None) w'
       /\ trace w' = evs ++ trace w
       /\ cm_jobs evs = 3%nat /\ entropy_invocations evs = 0%nat
       /\ cm_enabled w' = false
       /\ holds (prng w') (snd (Reference.generate (cm_block_encrypt hw) s 0))
       /\ Reference.generate (cm_block_encrypt hw) s 0
          = ([], let '(K, v) := Reference.update (cm_block_encrypt hw) None
                                  (Reference.Key s) (Reference.Ctr s mod 2 ^ 128) in
                 {| Reference.Key := K; Reference.Ctr := v;
                    Reference.Reseed_counter := Reference.Reseed_counter s + 1 |})
       /\ reseed_counter (prng w') = reseed_counter (prng w) + 1.
Proof.
  intros Hc Hwf Hinit Hholds Hlen Hrc.
  assert (Hval : ~ invalid_request None 0).
  { unfold invalid_request. rewrite MAX_BYTES_PER_REQUEST_eq. intros [[Hf _]|Hf]; lia. }
  split; [exact Hval|].
  assert (Hlt : reseed_counter (prng w) < RESEED_INTERVAL).
  { destruct Hholds as (_ & _ & ->). rewrite RESEED_INTERVAL_eq. lia. }
  destruct (get_random_returns_seeded mdk hw None 0 w Hc Hinit Hlt Hval)
    as (p' & w' & f0 & Hret).
  pose proof (Hret f0 (Nat.le_refl f0)) as Hrun.
  rewrite (get_random_after_phase mdk hw f0 _ _ w w Hval (pre_none mdk hw f0 w Hinit Hlt))
    in Hrun.
  assert (Hen : cm_enabled w' = false).
  { apply get_random_generate_inv in Hrun as (k & rj & evs' & _ & _ & _ & Hen & _); [|lia].
    exact Hen. }
  assert (H0 : 0 <= 0) by lia.
  assert (Hrange : 0 <= Reference.Reseed_counter s < 2 ^ 64 - 1) by lia.
  destruct (get_random_generate_refines mdk hw f0 None 0 w w' p' s Hwf H0 Hholds Hlen
              Hrange Hrun)
    as (Hholds' & _ & _ & _ & Hnone & _ & evs & Htr & Hjobs & Hent).
  rewrite (Hnone eq_refl) in Hret.
  exists w', evs. split; [exists f0; exact Hret|]. split; [exact Htr|].
  split; [exact Hjobs|]. split; [exact Hent|]. split; [exact Hen|].
  split; [exact Hholds'|]. split.
  - unfold Reference.generate. change (Reference.chunks 0) with 0%nat. cbv zeta.
    rewrite Z.add_0_r.
    destruct (Reference.update (cm_block_encrypt hw) None (Reference.Key s)
                (Reference.Ctr s mod 2 ^ 128)) as [K v].
    reflexivity.
  - destruct Hholds' as (_ & _ & Hrc'). destruct Hholds as (_ & _ & Hrc0).
    rewrite Hrc', Hrc0. unfold Reference.generate. cbv zeta.
    now destruct (Reference.update (cm_block_encrypt hw) None (Reference.Key s) _).
Qed.

Lemma generate_zero_bytes_witness :
  exists w' evs,
    returns (fun f => nrfx_cracen_ctr_drbg_get_random mdk_example hw_ready f None 0)
      (world_seeded 1) (0, None) w'
    /\ trace w' = evs ++ []
    /\ cm_jobs evs = 3%nat
    /\ reseed_counter (prng w') = 2.
Proof.
  destruct (generate_zero_bytes mdk_example hw_ready (world_seeded 1)
              {| Reference.Key := replicate 32 0; Reference.Ctr := 0;
                 Reference.Reseed_counter := 1 |})
    as (_ & w' & evs & Hret & Htr & Hjobs & _ & _ & _ & _ & Hrc).
  - apply hw_ready_completes.
  - apply hw_ready_pushes_blocks.
  - reflexivity.
  - split; [reflexivity|]. split; reflexivity.
  - reflexivity.
  - cbn [Reference.Reseed_counter]. lia.
  - exists w', evs. split; [exact Hret|]. split; [exact Htr|]. split; [exact Hjobs|].
    exact Hrc.
Defined.

(** C6 as stated fails for the final update: it takes three blocks, not
    one, and then replaces the counter block.  A request of 16 bytes on a
    counter block of 0 encrypts the counter values 1 (output) and 2, 3, 4
    (update), and leaves as counter block the third update block, not 2. *)
Lemma update_takes_three_blocks :
  option_map (fun '(x, w') => (fst x, rev (cm_inputs (trace w')), V (prng w')))
    (nrfx_cracen_ctr_drbg_get_random mdk_example hw_ready 1 (Some (replicate 16 0)) 16
       (world_seeded 1))
  = Some (0,
          [ [0; 0; 0; 0; 0; 0; 0; 0; 0; 0; 0; 0; 0; 0; 0; 1];
            [0; 0; 0; 0; 0; 0; 0; 0; 0; 0; 0; 0; 0; 0; 0; 2];
            [0; 0; 0; 0; 0; 0; 0; 0; 0; 0; 0; 0; 0; 0; 0; 3];
            [0; 0; 0; 0; 0; 0; 0; 0; 0; 0; 0; 0; 0; 0; 0; 4] ],
          [221; 74; 177; 40; 77; 74; 225; 123; 65; 232; 89; 36; 71; 12; 54; 247])
  /\ V (prng (world_seeded 1)) = be_bytes 16 0
  /\ be_bytes 16 2 = [0; 0; 0; 0; 0; 0; 0; 0; 0; 0; 0; 0; 0; 0; 0; 2].
Proof. split; [vm_compute; reflexivity|]. split; reflexivity. Qed.

(** C6, amended: [be_incr] on 16 bytes adds one to the big-endian 128-bit
    number, wrapping at 2^128.  Within a request (seeded generator, below
    the reseed interval) the counter block goes up by exactly one before
    each block-cipher job: the jobs of the [n] output blocks encrypt
    [c + 1 .. c + n], and the final update takes three more blocks, from
    [c + n + 1 .. c + n + 3]; the 48 bytes of those three become the new key
    and the new counter block, so that across requests the counter block
    does not go up by one per block.  A request that fails after [k] jobs
    leaves the counter block at [c + k]. *)
Theorem counter_block_progress (mdk : cracen_mdk) (hw : cracen_hw) :
  (forall v, bytes v -> length v = 16%nat ->
     be_incr v 16 = be_bytes 16 ((be_value v + 1) mod 2 ^ 128)
     /\ be_value (be_incr v 16) = (be_value v + 1) mod 2 ^ 128
     /\ length (be_incr v 16) = 16%nat /\ bytes (be_incr v 16))
  /\ (forall E n K v,
        Reference.blocks E (S n) K v
        = E K (be_bytes 16 ((v + 1) mod 2 ^ 128))
          ++ Reference.blocks E n K ((v + 1) mod 2 ^ 128))
  /\ (forall fuel p_buf size w r p_buf' w' c,
        0 <= size -> ~ invalid_request p_buf size ->
        initialized (prng w) = true -> reseed_counter (prng w) < RESEED_INTERVAL ->
        V (prng w) = be_bytes 16 c -> length (key (prng w)) = 32%nat ->
        cm_pushes_blocks hw ->
        nrfx_cracen_ctr_drbg_get_random mdk hw fuel p_buf size w = Some ((r, p_buf'), w') ->
        let n := Reference.chunks size in
        let K := key (prng w) in
        let E := cm_block_encrypt hw in
        exists k evs,
          trace w' = evs ++ trace w /\ cm_jobs evs = k /\ (1 <= k <= n + 3)%nat
          /\ (r = 0 \/ r = -1)
          /\ (r = 0 ->
              k = (n + 3)%nat
              /\ (forall buf, p_buf = Some buf -> (Z.to_nat size <= length buf)%nat ->
                    p_buf' = Some (take (Z.to_nat size) (Reference.blocks E n K c)
                                   ++ drop (Z.to_nat size) buf))
              /\ key (prng w') ++ V (prng w')
                 = Reference.blocks E 3 K ((c + Z.of_nat n) mod 2 ^ 128))
          /\ (r = -1 ->
              key (prng w') = K
              /\ V (prng w') = be_bytes 16 ((c + Z.of_nat k) mod 2 ^ 128))).
Proof.
  split; [|split].
  - intros v Hb Hl. pose proof (be_incr_block v Hb Hl) as Heq.
    change (Z.to_nat AES_BLK_SZ) with 16%nat in Heq. rewrite Heq.
    split; [reflexivity|]. split; [|split].
    + now rewrite be_value_be_bytes, pow_256_16, Z.mod_mod by lia.
    + apply be_bytes_length.
    + apply be_bytes_bytes.
  - reflexivity.
  - intros fuel p_buf size w r p' w' c Hs Hval Hinit Hlt HV HK Hwf Hrun.
    rewrite (get_random_after_phase mdk hw fuel _ _ w w Hval (pre_none mdk hw fuel w Hinit Hlt))
      in Hrun.
    apply get_random_generate_inv in Hrun
      as (k & rj & evs & Hjobs & Hk & Htr & _ & _ & _ & Hres); [|done].
    pose proof (aes_jobs_counts mdk _ _ _ Hjobs) as (_ & Hcount & _).
    cbv zeta. exists k, evs. split; [exact Htr|]. split; [exact Hcount|].
    destruct (drbg_blocks_reference hw (Reference.chunks size) (key (prng w)) c HK)
      as [Hblocks Hincr].
    destruct Hres as [(-> & -> & -> & _ & Hst)|(-> & -> & Hle & Hkey & _ & HV')].
    + split; [lia|]. split; [now left|]. split; [|intros Hf; lia]. intros _.
      split; [lia|]. destruct (Hst Hwf) as (Hk' & HV' & Hbuf).
      rewrite HV in Hk', HV', Hbuf. rewrite Hincr in Hk', HV'. rewrite Hblocks in Hbuf.
      split; [exact Hbuf|].
      unfold drbg_update_temp in Hk', HV'. cbv zeta in Hk', HV'.
      destruct (drbg_blocks_reference hw 3 (key (prng w))
                  ((c + Z.of_nat (Reference.chunks size)) mod 2 ^ 128) HK) as [Hb3 _].
      rewrite Hb3 in Hk', HV'.
      destruct (reference_blocks_length hw 3 (key (prng w))
                  ((c + Z.of_nat (Reference.chunks size)) mod 2 ^ 128) Hwf) as [Hl3 _].
      rewrite Hk', HV'. change (Z.to_nat KEY_SIZE) with 32%nat.
      change (Z.to_nat AES_BLK_SZ) with 16%nat.
      rewrite (take_ge (drop 32 _)) by (rewrite length_drop, Hl3; lia).
      apply take_drop.
    + split; [lia|]. split; [now right|]. split; [intros Hf; lia|]. intros _.
      split; [exact Hkey|]. rewrite HV', HV.
      now destruct (drbg_blocks_reference hw k (key (prng w)) c HK) as [_ ->].
Qed.

Lemma counter_block_progress_witness :
  be_incr (replicate 16 255) 16 = replicate 16 0
  /\ be_incr (replicate 15 0 ++ [255]) 16 = replicate 14 0 ++ [1; 0].
Proof.
  destruct (counter_block_progress mdk_example hw_ready) as (Hincr & _).
  split.
  - destruct (Hincr (replicate 16 255)) as (-> & _); [|reflexivity|vm_compute; reflexivity].
    unfold bytes. cbn [replicate].
    repeat (apply List.Forall_cons; [unfold is_byte; lia|]). apply List.Forall_nil.
  - destruct (Hincr (replicate 15 0 ++ [255])) as (-> & _);
      [|reflexivity|vm_compute; reflexivity].
    unfold bytes. cbn [replicate app].
    repeat (apply List.Forall_cons; [unfold is_byte; lia|]). apply List.Forall_nil.
Defined.

(** C7: [cracen_trng_init] clears the conditioning-key flag and soft-resets
    the TRNG.  From then on, as long as [key_programmed] holds of the events
    since the last soft reset (it does after the initialisation, and every
    attempt of [cracen_trng_get] that does not ask for a reset keeps it),
    the FIFO words read since that reset start with four words written to
    the key registers 0 to 3, once, and an attempt that returns 0 hands out
    bytes of the words read after them only.  A call of
    [nrfx_cracen_rng_get_entropy] within the size bound returns 0 with the
    first [size] bytes of exactly ceil(size/4) words, each word least
    significant byte first, read after the four key words; and an attempt
    with the key programmed and at least ceil(size/4) words in the FIFO
    drains exactly that many and returns 0. *)
Theorem conditioning_key_then_entropy (mdk : cracen_mdk) (hw : cracen_hw) :
  (forall w, exists w',
     cracen_trng_init w = Some (tt, w')
     /\ trace w' = trng_init_events ++ trace w
     /\ conditioning_key_set w' = false
     /\ fifo_words (since_reset (trace w')) = []
     /\ key_words_set (since_reset (trace w')) = [])
  /\ (forall dst size w,
        0 <= size ->
        key_programmed (conditioning_key_set w) (since_reset (trace w)) ->
        exists r dst' w',
          cracen_trng_get hw dst size w = Some ((r, dst'), w')
          /\ (r = TRNG_RESET_NEEDED /\ dst' = dst
              \/ r = HW_PROCESSING /\ dst' = dst
                 /\ key_programmed (conditioning_key_set w') (since_reset (trace w'))
              \/ r = OK
                 /\ exists k0 k1 k2 k3 words,
                      length words = words_for size
                      /\ dst' = list_inserts 0
                                  (take (Z.to_nat size) (flat_map le_bytes words)) dst
                      /\ fifo_words (since_reset (trace w')) = rev words ++ [k3; k2; k1; k0]
                      /\ key_words_set (since_reset (trace w'))
                         = [(3, k3); (2, k2); (1, k1); (0, k0)]))
  /\ (forall fuel p_buf size w r buf' w',
        0 <= size <= rng_max_size mdk ->
        nrfx_cracen_rng_get_entropy mdk hw fuel p_buf size w = Some ((r, buf'), w') ->
        r = 0
        /\ exists k0 k1 k2 k3 words,
             length words = Z.to_nat ((size + 3) / 4)
             /\ buf' = list_inserts 0 (take (Z.to_nat size) (flat_map le_bytes words)) p_buf
             /\ fifo_words (since_reset (trace w')) = rev words ++ [k3; k2; k1; k0]
             /\ key_words_set (since_reset (trace w')) = [(3, k3); (2, k2); (1, k1); (0, k0)])
  /\ (forall dst size w,
        0 <= size ->
        let st := rng_fsm_state hw (now w) in
        let level := rng_fifo_level hw (1 + now w) in
        st <> STATE_ERROR -> st <> STATE_RESET -> conditioning_key_set w = true ->
        0 <= level < 2 ^ 30 -> (size + 3) / 4 <= level ->
        exists words,
          length words = Z.to_nat ((size + 3) / 4)
          /\ cracen_trng_get hw dst size w
             = Some ((0, list_inserts 0 (take (Z.to_nat size) (flat_map le_bytes words)) dst),
                     emit (map ev_rng_fifo_get (rev words)
                           ++ [ev_rng_fifo_level_get level; ev_rng_fsm_state_get st]) w))
  /\ (forall x, le_bytes x = [Z.land x 255; Z.land (Z.shiftr x 8) 255;
                              Z.land (Z.shiftr x 16) 255; Z.land (Z.shiftr x 24) 255]).
Proof.
  split; [|split; [|split; [|split]]].
  - apply cracen_trng_init_key.
  - intros dst size w. apply cracen_trng_get_key.
  - intros fuel p_buf size w r buf' w' [Hs Hmax] Hrun.
    apply nrfx_cracen_rng_get_entropy_inv in Hrun
      as [(Hbig & _)|(_ & -> & evs & k0 & k1 & k2 & k3 & words & _ & _ & _ & _ & _ & _ & _
                      & Hlen & Hbuf & Hfifo & Hkey)]; [lia| |done].
    split; [reflexivity|]. exists k0, k1, k2, k3, words. done.
  - intros dst size w Hs st level Hne Hnr Hset Hlev Hwords.
    destruct (cracen_trng_get_waits hw dst size w Hs) as (_ & _ & _ & _ & Hdata).
    assert (Hmod : rng_fifo_level hw (1 + now w) mod 2 ^ 32 = level).
    { apply Z.mod_small. unfold level in *. lia. }
    rewrite Hmod in Hdata.
    destruct (Hdata Hne Hnr Hset) as (words & Hlen & Hrun).
    { apply words_for_level; [done|done|]. unfold words_for.
      rewrite Z2Nat.id by (apply Z.div_pos; lia). done. }
    exists words. split; [done|]. exact Hrun.
  - reflexivity.
Qed.

Lemma conditioning_key_then_entropy_witness :
  match nrfx_cracen_rng_get_entropy mdk_example hw_ready 1 [0; 0; 0; 0; 0; 0; 0; 0] 6 world0
  with
  | Some ((r, buf'), w') =>
      r = 0 /\ buf' = [17; 17; 17; 17; 18; 18; 0; 0]
      /\ fifo_words (since_reset (trace w'))
         = [303174162; 286331153; 235802126; 202116108; 168430090; 134744072]
      /\ exists k0 k1 k2 k3 words,
           length words = 2%nat
           /\ fifo_words (since_reset (trace w')) = rev words ++ [k3; k2; k1; k0]
           /\ key_words_set (since_reset (trace w')) = [(3, k3); (2, k2); (1, k1); (0, k0)]
  | None => False
  end.
Proof.
  destruct (nrfx_cracen_rng_get_entropy mdk_example hw_ready 1 [0; 0; 0; 0; 0; 0; 0; 0] 6
              world0) as [[[r buf'] w']|] eqn:Hrun.
  - destruct (conditioning_key_then_entropy mdk_example hw_ready) as (_ & _ & Hcall & _).
    destruct (Hcall 1%nat [0; 0; 0; 0; 0; 0; 0; 0] 6 world0 r buf' w')
      as (Hr & k0 & k1 & k2 & k3 & words & Hlen & _ & Hfifo & Hkey).
    { rewrite rng_max_size_example. lia. }
    { exact Hrun. }
    split; [exact Hr|].
    assert (Hobs : buf' = [17; 17; 17; 17; 18; 18; 0; 0]
                   /\ fifo_words (since_reset (trace w'))
                      = [303174162; 286331153; 235802126; 202116108; 168430090; 134744072]).
    { vm_compute in Hrun. injection Hrun as <- <- <-. split; reflexivity. }
    destruct Hobs as [Hbuf Hwords]. split; [exact Hbuf|]. split; [exact Hwords|].
    exists k0, k1, k2, k3, words. split; [exact Hlen|]. split; [exact Hfifo|exact Hkey].
  - vm_compute in Hrun. discriminate Hrun.
Defined.


(** C9: every call of [nrfx_cracen_cm_aes_ecb] that returns, with 0 or with
    -2, has soft-reset the CryptoMaster core and then disabled the module as
    its last two HAL calls, and it returns whenever the engine completes the
    job.  A [nrfx_cracen_ctr_drbg_get_random] call during which a poll read a
    fetch or push error returns -1 with those two calls as its last and the
    module disabled; no call of it leaves enabled a module it found
    disabled. *)
Theorem aes_ecb_resets_and_disables (mdk : cracen_mdk) (hw : cracen_hw) :
  (forall fuel key_p key_size input_p output_p w r out w',
     nrfx_cracen_cm_aes_ecb mdk hw fuel key_p key_size input_p output_p w
     = Some ((r, out), w') ->
     (r = 0 \/ r = -2) /\ cm_enabled w' = false
     /\ exists evs,
          trace w' = ev_module_disable CRYPTOMASTER :: ev_cm_softreset :: evs ++ trace w)
  /\ (forall key_p key_size input_p output_p w,
        cm_completes mdk hw ->
        exists out w',
          returns (fun f => nrfx_cracen_cm_aes_ecb mdk hw f key_p key_size input_p output_p)
            w (0, out) w')
  /\ (forall fuel p_buf size w r p_buf' w' evs,
        0 <= size ->
        nrfx_cracen_ctr_drbg_get_random mdk hw fuel p_buf size w = Some ((r, p_buf'), w') ->
        trace w' = evs ++ trace w ->
        (0 < error_polls mdk evs)%nat ->
        r = -1 /\ cm_enabled w' = false
        /\ exists rest, evs = ev_module_disable CRYPTOMASTER :: ev_cm_softreset :: rest)
  /\ (forall fuel p_buf size w r p_buf' w',
        0 <= size ->
        nrfx_cracen_ctr_drbg_get_random mdk hw fuel p_buf size w = Some ((r, p_buf'), w') ->
        cm_enabled w = false -> cm_enabled w' = false).
Proof.
  split; [|split; [|split]].
  - intros fuel key_p key_size input_p output_p w r out w' Hrun.
    apply nrfx_cracen_cm_aes_ecb_inv in Hrun as (polls & Hp & -> & Hres).
    split; [destruct Hres as [(-> & _)|(-> & _)]; auto|]. split; [reflexivity|].
    exists (polls ++ cm_job_setup key_p key_size input_p output_p).
    unfold after_aes. cbn [trace set_cm_enabled emit app]. now rewrite <- app_assoc.
  - intros key_p key_size input_p output_p w Hc.
    destruct (nrfx_cracen_cm_aes_ecb_returns mdk hw key_p key_size input_p output_p w Hc)
      as (w' & Hret).
    eauto.
  - intros fuel p_buf size w r p' w' evs. apply get_random_error_polls.
  - intros fuel p_buf size w r p' w' Hs Hrun Hen.
    apply get_random_inv in Hrun as [(_ & _ & _ & ->)|(_ & _ & Hcm & _)]; auto.
Qed.

Lemma aes_ecb_resets_and_disables_witness :
  match nrfx_cracen_ctr_drbg_get_random mdk_example hw_second_job_fails 1
          (Some (replicate 32 0)) 32 (world_seeded 1) with
  | Some ((r, _), w') =>
      r = -1 /\ cm_enabled w' = false /\ cm_jobs (trace w') = 2%nat
      /\ error_polls mdk_example (trace w') = 1%nat
  | None => False
  end.
Proof.
  destruct (nrfx_cracen_ctr_drbg_get_random mdk_example hw_second_job_fails 1
              (Some (replicate 32 0)) 32 (world_seeded 1))
    as [[[r p_buf'] w']|] eqn:Hrun.
  - assert (Hobs : cm_jobs (trace w') = 2%nat /\ error_polls mdk_example (trace w') = 1%nat).
    { vm_compute in Hrun. injection Hrun as <- <- <-. split; reflexivity. }
    destruct Hobs as [Hjobs Herr].
    destruct (aes_ecb_resets_and_disables mdk_example hw_second_job_fails)
      as (_ & _ & Hfail & _).
    destruct (Hfail 1%nat (Some (replicate 32 0)) 32 (world_seeded 1) r p_buf' w' (trace w'))
      as (Hr & Hen & _); [lia|exact Hrun|now rewrite app_nil_r|lia|].
    split; [exact Hr|]. split; [exact Hen|]. split; [exact Hjobs|exact Herr].
  - vm_compute in Hrun. discriminate Hrun.
Defined.

(** C10: [nrfx_cracen_rng_get_entropy] returns 0 or -2 and never -1: -2
    exactly for a size above the bound derived from the FIFO threshold, and
    0 for every size within it, once the noise source gets ready.  With the
    generator's 48-byte seed within the bound, the entropy call inside
    [cracen_ctr_drbg_reseed] has returned 0 whenever reseed returns, and
    reseed returns -1 only when a block-cipher job of its update failed. *)
Theorem get_entropy_never_fails (mdk : cracen_mdk) (hw : cracen_hw) :
  ENTROPY_SIZE <= rng_max_size mdk ->
  (OK = 0 /\ ERR_TOO_BIG = -2 /\ ENTROPY_SIZE = 48)
  /\ (forall fuel p_buf size w r buf' w',
        0 <= size ->
        nrfx_cracen_rng_get_entropy mdk hw fuel p_buf size w = Some ((r, buf'), w') ->
        (r = 0 \/ r = -2) /\ r <> -1
        /\ (r = -2 <-> size > rng_max_size mdk)
        /\ (r = 0 <-> size <= rng_max_size mdk))
  /\ (forall T p_buf size w,
        0 <= size <= rng_max_size mdk -> rng_ready_from hw size T ->
        exists buf' w',
          returns (fun f => nrfx_cracen_rng_get_entropy mdk hw f p_buf size) w (0, buf') w')
  /\ (forall fuel w r w',
        cracen_ctr_drbg_reseed mdk hw fuel w = Some (r, w') ->
        (r = 0 \/ r = -1)
        /\ exists entropy w1 evs,
             nrfx_cracen_rng_get_entropy mdk hw fuel (replicate (Z.to_nat ENTROPY_SIZE) 0)
               ENTROPY_SIZE w = Some ((0, entropy), w1)
             /\ length entropy = 48%nat
             /\ trace w' = evs ++ trace w1
             /\ (r = -1 <-> error_polls mdk evs = 1%nat)
             /\ (r = -1 -> cm_job_failed mdk w')).
Proof.
  intros Hmax. split; [done|]. split; [|split].
  - intros fuel p_buf size w r buf' w' Hs Hrun.
    apply nrfx_cracen_rng_get_entropy_inv in Hrun
      as [(Hbig & -> & _)|(Hok & -> & _)]; [| |done];
      unfold ERR_TOO_BIG, OK; repeat split; intros; auto; lia.
  - intros T p_buf size w Hs Hrdy.
    apply (nrfx_cracen_rng_get_entropy_returns mdk hw T); done.
  - intros fuel w r w' Hrun.
    apply cracen_ctr_drbg_reseed_inv in Hrun
      as [(Hbig & _)|(_ & entropy & w1 & evs_e & k & r0 & evs_u & Hent & Hlen & _ & _ & _
                      & Htr & Hjobs & _ & _ & _ & Hres)]; [lia|].
    pose proof (aes_jobs_error_polls mdk _ _ _ Hjobs) as Herr.
    split; [destruct Hres as [(-> & _)|(-> & _)]; auto|].
    exists entropy, w1, evs_u. split; [exact Hent|]. split; [done|]. split; [done|].
    destruct Hres as [(-> & -> & _)|(-> & -> & _)].
    + rewrite bool_decide_eq_false_2 in Herr by lia. split; [split; intros; lia|].
      intros Hf; lia.
    + rewrite bool_decide_eq_true_2 in Herr by done. split; [done|]. intros _.
      now apply (aes_jobs_failed_world mdk _ _ _ _ Hjobs Htr).
Qed.

Lemma get_entropy_never_fails_witness :
  ENTROPY_SIZE <= rng_max_size mdk_example
  /\ exists buf' w',
       returns (fun f => nrfx_cracen_rng_get_entropy mdk_example hw_ready f
                           (replicate 48 0) 48) world0 (0, buf') w'.
Proof.
  assert (Hmax : ENTROPY_SIZE <= rng_max_size mdk_example).
  { rewrite rng_max_size_example. unfold ENTROPY_SIZE, KEY_SIZE, AES_BLK_SZ. lia. }
  split; [exact Hmax|].
  destruct (get_entropy_never_fails mdk_example hw_ready Hmax) as (_ & _ & Hlive & _).
  apply (Hlive 0%nat).
  - rewrite rng_max_size_example. lia.
  - apply hw_ready_rng. lia.
Defined.

(** * Further properties of the drivers *)

(** ** nrfx_cracen_ctr_drbg.c: the byte helpers *)

(** [be_incr] with [size] below the length of the array adds one to the
    big-endian number in the first [size] bytes, wrapping at [256^size], and
    leaves the bytes from [size] on as they were. *)
Theorem be_incr_leaves_suffix (pre suf : list Z) :
  bytes pre -> (0 < length pre)%nat ->
  exists pre',
    be_incr (pre ++ suf) (length pre) = pre' ++ suf
    /\ length pre' = length pre
    /\ bytes pre'
    /\ be_value pre' = (be_value pre + 1) mod 256 ^ Z.of_nat (length pre).
Proof.
  intros Hb _. change (be_incr (pre ++ suf) (length pre))
    with (be_incr_loop (pre ++ suf) (length pre) 1).
  apply be_incr_loop_spec; [done|lia].
Qed.

Lemma be_incr_leaves_suffix_witness :
  exists pre',
    be_incr ([1; 255; 255] ++ [255; 7]) 3 = pre' ++ [255; 7]
    /\ be_value pre' = 2 * 256 ^ 2.
Proof.
  destruct (be_incr_leaves_suffix [1; 255; 255] [255; 7]) as (pre' & Heq & _ & _ & Hv).
  - unfold bytes. repeat (apply List.Forall_cons; [unfold is_byte; lia|]). apply List.Forall_nil.
  - cbn [length]. lia.
  - exists pre'. split; [exact Heq|]. rewrite Hv. reflexivity.
Defined.

(** [xor_array] over arrays of [size] bytes, [size] a multiple of 4, is the
    byte-wise XOR, and XORing the same data in a second time gives the first
    array back. *)
Theorem xor_array_involutive (a b : list Z) (size : Z) :
  0 <= size -> size mod 4 = 0 ->
  length a = Z.to_nat size -> length b = Z.to_nat size -> bytes a -> bytes b ->
  xor_array a b size = zip_with Z.lxor a b
  /\ length (xor_array a b size) = length a
  /\ bytes (xor_array a b size)
  /\ xor_array (xor_array a b size) b size = a.
Proof.
  intros Hs Hm Ha Hb Hba Hbb.
  assert (Hn : Z.to_nat size = (4 * Z.to_nat (size / 4))%nat).
  { pose proof (Z.div_mod size 4 ltac:(lia)) as Hdm. rewrite Hm, Z.add_0_r in Hdm.
    rewrite Hdm at 1. rewrite Z2Nat.inj_mul by (try apply Z.div_pos; lia). reflexivity. }
  assert (Hx : forall a', length a' = Z.to_nat size -> bytes a' ->
                          xor_array a' b size = zip_with Z.lxor a' b).
  { intros a' Ha' Hba'. unfold xor_array. apply xor_array_words_spec; try done; congruence. }
  rewrite (Hx a Ha Hba).
  assert (Hl : length (zip_with Z.lxor a b) = length a).
  { rewrite length_zip_with. lia. }
  split; [reflexivity|]. split; [exact Hl|]. split; [now apply zip_with_lxor_bytes|].
  rewrite Hx; [|congruence|now apply zip_with_lxor_bytes].
  assert (Hlen : length a = length b) by congruence.
  clear - Hlen. revert b Hlen. induction a as [|x a IH]; intros [|y b] Hlen; try done.
  cbn [zip_with]. injection Hlen as Hlen. rewrite (IH b Hlen). f_equal.
  now rewrite Z.lxor_assoc, Z.lxor_nilpotent, Z.lxor_0_r.
Qed.

Lemma xor_array_involutive_witness :
  xor_array [1; 2; 3; 4; 5; 6; 7; 8] [255; 0; 255; 0; 16; 32; 64; 128] 8
  = [254; 2; 252; 4; 21; 38; 71; 136]
  /\ xor_array (xor_array [1; 2; 3; 4; 5; 6; 7; 8] [255; 0; 255; 0; 16; 32; 64; 128] 8)
       [255; 0; 255; 0; 16; 32; 64; 128] 8
     = [1; 2; 3; 4; 5; 6; 7; 8].
Proof.
  destruct (xor_array_involutive [1; 2; 3; 4; 5; 6; 7; 8] [255; 0; 255; 0; 16; 32; 64; 128] 8)
    as (Heq & _ & _ & Hinv); try reflexivity; try lia.
  - unfold bytes. repeat (apply List.Forall_cons; [unfold is_byte; lia|]). apply List.Forall_nil.
  - unfold bytes. repeat (apply List.Forall_cons; [unfold is_byte; lia|]). apply List.Forall_nil.
  - split; [rewrite Heq; reflexivity|exact Hinv].
Defined.

(** ** nrfx_cracen_cm_aes_ecb.c *)

(** When the engine, polled from the sixth HAL call of the job on, is busy
    [k] times and then answers [r] (done or error), the call returns [r]
    after [k + 1] polls: with the cipher block of the first [key_size] key
    bytes and the first 16 input bytes when [r] is 0, with the output bytes
    as they were when it is -2.  Its HAL calls are the job set-up, the polls,
    the soft reset and the module disable, and it leaves the generator state
    and the TRNG flags alone. *)
Theorem aes_ecb_answers (mdk : cracen_mdk) (hw : cracen_hw)
    (key_p : list Z) (key_size : Z) (input_p output_p : list Z) (w : world)
    (k : nat) (r : Z) (fuel : nat) :
  cm_answers_at mdk hw (6 + now w) k r -> (k < fuel)%nat ->
  exists polls w',
    nrfx_cracen_cm_aes_ecb mdk hw fuel key_p key_size input_p output_p w
    = Some ((r, if bool_decide (r = 0)
                then cm_block_encrypt hw (take (Z.to_nat key_size) key_p) (take 16 input_p)
                else output_p), w')
    /\ (r = 0 \/ r = -2)
    /\ trace w' = ev_module_disable CRYPTOMASTER :: ev_cm_softreset
                  :: polls ++ cm_job_setup key_p key_size input_p output_p ++ trace w
    /\ cm_polls mdk r polls
    /\ length polls = (2 * k + (if bool_decide (r = 0%Z) then 2 else 1))%nat
    /\ cm_jobs (ev_module_disable CRYPTOMASTER :: ev_cm_softreset
                :: polls ++ cm_job_setup key_p key_size input_p output_p) = 1%nat
    /\ prng w' = prng w /\ conditioning_key_set w' = conditioning_key_set w
    /\ rng_enabled w' = rng_enabled w /\ cm_enabled w' = false.
Proof.
  intros Hans Hf. rewrite nrfx_cracen_cm_aes_ecb_unfold.
  destruct (cm_wait_done_answers mdk hw k r fuel
              (set_cm_enabled true (emit (cm_job_setup key_p key_size input_p output_p) w)))
    as (polls & Hrun & Hpolls & Hlen); [exact Hans|exact Hf|].
  rewrite Hrun. eexists polls, _. split; [reflexivity|].
  split; [exact (cm_polls_result mdk _ _ Hpolls)|].
  split; [cbn [trace set_cm_enabled emit app]; reflexivity|].
  split; [exact Hpolls|]. split; [exact Hlen|].
  split; [|repeat split].
  pose proof (cm_polls_counts mdk _ _ Hpolls) as (_ & Hj & _).
  change (ev_module_disable CRYPTOMASTER :: ev_cm_softreset
          :: polls ++ cm_job_setup key_p key_size input_p output_p)
    with ([ev_module_disable CRYPTOMASTER; ev_cm_softreset]
          ++ polls ++ cm_job_setup key_p key_size input_p output_p).
  rewrite !cm_jobs_app, Hj. reflexivity.
Qed.

Lemma aes_ecb_answers_witness :
  exists (polls : list hal_event) w',
    nrfx_cracen_cm_aes_ecb mdk_example hw_fetch_error 1 (replicate 32 0) 32
      (replicate 16 0) (replicate 16 9) world0
    = Some ((-2, replicate 16 9), w')
    /\ length polls = 1%nat
    /\ cm_enabled w' = false.
Proof.
  destruct (aes_ecb_answers mdk_example hw_fetch_error (replicate 32 0) 32 (replicate 16 0)
              (replicate 16 9) world0 0 (-2) 1)
    as (polls & w' & Hrun & _ & _ & _ & Hlen & _ & _ & _ & _ & Hen).
  - split; [intros j Hj; lia|]. split; [reflexivity|lia].
  - lia.
  - exists polls, w'. split; [exact Hrun|]. split; [exact Hlen|exact Hen].
Defined.

(** The wait for the engine has no time-out: while the status register
    keeps reading busy and no error is flagged, the call does not return. *)
Theorem aes_ecb_never_times_out (mdk : cracen_mdk) (hw : cracen_hw) (fuel : nat)
    (key_p : list Z) (key_size : Z) (input_p output_p : list Z) (w : world) :
  (forall t, cm_poll mdk hw t = -1) ->
  nrfx_cracen_cm_aes_ecb mdk hw fuel key_p key_size input_p output_p w = None.
Proof.
  intros Hbusy. rewrite nrfx_cracen_cm_aes_ecb_unfold.
  now rewrite (cm_wait_done_busy mdk hw fuel _ Hbusy).
Qed.

Lemma aes_ecb_never_times_out_witness :
  nrfx_cracen_cm_aes_ecb mdk_example hw_busy 1000 (replicate 32 0) 32
    (replicate 16 0) (replicate 16 0) world0 = None.
Proof.
  apply aes_ecb_never_times_out. intros t. reflexivity.
Defined.

(** ** nrfx_cracen_trng.c *)

(** A call of [nrfx_cracen_rng_get_entropy] within the size bound that
    returns has enabled the RNG module as its first HAL call and disabled it
    as its last; every call in between is a call on the TRNG, none on the
    CryptoMaster; the generator state and the CryptoMaster flag are as they
    were; and of the caller's buffer exactly the first [size] bytes are
    written, with bytes. *)
Theorem get_entropy_frame (mdk : cracen_mdk) (hw : cracen_hw) (fuel : nat)
    (p_buf : list Z) (size : Z) (w w' : world) (r : Z) (buf' : list Z) :
  0 <= size <= rng_max_size mdk -> (Z.to_nat size <= length p_buf)%nat ->
  nrfx_cracen_rng_get_entropy mdk hw fuel p_buf size w = Some ((r, buf'), w') ->
  r = 0
  /\ (exists evs,
        trace w' = ev_module_disable RNG :: evs ++ ev_module_enable RNG :: trace w
        /\ Forall (fun e => is_rng_event e = true) evs
        /\ cm_jobs evs = 0%nat
        /\ entropy_invocations evs = 0%nat)
  /\ prng w' = prng w /\ cm_enabled w' = cm_enabled w /\ rng_enabled w' = false
  /\ length buf' = length p_buf
  /\ drop (Z.to_nat size) buf' = drop (Z.to_nat size) p_buf
  /\ bytes (take (Z.to_nat size) buf').
Proof.
  intros [Hs Hmax] Hroom Hrun.
  apply nrfx_cracen_rng_get_entropy_inv in Hrun
    as [(Hbig & _)|(_ & -> & evs & k0 & k1 & k2 & k3 & words & Htr & Hev & Hent & Hjobs
                    & Hprng & Hcm & Hrng & Hlen & -> & _)]; [lia| |done].
  split; [reflexivity|]. split; [exists evs; done|].
  split; [done|]. split; [done|]. split; [done|].
  split; [apply length_inserts|].
  set (src := take (Z.to_nat size) (flat_map le_bytes words)).
  assert (Hsrc : length src = Z.to_nat size).
  { unfold src. rewrite length_take, flat_map_le_bytes_length, Hlen. unfold words_for.
    pose proof (Z.div_mod (size + 3) 4 ltac:(lia)).
    pose proof (Z.mod_pos_bound (size + 3) 4 ltac:(lia)).
    assert (0 <= (size + 3) / 4) by (apply Z.div_pos; lia). lia. }
  assert (Heq : list_inserts 0 src p_buf = src ++ drop (Z.to_nat size) p_buf).
  { rewrite list_inserts_at by (rewrite Hsrc; lia). cbn [take app Nat.add].
    now rewrite Hsrc. }
  rewrite Heq. split.
  - now rewrite drop_app_length'.
  - rewrite take_app_length' by done. unfold src.
    apply Forall_take. apply flat_map_le_bytes_bytes.
Qed.

Lemma get_entropy_frame_witness :
  match nrfx_cracen_rng_get_entropy mdk_example hw_ready 1 [9; 9; 9; 9; 9; 9; 9; 9] 6 world0
  with
  | Some ((r, buf'), w') =>
      r = 0 /\ drop 6 buf' = [9; 9] /\ length buf' = 8%nat /\ rng_enabled w' = false
  | None => False
  end.
Proof.
  destruct (nrfx_cracen_rng_get_entropy mdk_example hw_ready 1 [9; 9; 9; 9; 9; 9; 9; 9] 6
              world0) as [[[r buf'] w']|] eqn:Hrun.
  - destruct (get_entropy_frame mdk_example hw_ready 1 [9; 9; 9; 9; 9; 9; 9; 9] 6 world0 w'
                r buf') as (Hr & _ & _ & _ & Hen & Hlen & Hdrop & _).
    + rewrite rng_max_size_example. lia.
    + cbn. lia.
    + exact Hrun.
    + split; [exact Hr|]. split; [exact Hdrop|]. split; [exact Hlen|exact Hen].
  - vm_compute in Hrun. discriminate Hrun.
Defined.

(** A request for 0 bytes of entropy is served like any other: the call
    powers the RNG module, initialises the TRNG and waits until four FIFO
    words have gone into the conditioning key; it then reads no further
    word, leaves the buffer as it was and returns 0. *)
Theorem get_entropy_zero_bytes (mdk : cracen_mdk) (hw : cracen_hw) (p_buf : list Z)
    (w : world) :
  (forall fuel r buf' w',
     nrfx_cracen_rng_get_entropy mdk hw fuel p_buf 0 w = Some ((r, buf'), w') ->
     r = 0 /\ buf' = p_buf /\ rng_enabled w' = false
     /\ (exists evs,
           trace w' = ev_module_disable RNG :: evs ++ ev_module_enable RNG :: trace w)
     /\ exists k0 k1 k2 k3,
          fifo_words (since_reset (trace w')) = [k3; k2; k1; k0]
          /\ key_words_set (since_reset (trace w')) = [(3, k3); (2, k2); (1, k1); (0, k0)])
  /\ (forall T, rng_ready_from hw 0 T ->
        exists w', returns (fun f => nrfx_cracen_rng_get_entropy mdk hw f p_buf 0) w
                     (0, p_buf) w')
  /\ ((forall t, rng_fifo_level hw t mod 2 ^ 32 < 4) ->
      forall fuel, nrfx_cracen_rng_get_entropy mdk hw fuel p_buf 0 w = None).
Proof.
  assert (Hmax : 0 <= rng_max_size mdk).
  { unfold rng_max_size. apply Z.mod_pos_bound. lia. }
  assert (Hinv : forall fuel r buf' w',
            nrfx_cracen_rng_get_entropy mdk hw fuel p_buf 0 w = Some ((r, buf'), w') ->
            r = 0 /\ buf' = p_buf /\ rng_enabled w' = false
            /\ (exists evs,
                  trace w' = ev_module_disable RNG :: evs ++ ev_module_enable RNG :: trace w)
            /\ exists k0 k1 k2 k3,
                 fifo_words (since_reset (trace w')) = [k3; k2; k1; k0]
                 /\ key_words_set (since_reset (trace w'))
                    = [(3, k3); (2, k2); (1, k1); (0, k0)]).
  { intros fuel r buf' w' Hrun.
    apply nrfx_cracen_rng_get_entropy_inv in Hrun
      as [(Hbig & _)|(_ & -> & evs & k0 & k1 & k2 & k3 & words & Htr & _ & _ & _
                      & _ & _ & Hrng & Hlen & -> & Hfifo & Hkey)]; [lia| |lia].
    change (words_for 0) with 0%nat in Hlen. destruct words; [|discriminate Hlen].
    split; [reflexivity|]. split; [reflexivity|]. split; [done|].
    split; [exists evs; done|]. exists k0, k1, k2, k3. done. }
  split; [exact Hinv|]. split.
  - intros T Hrdy.
    destruct (nrfx_cracen_rng_get_entropy_returns mdk hw T p_buf 0 w ltac:(lia) Hrdy)
      as (buf' & w' & f0 & Hret).
    destruct (Hinv f0 0 buf' w' (Hret f0 (Nat.le_refl f0))) as (_ & -> & _).
    exists w', f0. exact Hret.
  - intros Hlow fuel. rewrite nrfx_cracen_rng_get_entropy_unfold by lia.
    rewrite (rng_get_entropy_loop_waits hw 0); [done|lia| |now left].
    intros t. right. right. apply Hlow.
Qed.

(** The wait for the TRNG has no time-out either: while every attempt
    finds the state RESET or ERROR, or fewer than four words in the FIFO, a
    call within the size bound does not return. *)
Theorem get_entropy_never_times_out (mdk : cracen_mdk) (hw : cracen_hw) (fuel : nat)
    (p_buf : list Z) (size : Z) (w : world) :
  0 <= size <= rng_max_size mdk ->
  (forall t, rng_fsm_state hw t = STATE_RESET \/ rng_fsm_state hw t = STATE_ERROR
             \/ rng_fifo_level hw (1 + t) mod 2 ^ 32 < 4) ->
  nrfx_cracen_rng_get_entropy mdk hw fuel p_buf size w = None.
Proof.
  intros [Hs Hmax] Hnever. rewrite nrfx_cracen_rng_get_entropy_unfold by lia.
  rewrite (rng_get_entropy_loop_waits hw size); [done|done|done|now left].
Qed.

Lemma get_entropy_never_times_out_witness :
  nrfx_cracen_rng_get_entropy mdk_example hw_in_reset 1000 (replicate 48 0) 48 world0 = None.
Proof.
  apply get_entropy_never_times_out.
  - rewrite rng_max_size_example. lia.
  - intros t. left. reflexivity.
Defined.

(** [nrfx_cracen_rng_get_entropy] returns -2, before any HAL call, for a
    size above the bound, and returns nothing else but 0.  One attempt waits
    (returns HW_PROCESSING without reading the FIFO) when the state is
    RESET and, in any state other than ERROR and RESET, when the FIFO level
    is below 4 words with the key not programmed or below the requested
    size with it programmed.  In state ERROR the attempt asks for a reset,
    and the next iteration of the loop runs [cracen_trng_init] (soft reset,
    off timer, clock divider, start-up wait count, blocks per cycle and
    enable) and tries again.  Once the TRNG gets ready the call returns 0. *)
Theorem get_entropy_retries (mdk : cracen_mdk) (hw : cracen_hw) :
  (forall fuel p_buf size w,
     size > rng_max_size mdk ->
     nrfx_cracen_rng_get_entropy mdk hw fuel p_buf size w = Some ((-2, p_buf), w))
  /\ (forall fuel p_buf size w r buf' w',
        0 <= size ->
        nrfx_cracen_rng_get_entropy mdk hw fuel p_buf size w = Some ((r, buf'), w') ->
        r = -2 /\ size > rng_max_size mdk /\ w' = w \/ r = 0 /\ size <= rng_max_size mdk)
  /\ (forall dst size w,
        0 <= size ->
        let st := rng_fsm_state hw (now w) in
        let level := rng_fifo_level hw (1 + now w) mod 2 ^ 32 in
        (st = STATE_RESET ->
         cracen_trng_get hw dst size w
         = Some ((HW_PROCESSING, dst), emit [ev_rng_fsm_state_get STATE_RESET] w))
        /\ (st <> STATE_ERROR -> st <> STATE_RESET ->
            conditioning_key_set w = false -> level < 4 ->
            cracen_trng_get hw dst size w
            = Some ((HW_PROCESSING, dst),
                    emit [ev_rng_fifo_level_get level; ev_rng_fsm_state_get st] w))
        /\ (st <> STATE_ERROR -> st <> STATE_RESET ->
            conditioning_key_set w = true -> size > (level * 4) mod 2 ^ 32 ->
            cracen_trng_get hw dst size w
            = Some ((HW_PROCESSING, dst),
                    emit [ev_rng_fifo_level_get level; ev_rng_fsm_state_get st] w))
        /\ (st = STATE_ERROR ->
            cracen_trng_get hw dst size w
            = Some ((TRNG_RESET_NEEDED, dst), emit [ev_rng_fsm_state_get STATE_ERROR] w)))
  /\ (forall fuel ret_ p_buf size w,
        rng_get_entropy_loop hw (S fuel) ret_ p_buf size w
        = match cracen_trng_get hw p_buf size
                  (if bool_decide (ret_ = TRNG_RESET_NEEDED)
                   then emit trng_init_events (with_conditioning_key_set false w)
                   else w) with
          | Some ((r, buf'), w') =>
              if bool_decide (r = OK) then Some (buf', w')
              else rng_get_entropy_loop hw fuel r buf' size w'
          | None => None
          end)
  /\ trng_init_events
     = [ ev_rng_control_set {| soft_reset := false; number_128_blocks := 4; enable := true |};
         ev_rng_init_wait_val_set 512; ev_rng_clk_div_set 0; ev_rng_off_timer_set 0;
         ev_rng_control_set {| soft_reset := true; number_128_blocks := 0; enable := false |} ]
  /\ (forall T p_buf size w,
        0 <= size <= rng_max_size mdk -> rng_ready_from hw size T ->
        exists buf' w',
          returns (fun f => nrfx_cracen_rng_get_entropy mdk hw f p_buf size) w (0, buf') w').
Proof.
  split; [|split; [|split; [|split; [|split]]]].
  - intros fuel p_buf size w Hbig. now apply nrfx_cracen_rng_get_entropy_too_big.
  - intros fuel p_buf size w r buf' w' Hs Hrun.
    apply nrfx_cracen_rng_get_entropy_inv in Hrun
      as [(Hbig & -> & _ & ->)|(Hok & -> & _)]; [| |done]; [left|right]; done.
  - intros dst size w Hs. cbv zeta.
    destruct (cracen_trng_get_waits hw dst size w Hs) as (He & Hr & Hk & Hw & _).
    split; [exact Hr|]. split; [exact Hk|]. split; [exact Hw|exact He].
  - intros fuel ret_ p_buf size w. apply rng_get_entropy_loop_step.
  - reflexivity.
  - intros T p_buf size w Hs Hrdy.
    apply (nrfx_cracen_rng_get_entropy_returns mdk hw T); done.
Qed.

Lemma get_entropy_retries_witness :
  (exists buf' w',
     returns (fun f => nrfx_cracen_rng_get_entropy mdk_example hw_error_once f
                         (replicate 48 0) 48) world0 (0, buf') w')
  /\ option_map (fun '(x, w') => (fst x, length (List.filter is_soft_reset (trace w'))))
       (nrfx_cracen_rng_get_entropy mdk_example hw_error_once 2 (replicate 48 0) 48 world0)
     = Some (0, 2%nat)
  /\ nrfx_cracen_rng_get_entropy mdk_example hw_error_once 1 (replicate 48 0) 48 world0
     = None.
Proof.
  destruct (get_entropy_retries mdk_example hw_error_once) as (_ & _ & _ & _ & _ & Hlive).
  split; [|split; vm_compute; reflexivity].
  apply (Hlive 7%nat).
  - rewrite rng_max_size_example. lia.
  - apply hw_error_once_rng. lia.
Defined.

(** ** nrfx_cracen_ctr_drbg.c: the generator state *)

(** With an engine that pushes 16-byte blocks, every call of
    [nrfx_cracen_ctr_drbg_init] and of [nrfx_cracen_ctr_drbg_get_random]
    that returns, whatever it returns, keeps the shape of the generator
    state that the zeroed state has at start-up: a 32-byte key, a 16-byte
    counter block, a reseed counter between 0 and 2^48 that is at least 1
    once the generator is initialised. *)
Theorem generator_state_shape (mdk : cracen_mdk) (hw : cracen_hw) :
  cm_pushes_blocks hw ->
  prng_wf prng_zero
  /\ (forall fuel w r w',
        nrfx_cracen_ctr_drbg_init mdk hw fuel w = Some (r, w') -> prng_wf (prng w'))
  /\ (forall fuel p_buf size w x w',
        0 <= size -> prng_wf (prng w) ->
        nrfx_cracen_ctr_drbg_get_random mdk hw fuel p_buf size w = Some (x, w') ->
        prng_wf (prng w')).
Proof.
  intros Hwf. split; [apply prng_wf_zero|]. split.
  - intros fuel w r w' Hrun. exact (proj1 (nrfx_cracen_ctr_drbg_init_wf mdk hw _ _ _ _ Hwf Hrun)).
  - intros fuel p_buf size w x w' Hs Hp Hrun.
    exact (get_random_wf mdk hw fuel p_buf size w w' x Hwf Hs Hp Hrun).
Qed.

Lemma generator_state_shape_witness :
  match nrfx_cracen_ctr_drbg_get_random mdk_example hw_second_job_fails 1
          (Some (replicate 32 0)) 32 world0 with
  | Some (x, w') => fst x = -1 /\ prng_wf (prng w')
  | None => False
  end.
Proof.
  destruct (nrfx_cracen_ctr_drbg_get_random mdk_example hw_second_job_fails 1
              (Some (replicate 32 0)) 32 world0) as [[x w']|] eqn:Hrun.
  - split.
    + vm_compute in Hrun. injection Hrun as <- <-. reflexivity.
    + destruct (generator_state_shape mdk_example hw_second_job_fails) as (H0 & _ & Hgen).
      * intros k x0. apply AES256_encrypt_block.
      * apply (Hgen 1%nat (Some (replicate 32 0)) 32 world0 x w'); [lia|exact H0|exact Hrun].
  - vm_compute in Hrun. discriminate Hrun.
Defined.

(** [nrfx_cracen_ctr_drbg_init] starts from the zeroed state whatever the
    state was: its result does not depend on the generator state it finds.
    It returns 0 or -1; on 0 the generator is initialised with reseed counter
    1; on -1 it is left uninitialised with the key zero and the reseed
    counter 0, so that the next request initialises again. *)
Theorem init_outcome (mdk : cracen_mdk) (hw : cracen_hw) (fuel : nat) (w w' : world)
    (r : Z) :
  nrfx_cracen_ctr_drbg_init mdk hw fuel w = Some (r, w') ->
  (r = 0 \/ r = -1)
  /\ (r = 0 -> initialized (prng w') = true /\ reseed_counter (prng w') = 1)
  /\ (r = -1 -> initialized (prng w') = false
                /\ key (prng w') = replicate 32 0 /\ reseed_counter (prng w') = 0)
  /\ (forall p, nrfx_cracen_ctr_drbg_init mdk hw fuel (with_prng p w) = Some (r, w')).
Proof.
  intros Hrun.
  assert (Hany : forall p, nrfx_cracen_ctr_drbg_init mdk hw fuel (with_prng p w)
                           = Some (r, w')).
  { intros p. rewrite nrfx_cracen_ctr_drbg_init_unfold in *. exact Hrun. }
  apply nrfx_cracen_ctr_drbg_init_inv in Hrun as (w1 & Hre & _ & _ & Hres).
  apply cracen_ctr_drbg_reseed_inv in Hre
    as [(_ & Hr & Hw1)|(_ & ent & w0 & evs_e & k & r0 & evs_u & _ & _ & _ & _ & _ & _
                        & _ & _ & _ & Hin & Hres')].
  - destruct Hres as [[Hf _]|[_ ->]]; [lia|]. subst w1 r.
    split; [now right|]. split; [intros Hf; lia|]. split; [intros _; done|exact Hany].
  - destruct Hres' as [(-> & _ & _ & Hrc & _)|(-> & _ & Hprng)].
    + destruct Hres as [[_ Hp]|[Hf _]]; [|done]. rewrite Hp.
      split; [now left|]. split; [intros _; split; [reflexivity|exact Hrc]|].
      split; [intros Hf; lia|exact Hany].
    + destruct Hres as [[Hf _]|[_ ->]]; [lia|].
      split; [now right|]. split; [intros Hf; lia|]. split; [|exact Hany].
      intros _. rewrite Hprng. done.
Qed.

Lemma init_outcome_witness :
  match nrfx_cracen_ctr_drbg_init mdk_example hw_fetch_error 1 (world_seeded 5) with
  | Some (r, w') => r = -1 /\ initialized (prng w') = false /\ reseed_counter (prng w') = 0
  | None => False
  end.
Proof.
  destruct (nrfx_cracen_ctr_drbg_init mdk_example hw_fetch_error 1 (world_seeded 5))
    as [[r w']|] eqn:Hrun.
  - assert (Hr : r = -1) by (vm_compute in Hrun; now injection Hrun as <- <-).
    destruct (init_outcome mdk_example hw_fetch_error 1 (world_seeded 5) w' r)
      as (_ & _ & Hfail & _).
    + exact Hrun.
    + destruct (Hfail Hr) as (Hi & _ & Hrc). split; [exact Hr|]. split; [exact Hi|exact Hrc].
  - vm_compute in Hrun. discriminate Hrun.
Defined.

(** A request on a generator that is not initialised is the request on the
    generator [nrfx_cracen_ctr_drbg_init] leaves, and -1 when that
    initialisation fails: calling init first changes nothing. *)
Theorem get_random_implicit_init (mdk : cracen_mdk) (hw : cracen_hw) (fuel : nat)
    (p_buf : option (list Z)) (size : Z) (w : world) :
  ~ invalid_request p_buf size -> initialized (prng w) = false ->
  nrfx_cracen_ctr_drbg_get_random mdk hw fuel p_buf size w
  = match nrfx_cracen_ctr_drbg_init mdk hw fuel w with
    | Some (r, w1) =>
        if bool_decide (r = 0)
        then nrfx_cracen_ctr_drbg_get_random mdk hw fuel p_buf size w1
        else Some ((-1, p_buf), w1)
    | None => None
    end.
Proof.
  intros Hval Hinit. rewrite (get_random_valid mdk hw fuel p_buf size w Hval).
  rewrite Hinit. cbn [negb].
  destruct (nrfx_cracen_ctr_drbg_init mdk hw fuel w) as [[r w1]|] eqn:Hi; [|done].
  destruct (decide (r = 0)) as [->|Hne].
  - rewrite (bool_decide_eq_false_2 (0 <> 0)) by lia.
    rewrite (bool_decide_eq_true_2 (0 = 0)) by done.
    apply nrfx_cracen_ctr_drbg_init_inv in Hi as (w0 & _ & _ & _ & Hres).
    destruct Hres as [[_ Hp]|[Hf _]]; [|done].
    rewrite (get_random_valid mdk hw fuel p_buf size w1 Hval), Hp.
    cbn [initialized with_initialized negb].
    change (ret 0 w1) with (Some (0, w1)). cbv beta iota.
    rewrite (bool_decide_eq_false_2 (0 <> 0)) by lia. now rewrite Hp.
  - rewrite (bool_decide_eq_true_2 (r <> 0)) by done.
    now rewrite (bool_decide_eq_false_2 (r = 0)) by done.
Qed.

Lemma get_random_implicit_init_witness :
  nrfx_cracen_ctr_drbg_get_random mdk_example hw_ready 1 (Some (replicate 32 0)) 32 world0
  = match nrfx_cracen_ctr_drbg_init mdk_example hw_ready 1 world0 with
    | Some (r, w1) =>
        if bool_decide (r = 0)
        then nrfx_cracen_ctr_drbg_get_random mdk_example hw_ready 1
               (Some (replicate 32 0)) 32 w1
        else Some ((-1, Some (replicate 32 0)), w1)
    | None => None
    end.
Proof.
  apply get_random_implicit_init.
  - unfold invalid_request. rewrite MAX_BYTES_PER_REQUEST_eq. intros [[_ Hf]|Hf]; [done|lia].
  - reflexivity.
Defined.

(** ** nrfx_cracen_ctr_drbg.c: requests *)

(** A request that returns 0 has written exactly the first [size] bytes of
    the caller's buffer, with bytes, and nothing after them. *)
Theorem get_random_writes_size_bytes (mdk : cracen_mdk) (hw : cracen_hw) (fuel : nat)
    (buf : list Z) (size : Z) (w w' : world) (p_buf' : option (list Z)) :
  cm_pushes_blocks hw -> 0 <= size -> (Z.to_nat size <= length buf)%nat ->
  nrfx_cracen_ctr_drbg_get_random mdk hw fuel (Some buf) size w = Some ((0, p_buf'), w') ->
  exists buf',
    p_buf' = Some buf'
    /\ length buf' = length buf
    /\ drop (Z.to_nat size) buf' = drop (Z.to_nat size) buf
    /\ bytes (take (Z.to_nat size) buf').
Proof.
  intros Hwf Hs Hroom Hrun. destruct (invalid_request_dec (Some buf) size) as [Hinv|Hval].
  { rewrite get_random_invalid in Hrun by done. discriminate Hrun. }
  apply get_random_phases in Hrun as (r0 & w2 & _ & Hres); [|done].
  destruct Hres as [(_ & Hf & _)|(_ & Hgen)]; [discriminate Hf|].
  apply get_random_generate_inv in Hgen
    as (k & rj & evs & _ & _ & _ & _ & _ & _ & Hres); [|done].
  destruct Hres as [(_ & _ & _ & _ & Hst)|(Hf & _)]; [|lia].
  destruct (Hst Hwf) as (_ & _ & Hbuf). specialize (Hbuf buf eq_refl Hroom).
  set (n := Reference.chunks size) in *.
  set (blocks := drbg_blocks hw n (key (prng w2)) (V (prng w2))) in *.
  assert (Hlen : length (take (Z.to_nat size) blocks) = Z.to_nat size).
  { rewrite length_take. unfold blocks. rewrite drbg_blocks_length by done.
    unfold n, Reference.chunks.
    pose proof (Z.div_mod (size + 15) 16 ltac:(lia)).
    pose proof (Z.mod_pos_bound (size + 15) 16 ltac:(lia)).
    assert (0 <= (size + 15) / 16) by (apply Z.div_pos; lia). lia. }
  eexists. split; [exact Hbuf|]. split; [|split].
  - rewrite length_app, length_drop, Hlen. lia.
  - now rewrite drop_app_length'.
  - rewrite take_app_length' by done. apply Forall_take.
    unfold blocks. now apply drbg_blocks_bytes.
Qed.

Lemma get_random_writes_size_bytes_witness :
  match nrfx_cracen_ctr_drbg_get_random mdk_example hw_ready 1 (Some (replicate 24 7)) 20
          (world_seeded 1) with
  | Some ((r, Some buf'), _) => r = 0 /\ length buf' = 24%nat /\ drop 20 buf' = [7; 7; 7; 7]
  | _ => False
  end.
Proof.
  destruct (nrfx_cracen_ctr_drbg_get_random mdk_example hw_ready 1 (Some (replicate 24 7)) 20
              (world_seeded 1)) as [[[r p'] w']|] eqn:Hrun.
  - assert (Hr : r = 0) by (vm_compute in Hrun; now injection Hrun as <- <- <-). subst r.
    destruct (get_random_writes_size_bytes mdk_example hw_ready 1 (replicate 24 7) 20
                (world_seeded 1) w' p' hw_ready_pushes_blocks)
      as (buf' & -> & Hlen & Hdrop & _); [lia|rewrite length_replicate; lia|exact Hrun|].
    split; [reflexivity|]. split; [exact Hlen|exact Hdrop].
  - vm_compute in Hrun. discriminate Hrun.
Defined.

(** On a seeded generator below the reseed interval, the bytes of a request
    are the first bytes of any longer request from the same state: what is
    left of the last 16-byte block is dropped, and the state moves on by the
    final update, so that two requests in a row do not read on in the same
    key stream. *)
Theorem get_random_prefix (mdk : cracen_mdk) (hw : cracen_hw) (f1 f2 : nat)
    (buf1 buf2 out1 out2 : list Z) (s1 s2 : Z) (w w1 w2 : world) :
  cm_pushes_blocks hw ->
  initialized (prng w) = true -> reseed_counter (prng w) < RESEED_INTERVAL ->
  0 <= s1 <= s2 -> s2 <= MAX_BYTES_PER_REQUEST ->
  (Z.to_nat s1 <= length buf1)%nat -> (Z.to_nat s2 <= length buf2)%nat ->
  nrfx_cracen_ctr_drbg_get_random mdk hw f1 (Some buf1) s1 w = Some ((0, Some out1), w1) ->
  nrfx_cracen_ctr_drbg_get_random mdk hw f2 (Some buf2) s2 w = Some ((0, Some out2), w2) ->
  take (Z.to_nat s1) out1 = take (Z.to_nat s1) out2.
Proof.
  intros Hwf Hinit Hlt [Hs1 Hs12] Hmax Hroom1 Hroom2 Hrun1 Hrun2.
  assert (Hval : forall b s, s <= MAX_BYTES_PER_REQUEST -> ~ invalid_request (Some b) s).
  { intros b s Hle [[_ Hf]|Hf]; [done|lia]. }
  rewrite (get_random_after_phase mdk hw f1 _ _ w w (Hval buf1 s1 ltac:(lia))
             (pre_none mdk hw f1 w Hinit Hlt)) in Hrun1.
  rewrite (get_random_after_phase mdk hw f2 _ _ w w (Hval buf2 s2 Hmax)
             (pre_none mdk hw f2 w Hinit Hlt)) in Hrun2.
  apply get_random_generate_inv in Hrun1
    as (k1 & r1 & evs1 & _ & _ & _ & _ & _ & _ & Hres1); [|lia].
  apply get_random_generate_inv in Hrun2
    as (k2 & r2 & evs2 & _ & _ & _ & _ & _ & _ & Hres2); [|lia].
  destruct Hres1 as [(_ & _ & _ & _ & Hst1)|(Hf & _)]; [|lia].
  destruct Hres2 as [(_ & _ & _ & _ & Hst2)|(Hf & _)]; [|lia].
  destruct (Hst1 Hwf) as (_ & _ & Hb1). destruct (Hst2 Hwf) as (_ & _ & Hb2).
  specialize (Hb1 buf1 eq_refl Hroom1). specialize (Hb2 buf2 eq_refl Hroom2).
  injection Hb1 as ->. injection Hb2 as ->.
  assert (Hchunks : forall s, 0 <= s -> (Z.to_nat s <= 16 * Reference.chunks s)%nat).
  { intros s Hs. unfold Reference.chunks.
    pose proof (Z.div_mod (s + 15) 16 ltac:(lia)).
    pose proof (Z.mod_pos_bound (s + 15) 16 ltac:(lia)).
    assert (0 <= (s + 15) / 16) by (apply Z.div_pos; lia). lia. }
  assert (Hmono : (Reference.chunks s1 <= Reference.chunks s2)%nat).
  { unfold Reference.chunks. apply Z2Nat.inj_le; [apply Z.div_pos; lia|apply Z.div_pos; lia|].
    apply Z.div_le_mono; lia. }
  rewrite !take_app_le.
  - rewrite take_take, Nat.min_l by lia. rewrite take_take, Nat.min_l by lia.
    apply drbg_blocks_prefix; [done|done|now apply Hchunks].
  - rewrite length_take, drbg_blocks_length by done. specialize (Hchunks s2 ltac:(lia)). lia.
  - rewrite length_take, drbg_blocks_length by done. specialize (Hchunks s1 Hs1). lia.
Qed.

Lemma get_random_prefix_witness :
  match nrfx_cracen_ctr_drbg_get_random mdk_example hw_ready 1 (Some (replicate 5 0)) 5
          (world_seeded 1),
        nrfx_cracen_ctr_drbg_get_random mdk_example hw_ready 1 (Some (replicate 20 0)) 20
          (world_seeded 1) with
  | Some ((_, Some out1), _), Some ((_, Some out2), _) => take 5 out1 = take 5 out2
  | _, _ => False
  end.
Proof.
  destruct (nrfx_cracen_ctr_drbg_get_random mdk_example hw_ready 1 (Some (replicate 5 0)) 5
              (world_seeded 1)) as [[[r1 p1] w1]|] eqn:Hrun1;
    [|vm_compute in Hrun1; discriminate Hrun1].
  destruct (nrfx_cracen_ctr_drbg_get_random mdk_example hw_ready 1 (Some (replicate 20 0)) 20
              (world_seeded 1)) as [[[r2 p2] w2]|] eqn:Hrun2;
    [|vm_compute in Hrun2; discriminate Hrun2].
  assert (H1 : r1 = 0 /\ p1 <> None).
  { vm_compute in Hrun1. injection Hrun1 as <- <- <-. split; [reflexivity|discriminate]. }
  assert (H2 : r2 = 0 /\ p2 <> None).
  { vm_compute in Hrun2. injection Hrun2 as <- <- <-. split; [reflexivity|discriminate]. }
  destruct H1 as [-> Hp1]. destruct H2 as [-> Hp2].
  destruct p1 as [out1|]; [|exfalso; apply Hp1; reflexivity].
  destruct p2 as [out2|]; [|exfalso; apply Hp2; reflexivity].
  assert (Hlt : reseed_counter (prng (world_seeded 1)) < RESEED_INTERVAL).
  { rewrite RESEED_INTERVAL_eq. cbn [reseed_counter prng world_seeded]. lia. }
  assert (Hs : 0 <= 5 <= 20) by lia.
  assert (Hmax : 20 <= MAX_BYTES_PER_REQUEST) by (rewrite MAX_BYTES_PER_REQUEST_eq; lia).
  assert (Hroom1 : (Z.to_nat 5 <= length (replicate 5 0))%nat)
    by (rewrite length_replicate; lia).
  assert (Hroom2 : (Z.to_nat 20 <= length (replicate 20 0))%nat)
    by (rewrite length_replicate; lia).
  exact (get_random_prefix mdk_example hw_ready 1 1 (replicate 5 0) (replicate 20 0) out1 out2
           5 20 (world_seeded 1) w1 w2 hw_ready_pushes_blocks eq_refl Hlt Hs Hmax
           Hroom1 Hroom2 Hrun1 Hrun2).
Defined.

(** When the engine flags an error at the first poll of a request's first
    job, a request on a seeded generator below the reseed interval returns
    -1 after that one job: the caller's buffer is as it was, the key and the
    reseed counter are as they were, the counter block is one higher, and
    the CryptoMaster is disabled. *)
Theorem get_random_first_job_fails (mdk : cracen_mdk) (hw : cracen_hw) (fuel : nat)
    (p_buf : option (list Z)) (size : Z) (w : world) :
  0 <= size -> ~ invalid_request p_buf size ->
  initialized (prng w) = true -> reseed_counter (prng w) < RESEED_INTERVAL ->
  cm_poll mdk hw (6 + now w) = -2 -> (1 <= fuel)%nat ->
  exists w' evs,
    nrfx_cracen_ctr_drbg_get_random mdk hw fuel p_buf size w = Some ((-1, p_buf), w')
    /\ trace w' = evs ++ trace w /\ cm_jobs evs = 1%nat
    /\ key (prng w') = key (prng w)
    /\ V (prng w') = be_incr (V (prng w)) 16
    /\ reseed_counter (prng w') = reseed_counter (prng w)
    /\ initialized (prng w') = true
    /\ cm_enabled w' = false.
Proof.
  intros Hs Hval Hinit Hlt Hpoll Hf.
  rewrite (get_random_after_phase mdk hw fuel _ _ w w Hval (pre_none mdk hw fuel w Hinit Hlt)).
  destruct (get_random_generate_fails mdk hw fuel p_buf size w Hs Hpoll Hf)
    as (w' & Hrun & Hprng & Hen & evs & Htr & Hjobs).
  exists w', evs. rewrite Hprng. cbn [key V reseed_counter initialized with_V].
  split; [exact Hrun|]. split; [exact Htr|]. split; [exact Hjobs|].
  split; [reflexivity|]. split; [reflexivity|]. split; [reflexivity|].
  split; [exact Hinit|exact Hen].
Qed.

Lemma get_random_first_job_fails_witness :
  exists w' evs,
    nrfx_cracen_ctr_drbg_get_random mdk_example hw_fetch_error 1 (Some (replicate 16 7)) 16
      (world_seeded 1) = Some ((-1, Some (replicate 16 7)), w')
    /\ trace w' = evs ++ []
    /\ cm_jobs evs = 1%nat
    /\ V (prng w') = be_incr (replicate 16 0) 16.
Proof.
  destruct (get_random_first_job_fails mdk_example hw_fetch_error 1 (Some (replicate 16 7)) 16
              (world_seeded 1))
    as (w' & evs & Hrun & Htr & Hjobs & _ & HV & _).
  - lia.
  - unfold invalid_request. rewrite MAX_BYTES_PER_REQUEST_eq. intros [[_ Hf]|Hf]; [done|lia].
  - reflexivity.
  - rewrite RESEED_INTERVAL_eq. cbn [reseed_counter prng world_seeded]. lia.
  - reflexivity.
  - lia.
  - exists w', evs. split; [exact Hrun|]. split; [exact Htr|]. split; [exact Hjobs|exact HV].
Defined.

(** A request of any size up to 65536 that returns 0 on a seeded generator
    below the reseed interval gives the output and the state of the
    reference's generate, the last block cut to the bytes asked for; the
    state it leaves is again one that the reference accepts, so that a run
    of requests follows the reference request by request. *)
Theorem get_random_refines_generate (mdk : cracen_mdk) (hw : cracen_hw) (fuel : nat)
    (buf : list Z) (size : Z) (w w' : world) (p_buf' : option (list Z))
    (s : Reference.state) :
  cm_pushes_blocks hw ->
  initialized (prng w) = true ->
  holds (prng w) s -> length (Reference.Key s) = 32%nat ->
  0 <= Reference.Reseed_counter s < 2 ^ 48 ->
  0 <= size <= 65536 -> (Z.to_nat size <= length buf)%nat ->
  nrfx_cracen_ctr_drbg_get_random mdk hw fuel (Some buf) size w = Some ((0, p_buf'), w') ->
  let out := fst (Reference.generate (cm_block_encrypt hw) s size) in
  let s' := snd (Reference.generate (cm_block_encrypt hw) s size) in
  p_buf' = Some (out ++ drop (Z.to_nat size) buf)
  /\ length out = Z.to_nat size
  /\ holds (prng w') s' /\ initialized (prng w') = true
  /\ length (Reference.Key s') = 32%nat
  /\ Reference.Reseed_counter s' = Reference.Reseed_counter s + 1.
Proof.
  intros Hwf Hinit Hholds Hlen Hrc [Hs Hmax] Hroom Hrun.
  assert (Hval : ~ invalid_request (Some buf) size).
  { unfold invalid_request. rewrite MAX_BYTES_PER_REQUEST_eq. intros [[_ Hf]|Hf]; [done|lia]. }
  assert (Hlt : reseed_counter (prng w) < RESEED_INTERVAL).
  { destruct Hholds as (_ & _ & ->). rewrite RESEED_INTERVAL_eq. lia. }
  rewrite (get_random_after_phase mdk hw fuel _ _ w w Hval (pre_none mdk hw fuel w Hinit Hlt))
    in Hrun.
  assert (Hrange : 0 <= Reference.Reseed_counter s < 2 ^ 64 - 1) by lia.
  destruct (get_random_generate_refines mdk hw fuel (Some buf) size w w' p_buf' s Hwf Hs
              Hholds Hlen Hrange Hrun)
    as (Hholds' & Hlen' & Hinit' & Hlo & _ & Hout & _).
  cbv zeta. split; [exact (Hout buf eq_refl Hroom)|]. split; [exact Hlo|].
  split; [exact Hholds'|]. split; [now rewrite Hinit'|]. split; [exact Hlen'|].
  unfold Reference.generate. cbv zeta.
  now destruct (Reference.update (cm_block_encrypt hw) None (Reference.Key s) _).
Qed.

Lemma get_random_refines_generate_witness :
  match nrfx_cracen_ctr_drbg_get_random mdk_example hw_ready 1 (Some (replicate 24 7)) 20
          (world_seeded 1) with
  | Some ((_, p_buf'), _) =>
      p_buf' = Some (fst (Reference.generate AES256.encrypt
                            {| Reference.Key := replicate 32 0; Reference.Ctr := 0;
                               Reference.Reseed_counter := 1 |} 20) ++ [7; 7; 7; 7])
  | None => False
  end.
Proof.
  destruct (nrfx_cracen_ctr_drbg_get_random mdk_example hw_ready 1 (Some (replicate 24 7)) 20
              (world_seeded 1)) as [[[r p'] w']|] eqn:Hrun.
  - assert (Hr : r = 0) by (vm_compute in Hrun; now injection Hrun as <- <- <-). subst r.
    assert (Hroom : (Z.to_nat 20 <= length (replicate 24 7))%nat)
      by (rewrite length_replicate; lia).
    assert (Hs : 0 <= 20 <= 65536) by lia.
    destruct (get_random_refines_generate mdk_example hw_ready 1 (replicate 24 7) 20
                (world_seeded 1) w' p'
                {| Reference.Key := replicate 32 0; Reference.Ctr := 0;
                   Reference.Reseed_counter := 1 |}
                hw_ready_pushes_blocks eq_refl) as (Hout & _).
    + split; [reflexivity|]. split; reflexivity.
    + reflexivity.
    + cbn [Reference.Reseed_counter]. lia.
    + exact Hs.
    + exact Hroom.
    + exact Hrun.
    + exact Hout.
  - vm_compute in Hrun. discriminate Hrun.
Defined.

(** A request that finds the reseed counter at or above 2^48 and returns 0
    gives the output and the state of the reference's generate on the
    reference's reseed with the 48 bytes that
    [nrfx_cracen_rng_get_entropy] delivers. *)
Theorem get_random_refines_reseed (mdk : cracen_mdk) (hw : cracen_hw) (fuel : nat)
    (buf entropy : list Z) (size : Z) (w w1 w' : world) (p_buf' : option (list Z))
    (s : Reference.state) :
  cm_pushes_blocks hw ->
  initialized (prng w) = true ->
  holds (prng w) s -> length (Reference.Key s) = 32%nat ->
  2 ^ 48 <= Reference.Reseed_counter s ->
  0 <= size <= 65536 -> (Z.to_nat size <= length buf)%nat ->
  nrfx_cracen_rng_get_entropy mdk hw fuel (replicate 48 0) 48 w = Some ((0, entropy), w1) ->
  nrfx_cracen_ctr_drbg_get_random mdk hw fuel (Some buf) size w = Some ((0, p_buf'), w') ->
  let s1 := Reference.reseed (cm_block_encrypt hw) s entropy in
  let out := fst (Reference.generate (cm_block_encrypt hw) s1 size) in
  let s' := snd (Reference.generate (cm_block_encrypt hw) s1 size) in
  p_buf' = Some (out ++ drop (Z.to_nat size) buf)
  /\ holds (prng w') s' /\ initialized (prng w') = true
  /\ Reference.Reseed_counter s' = 2.
Proof.
  intros Hwf Hinit Hholds Hlen Hrc [Hs Hmax] Hroom Hent Hrun.
  assert (Hval : ~ invalid_request (Some buf) size).
  { unfold invalid_request. rewrite MAX_BYTES_PER_REQUEST_eq. intros [[_ Hf]|Hf]; [done|lia]. }
  apply get_random_phases in Hrun as (r0 & w2 & Hpre & Hres); [|done].
  destruct Hres as [(_ & Hf & _)|(-> & Hgen)]; [discriminate Hf|].
  assert (Hge : reseed_counter (prng w) >= RESEED_INTERVAL).
  { destruct Hholds as (_ & _ & ->). rewrite RESEED_INTERVAL_eq. lia. }
  inversion Hpre as [Hi Hlt|r' w2' Hi Hge' Hre|r' w0 Hi Hini]; subst; [lia| |congruence].
  destruct (cracen_ctr_drbg_reseed_refines mdk hw fuel w w2 w1 entropy s Hwf Hholds Hlen
              Hre Hent) as (Hholds2 & Hlen2 & Hinit2).
  assert (Hrc1 : Reference.Reseed_counter (Reference.reseed (cm_block_encrypt hw) s entropy)
                 = 1).
  { unfold Reference.reseed.
    now destruct (Reference.update (cm_block_encrypt hw) (Some entropy) _ _). }
  assert (Hrange : 0 <= Reference.Reseed_counter
                          (Reference.reseed (cm_block_encrypt hw) s entropy) < 2 ^ 64 - 1)
    by (rewrite Hrc1; lia).
  destruct (get_random_generate_refines mdk hw fuel (Some buf) size w2 w' p_buf' _ Hwf Hs
              Hholds2 Hlen2 Hrange Hgen)
    as (Hholds' & _ & Hinit' & _ & _ & Hout & _).
  cbv zeta. split; [exact (Hout buf eq_refl Hroom)|]. split; [exact Hholds'|].
  split; [now rewrite Hinit', Hinit2|].
  unfold Reference.generate. cbv zeta.
  destruct (Reference.update (cm_block_encrypt hw) None _ _).
  cbn [snd Reference.Reseed_counter]. rewrite Hrc1. reflexivity.
Qed.

Lemma get_random_refines_reseed_witness :
  match nrfx_cracen_ctr_drbg_get_random mdk_example hw_ready 1 (Some (replicate 16 0)) 16
          (world_seeded (2 ^ 48)) with
  | Some (_, w') => reseed_counter (prng w') = 2
  | None => False
  end.
Proof.
  destruct (nrfx_cracen_ctr_drbg_get_random mdk_example hw_ready 1 (Some (replicate 16 0)) 16
              (world_seeded (2 ^ 48))) as [[[r p'] w']|] eqn:Hrun;
    [|vm_compute in Hrun; discriminate Hrun].
  destruct (nrfx_cracen_rng_get_entropy mdk_example hw_ready 1 (replicate 48 0) 48
              (world_seeded (2 ^ 48))) as [[[re entropy] w1]|] eqn:Hent;
    [|vm_compute in Hent; discriminate Hent].
  assert (Hr : r = 0) by (vm_compute in Hrun; now injection Hrun as <- <- <-). subst r.
  assert (Hre : re = 0) by (vm_compute in Hent; now injection Hent as <- <- <-). subst re.
  assert (Hroom : (Z.to_nat 16 <= length (replicate 16 0))%nat)
    by (rewrite length_replicate; lia).
  assert (Hs : 0 <= 16 <= 65536) by lia.
  destruct (get_random_refines_reseed mdk_example hw_ready 1 (replicate 16 0) entropy 16
              (world_seeded (2 ^ 48)) w1 w' p'
              {| Reference.Key := replicate 32 0; Reference.Ctr := 0;
                 Reference.Reseed_counter := 2 ^ 48 |}
              hw_ready_pushes_blocks eq_refl) as (_ & (_ & _ & Hrc) & _ & Hrc2).
  - split; [reflexivity|]. split; reflexivity.
  - reflexivity.
  - cbn [Reference.Reseed_counter]. lia.
  - exact Hs.
  - exact Hroom.
  - exact Hent.
  - exact Hrun.
  - rewrite Hrc. exact Hrc2.
Defined.
